(** * The widget layer of ipygany (src/widget.ts)

    A shallow embedding of the Backbone models and of the scene view that bind
    the notebook's attribute bundles to the rendering core (core/Scene,
    core/Block, core/Data, core/EffectBlock, core/MeshBlock, core/Effects).

    - JS numbers are IEEE binary64 values: the kernel's primitive floats.
    - The core objects live in a heap addressed by references, so that a block
      shared by a child model and by the scene is one object.
    - Every constructor call, property assignment and method call made on a
      core object is appended to a log, in program order.
    - Code that can throw returns [Throw]; everything else returns [Ok]. *)

From Stdlib Require Import ZArith Floats Lia.
From stdpp Require Import gmap strings list.

(** ** JS numbers: [Math.max] and the order on non-NaN numbers *)

Module JsNumber.

Definition is_pos_zero (x : float) : bool :=
  match classify x with PZero => true | _ => false end.

Definition is_neg_zero (x : float) : bool :=
  match classify x with NZero => true | _ => false end.

(** The loop of ECMAScript's [Math.max]: [highest] starts at -Infinity; a NaN
    argument makes the result NaN; +0 is larger than -0. *)
Fixpoint max_from (highest : float) (values : list float) : float :=
  match values with
  | [] => highest
  | number :: rest =>
      if is_nan number then nan
      else if is_pos_zero number && is_neg_zero highest then max_from number rest
      else if (highest <? number)%float then max_from number rest
      else max_from highest rest
  end.

Definition Math_max (values : list float) : float := max_from neg_infinity values.

(** [x <= y] as JS evaluates it. *)
Definition fle (x y : float) : Prop := (x <=? y)%float = true.

Definition not_nan (x : float) : Prop := is_nan x = false.

End JsNumber.

(** ** JS values *)

Inductive JsError := TypeError | RangeError.

(** ArrayBuffers are objects of a store; a [DataView] and a typed array are
    windows on one of them. *)
Record DataView := {
  dv_buffer : nat;
  dv_byteOffset : nat;
  dv_byteLength : nat
}.

Inductive ElementType := Float32 | Uint32.

Record TypedArray := {
  ta_type : ElementType;
  ta_buffer : nat;
  ta_byteOffset : nat;
  ta_length : nat
}.

#[warnings="-register-all"]
Inductive JsValue :=
| JUndefined
| JNull
| JBool (b : bool)
| JNum (x : float)
| JStr (s : string)
| JArr (xs : list JsValue)
| JObj (fields : list (string * JsValue))   (* an object literal *)
| JTyped (a : TypedArray)
| JTypedNew (t : ElementType) (elements : list float)
                                            (* a typed array that [map] made, on a buffer of its own *)
| JModel (id : nat)                         (* a widget model, as unpack_models resolves it *)
| JRef (r : nat)                            (* an object of the core or of three.js *)
| JElement (view : nat).                    (* the DOM element [el] of a view *)

Definition typeof (v : JsValue) : string :=
  match v with
  | JUndefined => "undefined"
  | JBool _ => "boolean"
  | JNum _ => "number"
  | JStr _ => "string"
  | JNull | JArr _ | JObj _ | JTyped _ | JTypedNew _ _ | JModel _ | JRef _ | JElement _ =>
      "object"
  end.

(** ** Binary buffers and their deserialization (widget.ts, 46-52) *)

Module Buffers.

(** The ArrayBuffers by identity: a reference is an index. *)
Definition Store := list (list Byte.byte).

(** The message of a binary attribute: [data.data] is the DataView that the
    transport delivers. *)
Record ArrayMessage := { data : DataView }.

(** [new Float32Array(buffer)] and [new Uint32Array(buffer)] with neither
    offset nor length: a view on the whole buffer, four bytes an element; a
    byte length that is not a multiple of four is a RangeError, a detached
    buffer a TypeError. Nothing is allocated in the store. *)
Definition new_TypedArray (t : ElementType) (bufs : Store) (buffer : nat)
  : JsError + TypedArray :=
  match bufs !! buffer with
  | None => inl TypeError
  | Some bytes =>
      if decide (length bytes mod 4 = 0)
      then inr {| ta_type := t; ta_buffer := buffer; ta_byteOffset := 0;
                  ta_length := length bytes / 4 |}
      else inl RangeError
  end.

(** The four bytes of element [i], read from the store through the view. *)
Definition element_bytes (bufs : Store) (a : TypedArray) (i : nat)
  : option (list Byte.byte) :=
  if decide (i < ta_length a) then
    match bufs !! ta_buffer a with
    | Some bytes => Some (take 4 (drop (ta_byteOffset a + 4 * i) bytes))
    | None => None
    end
  else None.

(** Little-endian value of a byte sequence. *)
Fixpoint le_value (bs : list Byte.byte) : Z :=
  match bs with
  | [] => 0
  | b :: bs => Z.of_N (Byte.to_N b) + 256 * le_value bs
  end.

Definition get_uint32 (bufs : Store) (a : TypedArray) (i : nat) : option Z :=
  le_value <$> element_bytes bufs a i.

(** A one-byte write into a buffer, through whatever alias. *)
Definition store_byte (bufs : Store) (buffer k : nat) (b : Byte.byte) : Store :=
  match bufs !! buffer with
  | Some bytes => <[buffer := <[k := b]> bytes]> bufs
  | None => bufs
  end.

End Buffers.

Definition deserialize_float32array (bufs : Buffers.Store)
    (data : Buffers.ArrayMessage) (manager : JsValue) : JsError + TypedArray :=
  Buffers.new_TypedArray Float32 bufs (dv_buffer (Buffers.data data)).

Definition deserialize_uint32array (bufs : Buffers.Store)
    (data : Buffers.ArrayMessage) (manager : JsValue) : JsError + TypedArray :=
  Buffers.new_TypedArray Uint32 bufs (dv_buffer (Buffers.data data)).

(** The entries of a [serializers] table. *)
Inductive Deserializer :=
| Deserialize_float32array
| Deserialize_uint32array
| Unpack_models.

(** ** Objects of the core, the log and the state *)

Inductive CoreClass :=
| Component | Data
| PolyMesh | TetraMesh
| IsoColor | IsoSurface | Threshold
| Scene | Renderer
| Vector3.

(** What the getters and methods of a core object answer from, by class. *)
Inductive Internal :=
| IBlock (inputDimension boundingSphereRadius : float)
| IScene (blocks : list JsValue)
| IRenderer (initialized : bool)
| IPlain.

Record Obj := {
  obj_class : CoreClass;
  obj_args : list JsValue;                (* the constructor's arguments *)
  obj_fields : gmap string JsValue;       (* the properties assigned so far *)
  obj_internal : Internal
}.

Definition with_field (field : string) (v : JsValue) (o : Obj) : Obj :=
  {| obj_class := obj_class o; obj_args := obj_args o;
     obj_fields := <[field := v]> (obj_fields o);
     obj_internal := obj_internal o |}.

Definition with_internal (i : Internal) (o : Obj) : Obj :=
  {| obj_class := obj_class o; obj_args := obj_args o;
     obj_fields := obj_fields o; obj_internal := i |}.

Inductive ModelClass :=
| ComponentModel | DataModel
| PolyMeshModel | TetraMeshModel
| IsoColorModel | IsoSurfaceModel | ThresholdModel
| SceneModel.

(** The closures that widget.ts registers, one constructor a closure; [this]
    is the model (or the view) that registered it. *)
Inductive Callback :=
| cb_array              (* () => { this.component.array = this.get('array'); } *)
| cb_default_color      (* () => { this.block.defaultColor = this.defaultColor; } *)
| cb_default_alpha      (* () => { this.block.defaultAlpha = this.defaultAlpha; } *)
| cb_vertices           (* () => { this.block.vertices = this.vertices; } *)
| cb_updateInput        (* this.updateInput.bind(this) *)
| cb_IsoColor_min       (* () => { this.block.min = this.min } *)
| cb_IsoColor_max       (* () => { this.block.max = this.max } *)
| cb_value              (* () => { this.block.value = this.value } *)
| cb_Threshold_min      (* () => { this.block.min = this.min } *)
| cb_Threshold_max      (* () => { this.block.max = this.max } *)
| cb_updateChildren     (* this.updateChildren.bind(this) *)
| cb_background_color (view : nat).
                        (* () => { this.renderer.backgroundColor = this.model.get('background_color'); } *)

(** What the code does to its collaborators, in program order. *)
Inductive Event :=
| New (c : CoreClass) (args : list JsValue) (r : nat)
| Assign (r : nat) (field : string) (v : JsValue)
| Call (r : nat) (method : string) (args : list JsValue)
| Listen (model : nat) (name : string) (cb : Callback)     (* model.on(name, cb) *)
| ClassListAdd (view : nat) (token : string)
| WindowAddEventListener (type : string) (view : nat)
| Displayed (view : nat).                  (* the host resolves view.displayed *)

Record Model := {
  model_class : ModelClass;
  attributes : gmap string JsValue;
  events : list (string * Callback);      (* in registration order *)
  props : gmap string JsValue             (* component, data, block, scene, obj *)
}.

(** The reactions of a promise and the jobs of the microtask queue. *)
Inductive Job :=
| job_displayed (view : nat).              (* the arrow passed to displayed.then *)

Record Promise := {
  resolved : bool;
  reactions : list Job
}.

Record View := {
  view_model : nat;
  view_props : gmap string JsValue;       (* renderer *)
  classList : list string;
  displayed : Promise
}.

Record State := {
  models : list Model;
  views : list View;
  heap : list Obj;
  window_listeners : list (string * nat); (* 'resize' listeners, by view *)
  jobs : list Job;
  log : list Event
}.

Definition with_models (f : list Model -> list Model) (s : State) : State :=
  {| models := f (models s); views := views s; heap := heap s;
     window_listeners := window_listeners s; jobs := jobs s; log := log s |}.

Definition with_views (f : list View -> list View) (s : State) : State :=
  {| models := models s; views := f (views s); heap := heap s;
     window_listeners := window_listeners s; jobs := jobs s; log := log s |}.

Definition with_heap (f : list Obj -> list Obj) (s : State) : State :=
  {| models := models s; views := views s; heap := f (heap s);
     window_listeners := window_listeners s; jobs := jobs s; log := log s |}.

Definition with_window_listeners
    (f : list (string * nat) -> list (string * nat)) (s : State) : State :=
  {| models := models s; views := views s; heap := heap s;
     window_listeners := f (window_listeners s); jobs := jobs s; log := log s |}.

Definition with_jobs (f : list Job -> list Job) (s : State) : State :=
  {| models := models s; views := views s; heap := heap s;
     window_listeners := window_listeners s; jobs := f (jobs s); log := log s |}.

Definition with_log (f : list Event -> list Event) (s : State) : State :=
  {| models := models s; views := views s; heap := heap s;
     window_listeners := window_listeners s; jobs := jobs s; log := f (log s) |}.

(** What widget.ts imports and this repository's src/ does not hold: the
    constants of ./version, the tables of @jupyter-widgets/base, and the bodies
    of the core's constructors and of [Effect.setInput]. *)
Class Env := {
  MODULE_NAME : string;
  MODULE_VERSION : string;
  WidgetModel_defaults : gmap string JsValue;
  DOMWidgetModel_defaults : gmap string JsValue;
  WidgetModel_serializers : gmap string Deserializer;
  DOMWidgetModel_serializers : gmap string Deserializer;
  (** the getters of a block just constructed *)
  core_inputDimension : CoreClass -> list JsValue -> list Obj -> float;
  core_boundingSphereRadius : CoreClass -> list JsValue -> list Obj -> float;
  (** what [setInput] makes of the effect it is called on *)
  core_setInput : Obj -> JsValue -> Obj;
  (** how deep the engine lets accessors call accessors before it throws a
      RangeError *)
  call_stack_limit : nat
}.

(** ** The monad of the code: state, and exceptions that keep the state *)

Inductive Res (A : Type) :=
| Ok (a : A) (s : State)
| Throw (e : JsError) (s : State).
Arguments Ok {A} a s.
Arguments Throw {A} e s.

Definition M (A : Type) : Type := State -> Res A.

Definition ret {A} (a : A) : M A := fun s => Ok a s.

Definition bind {A B} (m : M A) (k : A -> M B) : M B :=
  fun s => match m s with
           | Ok a s' => k a s'
           | Throw e s' => Throw e s'
           end.

Definition throw {A} (e : JsError) : M A := fun s => Throw e s.

Declare Scope js_scope.
Delimit Scope js_scope with js.
Notation "'let!' x ':=' m 'in' k" := (bind m (fun x => k))
  (at level 10, x name, m at level 100, k at level 200) : js_scope.
Notation "m ;; k" := (bind m (fun _ => k))
  (at level 100, k at level 200, right associativity) : js_scope.
Local Open Scope js_scope.

Definition final_state {A} (r : Res A) : State :=
  match r with Ok _ s => s | Throw _ s => s end.

(** [xs.map(f)] on a list of values, and a [for ... of] loop. *)
Fixpoint mapM {A B} (f : A -> M B) (xs : list A) : M (list B) :=
  match xs with
  | [] => ret []
  | x :: xs => let! y := f x in let! ys := mapM f xs in ret (y :: ys)
  end.

Fixpoint for_of {A} (xs : list A) (body : A -> M unit) : M unit :=
  match xs with
  | [] => ret tt
  | x :: xs => body x ;; for_of xs body
  end.

(** *** The state's primitives *)

Definition emit (e : Event) : M unit :=
  fun s => Ok tt (with_log (fun l => l ++ [e]) s).

Definition get_model (self : nat) : M Model :=
  fun s => match models s !! self with
           | Some m => Ok m s
           | None => Throw TypeError s
           end.

Definition put_model (self : nat) (m : Model) : M unit :=
  fun s => Ok tt (with_models (fun ms => <[self := m]> ms) s).

Definition get_view (self : nat) : M View :=
  fun s => match views s !! self with
           | Some v => Ok v s
           | None => Throw TypeError s
           end.

Definition put_view (self : nat) (v : View) : M unit :=
  fun s => Ok tt (with_views (fun vs => <[self := v]> vs) s).

Definition get_obj (r : nat) : M Obj :=
  fun s => match heap s !! r with
           | Some o => Ok o s
           | None => Throw TypeError s
           end.

Definition put_obj (r : nat) (o : Obj) : M unit :=
  fun s => Ok tt (with_heap (fun h => <[r := o]> h) s).

Definition get_heap : M (list Obj) := fun s => Ok (heap s) s.

(** *** Backbone: attributes and events *)

(** [this.get(key)] *)
Definition get (self : nat) (key : string) : M JsValue :=
  let! m := get_model self in
  ret (default JUndefined (attributes m !! key)).

(** [this.on(name, cb)] *)
Definition on (self : nat) (name : string) (cb : Callback) : M unit :=
  let! m := get_model self in
  put_model self {| model_class := model_class m; attributes := attributes m;
                    events := events m ++ [(name, cb)]; props := props m |} ;;
  emit (Listen self name cb).

(** [this.<name>], a field of the model such as [this.block] *)
Definition this_prop (self : nat) (name : string) : M JsValue :=
  let! m := get_model self in
  ret (default JUndefined (props m !! name)).

(** [this.<name> = v] *)
Definition set_this_prop (self : nat) (name : string) (v : JsValue) : M unit :=
  let! m := get_model self in
  put_model self {| model_class := model_class m; attributes := attributes m;
                    events := events m; props := <[name := v]> (props m) |}.

(** The first entry of a key in a table. *)
Fixpoint assoc {V} (name : string) (l : list (string * V)) : option V :=
  match l with
  | [] => None
  | (k, v) :: l => if String.eqb k name then Some v else assoc name l
  end.

(** What [map] stores in the typed array it makes when the callback answers
    undefined: NaN in a Float32Array, 0 in a Uint32Array. *)
Definition undefined_element (t : ElementType) : float :=
  match t with
  | Float32 => nan
  | Uint32 => 0
  end.

(** [xs.map(x => x.<name>)] where [xs] is the value of an attribute and
    [reader] reads the field. An array gives the array of the fields. A typed
    array gives a new typed array of its type and length: its elements are
    numbers, of which every field that widget.ts reads is undefined. Any other
    value has no [map]. *)
Definition array_map (reader : JsValue -> string -> M JsValue) (name : string)
    (xs : JsValue) : M JsValue :=
  match xs with
  | JArr l => let! ys := mapM (fun x => reader x name) l in ret (JArr ys)
  | JTyped a =>
      ret (JTypedNew (ta_type a) (replicate (ta_length a) (undefined_element (ta_type a))))
  | JTypedNew t elements =>
      ret (JTypedNew t (replicate (length elements) (undefined_element t)))
  | _ => throw TypeError
  end.

(** What [for ... of] and the spread see of an array or of a typed array. *)
Definition elements_of (xs : JsValue) : list JsValue :=
  match xs with
  | JArr l => l
  | JTypedNew t elements => map JNum elements
  | _ => []
  end.

(** *** The core's objects *)

(** [target.field = v]; the targets of widget.ts are [this.block],
    [this.component] and [this.renderer], objects of the core when they are
    set, and an assignment to a field of [undefined] is a TypeError. *)
Definition assign (target : JsValue) (field : string) (v : JsValue) : M unit :=
  match target with
  | JRef r =>
      let! o := get_obj r in
      put_obj r (with_field field v o) ;;
      emit (Assign r field v)
  | _ => throw TypeError
  end.

(** [block.inputDimension] *)
Definition read_inputDimension (block : JsValue) : M float :=
  match block with
  | JRef r =>
      let! o := get_obj r in
      match obj_internal o with
      | IBlock d _ => ret d
      | _ => throw TypeError
      end
  | _ => throw TypeError
  end.

(** [block.boundingSphereRadius] as [Math.max] receives it: an object that
    is no block has no such property, and [undefined] counts as NaN. *)
Definition read_boundingSphereRadius (block : JsValue) : M float :=
  match block with
  | JRef r =>
      let! o := get_obj r in
      match obj_internal o with
      | IBlock _ radius => ret radius
      | _ => ret nan
      end
  | JUndefined | JNull => throw TypeError
  | _ => ret nan
  end.

Section Widget.

Context `{Env}.

(** [new C(args)]: a fresh object; what its getters answer is the core's. *)
Definition new_ (c : CoreClass) (args : list JsValue) (i : Internal) : M JsValue :=
  fun s =>
    let r := length (heap s) in
    let o := {| obj_class := c; obj_args := args; obj_fields := ∅; obj_internal := i |} in
    Ok (JRef r) (with_log (fun l => l ++ [New c args r]) (with_heap (fun h => h ++ [o]) s)).

Definition new_block (c : CoreClass) (args : list JsValue) : M JsValue :=
  let! h := get_heap in
  new_ c args (IBlock (core_inputDimension c args h) (core_boundingSphereRadius c args h)).

(** [new THREE.Vector3(x, y, z)] *)
Definition new_Vector3 (x y z : float) : M JsValue :=
  let! v := new_ Vector3 [JNum x; JNum y; JNum z] IPlain in
  match v with
  | JRef r =>
      let! o := get_obj r in
      put_obj r (with_field "z" (JNum z) (with_field "y" (JNum y) (with_field "x" (JNum x) o))) ;;
      ret v
  | _ => ret v
  end.

(** [block.setInput(input)] *)
Definition setInput (block : JsValue) (input : JsValue) : M unit :=
  match block with
  | JRef r =>
      let! o := get_obj r in
      match obj_internal o with
      | IBlock _ _ => put_obj r (core_setInput o input) ;; emit (Call r "setInput" [input])
      | _ => throw TypeError
      end
  | _ => throw TypeError
  end.

(** Modelled from the spec: [Scene.addChild], of core/Scene, which src/ does
    not hold; "addChild(block): appends". *)
Definition addChild (scene : JsValue) (block : JsValue) : M unit :=
  match scene with
  | JRef r =>
      let! o := get_obj r in
      match obj_internal o with
      | IScene blocks =>
          put_obj r (with_internal (IScene (blocks ++ [block])) o) ;;
          emit (Call r "addChild" [block])
      | _ => throw TypeError
      end
  | _ => throw TypeError
  end.

(** ** The model classes *)

(** [{...base, k1: v1, ..., kn: vn}] *)
Definition spread {V} (base : gmap string V) (own : list (string * V)) : gmap string V :=
  foldl (fun m kv => <[kv.1 := kv.2]> m) base own.

(** *** defaults *)

Definition _OdysisWidgetModel_defaults : gmap string JsValue :=
  spread WidgetModel_defaults
    [("_model_module", JStr MODULE_NAME);
     ("_model_module_version", JStr MODULE_VERSION)].

Definition _OdysisDOMWidgetModel_defaults : gmap string JsValue :=
  spread DOMWidgetModel_defaults
    [("_model_module", JStr MODULE_NAME);
     ("_model_module_version", JStr MODULE_VERSION);
     ("_view_module", JStr MODULE_NAME);
     ("_view_module_version", JStr MODULE_VERSION)].

Definition ComponentModel_defaults : gmap string JsValue :=
  spread _OdysisWidgetModel_defaults
    [("_model_name", JStr "ComponentModel"); ("name", JStr ""); ("array", JArr [])].

Definition DataModel_defaults : gmap string JsValue :=
  spread _OdysisWidgetModel_defaults
    [("_model_name", JStr "DataModel"); ("name", JStr ""); ("components", JArr [])].

Definition BlockModel_defaults : gmap string JsValue :=
  spread _OdysisWidgetModel_defaults
    [("_model_name", JStr "BlockModel");
     ("vertices", JArr []);
     ("data", JArr []);
     ("environment_meshes", JArr []);
     ("default_color", JStr "#6395b0");
     ("default_alpha", JNum 1)].

Definition PolyMeshModel_defaults : gmap string JsValue :=
  spread BlockModel_defaults
    [("_model_name", JStr "PolyMeshModel"); ("triangle_indices", JArr [])].

Definition TetraMeshModel_defaults : gmap string JsValue :=
  spread PolyMeshModel_defaults
    [("_model_name", JStr "TetraMeshModel"); ("tetrahedron_indices", JArr [])].

Definition EffectModel_defaults : gmap string JsValue :=
  spread BlockModel_defaults
    [("_model_name", JStr "EffectModel"); ("parent", JNull); ("input", JNull)].

Definition IsoColorModel_defaults : gmap string JsValue :=
  spread EffectModel_defaults
    [("_model_name", JStr "IsoColorModel"); ("min", JNum 0); ("max", JNum 0)].

Definition IsoSurfaceModel_defaults : gmap string JsValue :=
  spread EffectModel_defaults
    [("_model_name", JStr "IsoSurfaceModel"); ("value", JNum 0)].

Definition ThresholdModel_defaults : gmap string JsValue :=
  spread EffectModel_defaults
    [("_model_name", JStr "ThresholdModel"); ("min", JNum 0); ("max", JNum 0)].

Definition SceneModel_defaults : gmap string JsValue :=
  spread _OdysisDOMWidgetModel_defaults
    [("_model_name", JStr "SceneModel");
     ("_view_name", JStr "SceneView");
     ("background_color", JStr "#fff");
     ("children", JArr [])].

Definition defaults (cls : ModelClass) : gmap string JsValue :=
  match cls with
  | ComponentModel => ComponentModel_defaults
  | DataModel => DataModel_defaults
  | PolyMeshModel => PolyMeshModel_defaults
  | TetraMeshModel => TetraMeshModel_defaults
  | IsoColorModel => IsoColorModel_defaults
  | IsoSurfaceModel => IsoSurfaceModel_defaults
  | ThresholdModel => ThresholdModel_defaults
  | SceneModel => SceneModel_defaults
  end.

(** *** serializers *)

Definition _OdysisWidgetModel_serializers : gmap string Deserializer :=
  WidgetModel_serializers.

Definition _OdysisDOMWidgetModel_serializers : gmap string Deserializer :=
  DOMWidgetModel_serializers.

Definition ComponentModel_serializers : gmap string Deserializer :=
  spread _OdysisWidgetModel_serializers [("array", Deserialize_float32array)].

Definition DataModel_serializers : gmap string Deserializer :=
  spread _OdysisWidgetModel_serializers [("components", Unpack_models)].

Definition BlockModel_serializers : gmap string Deserializer :=
  spread _OdysisWidgetModel_serializers
    [("vertices", Deserialize_float32array);
     ("data", Unpack_models);
     ("environment_meshes", Unpack_models)].

Definition PolyMeshModel_serializers : gmap string Deserializer :=
  spread BlockModel_serializers [("triangle_indices", Deserialize_uint32array)].

Definition TetraMeshModel_serializers : gmap string Deserializer :=
  spread PolyMeshModel_serializers [("tetrahedron_indices", Deserialize_uint32array)].

Definition EffectModel_serializers : gmap string Deserializer :=
  spread BlockModel_serializers [("parent", Unpack_models)].

Definition SceneModel_serializers : gmap string Deserializer :=
  spread _OdysisDOMWidgetModel_serializers [("children", Unpack_models)].

(** The static [serializers] of a class; the three effect classes inherit
    EffectModel's. *)
Definition serializers (cls : ModelClass) : gmap string Deserializer :=
  match cls with
  | ComponentModel => ComponentModel_serializers
  | DataModel => DataModel_serializers
  | PolyMeshModel => PolyMeshModel_serializers
  | TetraMeshModel => TetraMeshModel_serializers
  | IsoColorModel | IsoSurfaceModel | ThresholdModel => EffectModel_serializers
  | SceneModel => SceneModel_serializers
  end.

(** What a table's entry does to the message of a binary attribute. *)
Definition run_deserializer (d : Deserializer) (bufs : Buffers.Store)
    (data : Buffers.ArrayMessage) (manager : JsValue) : option (JsError + TypedArray) :=
  match d with
  | Deserialize_float32array => Some (deserialize_float32array bufs data manager)
  | Deserialize_uint32array => Some (deserialize_uint32array bufs data manager)
  | Unpack_models => None
  end.

(** *** The getters *)

Definition this_class (self : nat) : M ModelClass :=
  let! m := get_model self in ret (model_class m).

Definition BlockModel_vertices (self : nat) : M JsValue := get self "vertices".

(** [this.get('data').map((dataModel) => dataModel.data)] and
    [this.get('environment_meshes').map((model) => model.obj)], where [reader]
    reads the field of an element. *)
Definition BlockModel_data_from (reader : JsValue -> string -> M JsValue) (self : nat)
  : M JsValue :=
  let! ds := get self "data" in
  array_map reader "data" ds.

Definition BlockModel_environmentMeshes_from (reader : JsValue -> string -> M JsValue)
    (self : nat) : M JsValue :=
  let! ms := get self "environment_meshes" in
  array_map reader "obj" ms.

Definition BlockModel_defaultColor (self : nat) : M JsValue := get self "default_color".

Definition BlockModel_defaultAlpha (self : nat) : M JsValue := get self "default_alpha".

Definition PolyMeshModel_triangleIndices (self : nat) : M JsValue :=
  get self "triangle_indices".

Definition TetraMeshModel_tetrahedronIndices (self : nat) : M JsValue :=
  get self "tetrahedron_indices".

Definition EffectModel_parent (self : nat) : M JsValue := get self "parent".

Definition EffectModel_input (self : nat) : M JsValue := get self "input".

Definition IsoColorModel_min (self : nat) : M JsValue := get self "min".
Definition IsoColorModel_max (self : nat) : M JsValue := get self "max".

Definition IsoColorModel_input (self : nat) : M JsValue :=
  let! input := get self "input" in
  ret (if decide (typeof input = "string") then input else JArr [input]).

Definition IsoSurfaceModel_value (self : nat) : M JsValue := get self "value".

Definition IsoSurfaceModel_input (self : nat) : M JsValue :=
  let! input := get self "input" in
  ret (if decide (typeof input = "string") then input else JArr [input]).

Definition ThresholdModel_min (self : nat) : M JsValue := get self "min".
Definition ThresholdModel_max (self : nat) : M JsValue := get self "max".

Definition ThresholdModel_input (self : nat) : M JsValue :=
  let! input := get self "input" in
  ret (if decide (typeof input = "string") then input else JArr [input]).

(** *** Reading a field of a value *)

(** The accessors of the classes. A read of [x.<name>] on a model whose class
    has the accessor [name] runs the getter; the fields that the classes only
    declare ([component], [data] of a DataModel, [block], [scene]) are plain
    fields. *)
Inductive Accessor :=
| acc_vertices | acc_data | acc_environmentMeshes | acc_defaultColor | acc_defaultAlpha
| acc_triangleIndices | acc_tetrahedronIndices
| acc_parent
| acc_IsoColor_min | acc_IsoColor_max | acc_IsoColor_input
| acc_value | acc_IsoSurface_input
| acc_Threshold_min | acc_Threshold_max | acc_Threshold_input.

Definition BlockModel_accessors : list (string * Accessor) :=
  [("vertices", acc_vertices); ("data", acc_data);
   ("environmentMeshes", acc_environmentMeshes);
   ("defaultColor", acc_defaultColor); ("defaultAlpha", acc_defaultAlpha)].

Definition PolyMeshModel_accessors : list (string * Accessor) :=
  ("triangleIndices", acc_triangleIndices) :: BlockModel_accessors.

Definition TetraMeshModel_accessors : list (string * Accessor) :=
  ("tetrahedronIndices", acc_tetrahedronIndices) :: PolyMeshModel_accessors.

(** [input] of EffectModel is overridden in each of the three classes. *)
Definition EffectModel_accessors : list (string * Accessor) :=
  ("parent", acc_parent) :: BlockModel_accessors.

Definition IsoColorModel_accessors : list (string * Accessor) :=
  [("min", acc_IsoColor_min); ("max", acc_IsoColor_max); ("input", acc_IsoColor_input)]
  ++ EffectModel_accessors.

Definition IsoSurfaceModel_accessors : list (string * Accessor) :=
  [("value", acc_value); ("input", acc_IsoSurface_input)] ++ EffectModel_accessors.

Definition ThresholdModel_accessors : list (string * Accessor) :=
  [("min", acc_Threshold_min); ("max", acc_Threshold_max); ("input", acc_Threshold_input)]
  ++ EffectModel_accessors.

Definition accessor (cls : ModelClass) (name : string) : option Accessor :=
  match cls with
  | ComponentModel | DataModel | SceneModel => None
  | PolyMeshModel => assoc name PolyMeshModel_accessors
  | TetraMeshModel => assoc name TetraMeshModel_accessors
  | IsoColorModel => assoc name IsoColorModel_accessors
  | IsoSurfaceModel => assoc name IsoSurfaceModel_accessors
  | ThresholdModel => assoc name ThresholdModel_accessors
  end.

(** The getter of an accessor, where [reader] reads the fields that the
    getter reads. *)
Definition getter (reader : JsValue -> string -> M JsValue) (a : Accessor) (self : nat)
  : M JsValue :=
  match a with
  | acc_vertices => BlockModel_vertices self
  | acc_data => BlockModel_data_from reader self
  | acc_environmentMeshes => BlockModel_environmentMeshes_from reader self
  | acc_defaultColor => BlockModel_defaultColor self
  | acc_defaultAlpha => BlockModel_defaultAlpha self
  | acc_triangleIndices => PolyMeshModel_triangleIndices self
  | acc_tetrahedronIndices => TetraMeshModel_tetrahedronIndices self
  | acc_parent => EffectModel_parent self
  | acc_IsoColor_min => IsoColorModel_min self
  | acc_IsoColor_max => IsoColorModel_max self
  | acc_IsoColor_input => IsoColorModel_input self
  | acc_value => IsoSurfaceModel_value self
  | acc_IsoSurface_input => IsoSurfaceModel_input self
  | acc_Threshold_min => ThresholdModel_min self
  | acc_Threshold_max => ThresholdModel_max self
  | acc_Threshold_input => ThresholdModel_input self
  end.

(** [x.<name>], where [run] runs an accessor of a model: on a model, the
    accessor of its class if there is one, else the field; on an object
    literal, its own field of this name, the last one written; a read on
    [undefined] or [null] is a TypeError; any other value has no field of the
    names that widget.ts reads. *)
Definition read_prop (run : Accessor -> nat -> M JsValue) (x : JsValue) (name : string)
  : M JsValue :=
  match x with
  | JModel id =>
      let! m := get_model id in
      match accessor (model_class m) name with
      | Some a => run a id
      | None => ret (default JUndefined (props m !! name))
      end
  | JObj fields => ret (default JUndefined (assoc name (reverse fields)))
  | JUndefined | JNull => throw TypeError
  | _ => ret JUndefined
  end.

(** A getter may read the same accessor of another model, and a list of
    models may lead back to the model that reads it: the calls nest until
    the engine's stack is full, and then a RangeError is thrown. *)
Fixpoint run_getter (depth : nat) (a : Accessor) (self : nat) : M JsValue :=
  match depth with
  | 0 => throw RangeError
  | S depth => getter (read_prop (run_getter depth)) a self
  end.

(** [x.<name>] *)
Definition get_prop (x : JsValue) (name : string) : M JsValue :=
  read_prop (run_getter call_stack_limit) x name.

(** [this.data] and [this.environmentMeshes] of a block model *)
Definition BlockModel_data (self : nat) : M JsValue := BlockModel_data_from get_prop self.

Definition BlockModel_environmentMeshes (self : nat) : M JsValue :=
  BlockModel_environmentMeshes_from get_prop self.

(** [this.input] where the class of [this] decides. *)
Definition this_input (self : nat) : M JsValue :=
  let! cls := this_class self in
  match cls with
  | IsoColorModel => IsoColorModel_input self
  | IsoSurfaceModel => IsoSurfaceModel_input self
  | ThresholdModel => ThresholdModel_input self
  | _ => EffectModel_input self
  end.

(** *** createBlock *)

Definition PolyMeshModel_createBlock (self : nat) : M JsValue :=
  let! vertices := BlockModel_vertices self in
  let! triangleIndices := PolyMeshModel_triangleIndices self in
  let! data := BlockModel_data self in
  let! environmentMeshes := BlockModel_environmentMeshes self in
  new_block PolyMesh
    [vertices; triangleIndices; data; JObj [("environmentMeshes", environmentMeshes)]].

Definition TetraMeshModel_createBlock (self : nat) : M JsValue :=
  let! vertices := BlockModel_vertices self in
  let! triangleIndices := PolyMeshModel_triangleIndices self in
  let! tetrahedronIndices := TetraMeshModel_tetrahedronIndices self in
  let! data := BlockModel_data self in
  let! environmentMeshes := BlockModel_environmentMeshes self in
  new_block TetraMesh
    [vertices; triangleIndices; tetrahedronIndices; data;
     JObj [("environmentMeshes", environmentMeshes)]].

Definition IsoColorModel_createBlock (self : nat) : M JsValue :=
  let! parent := EffectModel_parent self in
  let! parent_block := get_prop parent "block" in
  let! input := IsoColorModel_input self in
  let! min := IsoColorModel_min self in
  let! max := IsoColorModel_max self in
  new_block IsoColor [parent_block; input; min; max].

Definition IsoSurfaceModel_createBlock (self : nat) : M JsValue :=
  let! parent := EffectModel_parent self in
  let! parent_block := get_prop parent "block" in
  let! input := IsoSurfaceModel_input self in
  let! value := IsoSurfaceModel_value self in
  new_block IsoSurface [parent_block; input; value].

Definition ThresholdModel_createBlock (self : nat) : M JsValue :=
  let! parent := EffectModel_parent self in
  let! parent_block := get_prop parent "block" in
  let! input := ThresholdModel_input self in
  let! min := ThresholdModel_min self in
  let! max := ThresholdModel_max self in
  new_block Threshold [parent_block; input; min; max].

(** [this.createBlock()]: abstract in BlockModel. *)
Definition createBlock (self : nat) : M JsValue :=
  let! cls := this_class self in
  match cls with
  | PolyMeshModel => PolyMeshModel_createBlock self
  | TetraMeshModel => TetraMeshModel_createBlock self
  | IsoColorModel => IsoColorModel_createBlock self
  | IsoSurfaceModel => IsoSurfaceModel_createBlock self
  | ThresholdModel => ThresholdModel_createBlock self
  | ComponentModel | DataModel | SceneModel => throw TypeError
  end.

(** *** initEventListeners *)

Definition BlockModel_initEventListeners (self : nat) : M unit :=
  on self "change:default_color" cb_default_color ;;
  on self "change:default_alpha" cb_default_alpha.

Definition PolyMeshModel_initEventListeners (self : nat) : M unit :=
  BlockModel_initEventListeners self ;;
  on self "change:vertices" cb_vertices.

Definition EffectModel_initEventListeners (self : nat) : M unit :=
  BlockModel_initEventListeners self ;;
  on self "change:input" cb_updateInput.

Definition IsoColorModel_initEventListeners (self : nat) : M unit :=
  EffectModel_initEventListeners self ;;
  on self "change:min" cb_IsoColor_min ;;
  on self "change:max" cb_IsoColor_max.

Definition IsoSurfaceModel_initEventListeners (self : nat) : M unit :=
  EffectModel_initEventListeners self ;;
  on self "change:value" cb_value.

Definition ThresholdModel_initEventListeners (self : nat) : M unit :=
  EffectModel_initEventListeners self ;;
  on self "change:min" cb_Threshold_min ;;
  on self "change:max" cb_Threshold_max.

(** [this.initEventListeners()] of a block model; TetraMeshModel inherits
    PolyMeshModel's. *)
Definition initEventListeners (self : nat) : M unit :=
  let! cls := this_class self in
  match cls with
  | PolyMeshModel | TetraMeshModel => PolyMeshModel_initEventListeners self
  | IsoColorModel => IsoColorModel_initEventListeners self
  | IsoSurfaceModel => IsoSurfaceModel_initEventListeners self
  | ThresholdModel => ThresholdModel_initEventListeners self
  | ComponentModel | DataModel | SceneModel => throw TypeError
  end.

(** *** The methods that the listeners call *)

Definition EffectModel_updateInput (self : nat) : M unit :=
  let! block := this_prop self "block" in
  let! inputDimension := read_inputDimension block in
  if negb (inputDimension =? 0)%float then
    let! block := this_prop self "block" in
    let! input := this_input self in
    setInput block input
  else ret tt.

(** [blocks.map((block) => block.boundingSphereRadius)], as the spread hands
    it to [Math.max]; [blocks] is what the first [map] made. *)
Definition boundingSphereRadii (blocks : JsValue) : M (list float) :=
  match blocks with
  | JArr l => mapM read_boundingSphereRadius l
  | JTypedNew t elements => ret (replicate (length elements) (undefined_element t))
  | _ => throw TypeError
  end.

Definition SceneModel_updateChildren (self : nat) : M unit :=
  let! children := get self "children" in
  let! blocks := array_map get_prop "block" children in
  let! radii := boundingSphereRadii blocks in
  let boundingSphereRadius := JsNumber.Math_max radii in
  let! scale := new_Vector3 (1 / boundingSphereRadius) (1 / boundingSphereRadius)
                            (1 / boundingSphereRadius) in
  for_of (elements_of blocks) (fun block =>
    assign block "scale" scale ;;
    let! scene := this_prop self "scene" in
    addChild scene block).

(** *** initialize *)

(** [super.initialize(attributes, options)] of @jupyter-widgets/base: it
    binds the comm and touches nothing of this state. *)
Definition WidgetModel_initialize (self : nat) : M unit := ret tt.

Definition ComponentModel_initialize (self : nat) : M unit :=
  WidgetModel_initialize self ;;
  let! name := get self "name" in
  let! array := get self "array" in
  let! component := new_ Component [name; array] IPlain in
  set_this_prop self "component" component ;;
  on self "change:array" cb_array.

Definition DataModel_initialize (self : nat) : M unit :=
  WidgetModel_initialize self ;;
  let! cs := get self "components" in
  let! components := array_map get_prop "component" cs in
  let! name := get self "name" in
  let! data := new_ Data [name; components] IPlain in
  set_this_prop self "data" data.

Definition BlockModel_initialize (self : nat) : M unit :=
  WidgetModel_initialize self ;;
  let! b := createBlock self in
  set_this_prop self "block" b ;;
  let! block := this_prop self "block" in
  let! defaultColor := BlockModel_defaultColor self in
  assign block "defaultColor" defaultColor ;;
  initEventListeners self.

Definition SceneModel_initialize (self : nat) : M unit :=
  WidgetModel_initialize self ;;
  let! scene := new_ Scene [] (IScene []) in
  set_this_prop self "scene" scene ;;
  SceneModel_updateChildren self ;;
  on self "change:children" cb_updateChildren.

Definition initialize (self : nat) : M unit :=
  let! cls := this_class self in
  match cls with
  | ComponentModel => ComponentModel_initialize self
  | DataModel => DataModel_initialize self
  | PolyMeshModel | TetraMeshModel
  | IsoColorModel | IsoSurfaceModel | ThresholdModel => BlockModel_initialize self
  | SceneModel => SceneModel_initialize self
  end.

(** ** The scene view *)

Definition view_prop (self : nat) (name : string) : M JsValue :=
  let! v := get_view self in
  ret (default JUndefined (view_props v !! name)).

Definition set_view_prop (self : nat) (name : string) (x : JsValue) : M unit :=
  let! v := get_view self in
  put_view self {| view_model := view_model v; view_props := <[name := x]> (view_props v);
                   classList := classList v; displayed := displayed v |}.

(** [this.model] *)
Definition this_model (self : nat) : M nat :=
  let! v := get_view self in ret (view_model v).

(** [this.el.classList.add(token)] *)
Definition classList_add (self : nat) (token : string) : M unit :=
  let! v := get_view self in
  put_view self {| view_model := view_model v; view_props := view_props v;
                   classList := classList v ++ [token]; displayed := displayed v |} ;;
  emit (ClassListAdd self token).

(** [window.addEventListener(type, this.resize.bind(this), false)] *)
Definition window_addEventListener (type : string) (self : nat) : M unit :=
  (fun s => Ok tt (with_window_listeners (fun l => l ++ [(type, self)]) s)) ;;
  emit (WindowAddEventListener type self).

(** Modelled from the spec: the [Renderer] of core/Scene, which src/ does not
    hold; it "exposes initialize(), resize(), dispose() and a settable
    background color". *)
Definition Renderer_initialize (renderer : JsValue) : M unit :=
  match renderer with
  | JRef r =>
      let! o := get_obj r in
      match obj_internal o with
      | IRenderer _ =>
          put_obj r (with_internal (IRenderer true) o) ;;
          emit (Call r "initialize" [])
      | _ => throw TypeError
      end
  | _ => throw TypeError
  end.

Definition Renderer_method (renderer : JsValue) (method : string) : M unit :=
  match renderer with
  | JRef r =>
      let! o := get_obj r in
      match obj_internal o with
      | IRenderer _ => emit (Call r method [])
      | _ => throw TypeError
      end
  | _ => throw TypeError
  end.

Definition Renderer_resize (renderer : JsValue) : M unit := Renderer_method renderer "resize".
Definition Renderer_dispose (renderer : JsValue) : M unit := Renderer_method renderer "dispose".

(** [promise.then(job)] on the view's [displayed]: the reaction never runs
    within the call; it waits for the resolution, or for the end of the
    running task when the promise is resolved already. *)
Definition displayed_then (self : nat) (j : Job) : M unit :=
  let! v := get_view self in
  if resolved (displayed v) then
    fun s => Ok tt (with_jobs (fun q => q ++ [j]) s)
  else
    put_view self {| view_model := view_model v; view_props := view_props v;
                     classList := classList v;
                     displayed := {| resolved := false;
                                     reactions := reactions (displayed v) ++ [j] |} |}.

Definition SceneView_resize (self : nat) : M unit :=
  let! renderer := view_prop self "renderer" in
  Renderer_resize renderer.

Definition SceneView_initEventListeners (self : nat) : M unit :=
  window_addEventListener "resize" self ;;
  let! model := this_model self in
  on model "change:background_color" (cb_background_color self).

(** The arrow of [render], run when [displayed] is resolved. *)
Definition SceneView_render_displayed (self : nat) : M unit :=
  let! renderer := view_prop self "renderer" in
  Renderer_initialize renderer ;;
  let! renderer := view_prop self "renderer" in
  let! model := this_model self in
  let! background_color := get model "background_color" in
  assign renderer "backgroundColor" background_color ;;
  SceneView_initEventListeners self.

Definition SceneView_render (self : nat) : M unit :=
  classList_add self "odysis-scene" ;;
  let! model := this_model self in
  let! scene := get_prop (JModel model) "scene" in
  let! renderer := new_ Renderer [JElement self; scene] (IRenderer false) in
  set_view_prop self "renderer" renderer ;;
  displayed_then self (job_displayed self).

(** The view's displayed event, the display-readiness signal: the library
    has registered, once, the listener that resolves [this.displayed]; the
    reactions of the promise are then queued. *)
Definition resolve_displayed (view : nat) : M unit :=
  let! v := get_view view in
  if resolved (displayed v) then ret tt
  else
    put_view view {| view_model := view_model v; view_props := view_props v;
                     classList := classList v;
                     displayed := {| resolved := true; reactions := [] |} |} ;;
    emit (Displayed view) ;;
    (fun s => Ok tt (with_jobs (fun q => q ++ reactions (displayed v)) s)).

(** [super.processPhosphorMessage(msg)], of DOMWidgetView in
    @jupyter-widgets/base: on after-attach it triggers the view's displayed
    event; it lets every other message pass. *)
Definition DOMWidgetView_processPhosphorMessage (self : nat) (msg_type : string) : M unit :=
  if decide (msg_type = "after-attach") then resolve_displayed self else ret tt.

Definition SceneView_processPhosphorMessage (self : nat) (msg_type : string) : M unit :=
  DOMWidgetView_processPhosphorMessage self msg_type ;;
  if decide (msg_type = "resize" \/ msg_type = "after-show")
  then SceneView_resize self
  else ret tt.

(** [this.pWidget.dispose()], of the view's Phosphor widget in
    @jupyter-widgets/base: a widget that is disposed of already returns; else
    it is marked so and calls [remove] of its view, which is [view_remove]. *)
Definition pWidget_dispose (self : nat) (view_remove : M unit) : M unit :=
  let! isDisposed := view_prop self "pWidget.isDisposed" in
  match isDisposed with
  | JBool true => ret tt
  | _ => set_view_prop self "pWidget.isDisposed" (JBool true) ;; view_remove
  end.

(** [super.remove()], of DOMWidgetView: it disposes of the view's Phosphor
    widget; what Backbone's [remove] does after it (the element, the
    listeners of [listenTo]) is nothing of this state. *)
Definition DOMWidgetView_remove (self : nat) (view_remove : M unit) : M unit :=
  pWidget_dispose self view_remove.

(** The body of [remove], where [super_remove] is [super.remove()]. *)
Definition SceneView_remove_body (self : nat) (super_remove : M unit) : M unit :=
  let! renderer := view_prop self "renderer" in
  Renderer_dispose renderer ;;
  super_remove.

(** [remove]: the widget's [dispose] enters [remove] a second time, and this
    second [remove] finds the widget disposed of, so that nothing is entered
    a third time. *)
Definition SceneView_remove (self : nat) : M unit :=
  SceneView_remove_body self
    (DOMWidgetView_remove self
       (SceneView_remove_body self
          (DOMWidgetView_remove self (throw RangeError)))).

(** ** Listeners at work *)

Definition run_callback (cb : Callback) (self : nat) : M unit :=
  match cb with
  | cb_array =>
      let! component := this_prop self "component" in
      let! array := get self "array" in
      assign component "array" array
  | cb_default_color =>
      let! block := this_prop self "block" in
      let! defaultColor := BlockModel_defaultColor self in
      assign block "defaultColor" defaultColor
  | cb_default_alpha =>
      let! block := this_prop self "block" in
      let! defaultAlpha := BlockModel_defaultAlpha self in
      assign block "defaultAlpha" defaultAlpha
  | cb_vertices =>
      let! block := this_prop self "block" in
      let! vertices := BlockModel_vertices self in
      assign block "vertices" vertices
  | cb_updateInput => EffectModel_updateInput self
  | cb_IsoColor_min =>
      let! block := this_prop self "block" in
      let! min := IsoColorModel_min self in
      assign block "min" min
  | cb_IsoColor_max =>
      let! block := this_prop self "block" in
      let! max := IsoColorModel_max self in
      assign block "max" max
  | cb_value =>
      let! block := this_prop self "block" in
      let! value := IsoSurfaceModel_value self in
      assign block "value" value
  | cb_Threshold_min =>
      let! block := this_prop self "block" in
      let! min := ThresholdModel_min self in
      assign block "min" min
  | cb_Threshold_max =>
      let! block := this_prop self "block" in
      let! max := ThresholdModel_max self in
      assign block "max" max
  | cb_updateChildren => SceneModel_updateChildren self
  | cb_background_color view =>
      let! renderer := view_prop view "renderer" in
      let! model := this_model view in
      let! background_color := get model "background_color" in
      assign renderer "backgroundColor" background_color
  end.

(** The listeners of [name], in registration order. *)
Definition listeners (name : string) (m : Model) : list Callback :=
  (filter (fun e => e.1 = name) (events m)).*2.

(** Backbone's [trigger]: the listeners registered when it starts, in order;
    an exception of one ends the dispatch. *)
Definition trigger (self : nat) (name : string) : M unit :=
  let! m := get_model self in
  for_of (listeners name m) (fun cb => run_callback cb self).

(** Backbone's [set] of one attribute to a value that differs from the
    current one: the attribute is stored, then change:key is triggered. *)
Definition change (self : nat) (key : string) (v : JsValue) : M unit :=
  let! m := get_model self in
  put_model self {| model_class := model_class m; attributes := <[key := v]> (attributes m);
                    events := events m; props := props m |} ;;
  trigger self ("change:" ++ key).

(** ** The host: construction, signals and the task loop *)

(** The host makes a model of the attributes it received over the class's
    defaults and calls [initialize]. *)
Definition new_model (cls : ModelClass) (attrs : gmap string JsValue) : M nat :=
  let! id := (fun s => Ok (length (models s))
                (with_models (fun ms => ms ++ [{| model_class := cls;
                                                   attributes := attrs ∪ defaults cls;
                                                   events := []; props := ∅ |}]) s)) in
  initialize id ;;
  ret id.

(** The host makes a view of a model and renders it, once. *)
Definition create_view (model : nat) : M nat :=
  let! id := (fun s => Ok (length (views s))
                (with_views (fun vs => vs ++ [{| view_model := model; view_props := ∅;
                                                  classList := [];
                                                  displayed := {| resolved := false;
                                                                  reactions := [] |} |}]) s)) in
  SceneView_render id ;;
  ret id.

(** An exception that reaches the host ends the handler and nothing more. *)
Definition catch (m : M unit) : M unit := fun s => Ok tt (final_state (m s)).

Definition run_job (j : Job) : M unit :=
  match j with
  | job_displayed view => SceneView_render_displayed view
  end.

(** The microtasks queued during a task run when it ends. *)
Definition drain_jobs : M unit :=
  fun s => for_of (jobs s) (fun j => catch (run_job j)) (with_jobs (fun _ => []) s).

Definition window_resize : M unit :=
  fun s => for_of (filter (fun l => l.1 = "resize") (window_listeners s)).*2
             (fun view => catch (SceneView_resize view)) s.

Inductive Action :=
| act_new_model (cls : ModelClass) (attrs : gmap string JsValue)
| act_create_view (model : nat)
| act_displayed (view : nat)
| act_change (model : nat) (key : string) (v : JsValue)
| act_window_resize
| act_message (view : nat) (msg_type : string)
| act_remove (view : nat).

Definition run_action (a : Action) : M unit :=
  match a with
  | act_new_model cls attrs => new_model cls attrs ;; ret tt
  | act_create_view model => create_view model ;; ret tt
  | act_displayed view => resolve_displayed view
  | act_change model key v => change model key v
  | act_window_resize => window_resize
  | act_message view msg_type => SceneView_processPhosphorMessage view msg_type
  | act_remove view => SceneView_remove view
  end.

Definition task (a : Action) (s : State) : State :=
  final_state ((catch (run_action a) ;; drain_jobs) s).

Definition run (acts : list Action) (s : State) : State :=
  foldl (fun s a => task a s) s acts.

End Widget.

Definition initial_state : State :=
  {| models := []; views := []; heap := []; window_listeners := []; jobs := []; log := [] |}.

(** * Facts *)

(** ** The order of JS numbers and [Math.max] *)

Module JsNumberFacts.
Import JsNumber.

Lemma SFcompare_refl a : a <> S754_nan -> SFcompare a a = Some Eq.
Proof.
  destruct a as [s|s| |s m e]; intros H; try congruence; simpl.
  - reflexivity.
  - destruct s; reflexivity.
  - rewrite Z.compare_refl, Pos.compare_cont_refl. destruct s; reflexivity.
Qed.

Ltac cmp_cases :=
  repeat match goal with
  | |- context [Z.compare ?a ?b] => destruct (Z.compare_spec a b)
  | H : context [Z.compare ?a ?b] |- _ => destruct (Z.compare_spec a b)
  | |- context [Pos.compare_cont Eq ?a ?b] =>
      change (Pos.compare_cont Eq a b) with (Pos.compare a b);
      destruct (Pos.compare_spec a b)
  | H : context [Pos.compare_cont Eq ?a ?b] |- _ =>
      change (Pos.compare_cont Eq a b) with (Pos.compare a b) in H;
      destruct (Pos.compare_spec a b)
  end.

Ltac sf_cases :=
  simpl; try discriminate; try reflexivity; try congruence;
  repeat match goal with s : bool |- _ => destruct s end;
  simpl; try discriminate; try reflexivity;
  cmp_cases; simpl; subst; try discriminate; try reflexivity; try lia.

Lemma SFleb_trans a b c : SFleb a b = true -> SFleb b c = true -> SFleb a c = true.
Proof.
  unfold SFleb.
  destruct a as [sa|sa| |sa ma ea], b as [sb|sb| |sb mb eb], c as [sc|sc| |sc mc ec];
    sf_cases.
Qed.

Lemma SFleb_total a b :
  a <> S754_nan -> b <> S754_nan -> SFltb a b = false -> SFleb b a = true.
Proof.
  unfold SFleb, SFltb.
  destruct a as [sa|sa| |sa ma ea], b as [sb|sb| |sb mb eb]; intros Ha Hb; sf_cases.
Qed.

Lemma SFltb_leb a b : SFltb a b = true -> SFleb a b = true.
Proof. unfold SFltb, SFleb. destruct (SFcompare a b) as [[]|]; congruence. Qed.

Lemma not_nan_spec x : not_nan x <-> Prim2SF x <> S754_nan.
Proof.
  unfold not_nan, is_nan. rewrite FloatAxioms.eqb_spec. unfold SFeqb. split.
  - intros H E. rewrite E in H. discriminate.
  - intros H. rewrite (SFcompare_refl _ H). reflexivity.
Qed.

Lemma fle_refl x : not_nan x -> fle x x.
Proof.
  intros H%not_nan_spec. unfold fle. rewrite leb_spec. unfold SFleb.
  rewrite (SFcompare_refl _ H). reflexivity.
Qed.

Lemma fle_trans x y z : fle x y -> fle y z -> fle x z.
Proof. unfold fle. rewrite !leb_spec. apply SFleb_trans. Qed.

Lemma ltb_fle x y : (x <? y)%float = true -> fle x y.
Proof. unfold fle. rewrite ltb_spec, leb_spec. apply SFltb_leb. Qed.

Lemma not_ltb_fle x y : not_nan x -> not_nan y -> (x <? y)%float = false -> fle y x.
Proof.
  intros Hx%not_nan_spec Hy%not_nan_spec. unfold fle.
  rewrite ltb_spec, leb_spec. now apply SFleb_total.
Qed.

Lemma classify_zeros x y :
  is_pos_zero x = true -> is_neg_zero y = true -> fle y x /\ not_nan y.
Proof.
  unfold is_pos_zero, is_neg_zero, fle, not_nan, is_nan.
  rewrite !classify_spec, leb_spec, FloatAxioms.eqb_spec. unfold SF64classify, SFclassify.
  destruct (Prim2SF x) as [[]|[]| |[] ? ?], (Prim2SF y) as [[]|[]| |[] ? ?];
    try discriminate; repeat case_match; try discriminate; intros _ _; split; reflexivity.
Qed.

(** Without a NaN among the arguments the result of the loop is one of
    [highest] and the arguments, and is above all of them. *)
Lemma max_from_spec values : forall highest,
  not_nan highest -> Forall not_nan values ->
  let r := max_from highest values in
  r ∈ highest :: values /\ not_nan r /\ fle highest r /\ Forall (fun x => fle x r) values.
Proof.
  induction values as [|x xs IH]; intros h Hh Hxs; simpl.
  - repeat split; [left | assumption | now apply fle_refl | constructor].
  - apply Forall_cons in Hxs as [Hx Hxs]. rewrite Hx.
    destruct (is_pos_zero x && is_neg_zero h) eqn:Hz.
    + apply andb_prop in Hz as [Hz1 Hz2]. destruct (classify_zeros _ _ Hz1 Hz2) as [Hle _].
      destruct (IH x Hx Hxs) as (Hin & Hn & Hge & Hall).
      repeat split; [now right | assumption | now apply fle_trans with x |].
      constructor; assumption.
    + destruct (h <? x)%float eqn:Hlt.
      * destruct (IH x Hx Hxs) as (Hin & Hn & Hge & Hall).
        repeat split; [now right | assumption | |].
        -- apply fle_trans with x; [now apply ltb_fle | assumption].
        -- constructor; assumption.
      * destruct (IH h Hh Hxs) as (Hin & Hn & Hge & Hall).
        repeat split; [| assumption | assumption |].
        -- apply elem_of_cons in Hin as [->|Hin]; [left | right; now right].
        -- constructor; [| assumption].
           apply fle_trans with h; [now apply not_ltb_fle | assumption].
Qed.

Lemma fle_neg_infinity x : fle x neg_infinity -> x = neg_infinity.
Proof.
  unfold fle. rewrite leb_spec. intros H. apply Prim2SF_inj.
  change (Prim2SF neg_infinity) with (S754_infinity true) in *.
  unfold SFleb in H. destruct (Prim2SF x) as [[]|[]| |[] ? ?]; simpl in H;
    try discriminate; reflexivity.
Qed.

(** [Math.max] of a non-empty list without NaN is its greatest element. *)
Lemma Math_max_greatest values :
  values <> [] -> Forall not_nan values ->
  Math_max values ∈ values /\ Forall (fun x => fle x (Math_max values)) values.
Proof.
  intros Hne Hnn. unfold Math_max.
  destruct (max_from_spec values neg_infinity eq_refl Hnn) as (Hin & _ & _ & Hall).
  split; [| exact Hall].
  apply elem_of_cons in Hin as [Heq|Hin]; [| exact Hin].
  destruct values as [|x xs]; [congruence |].
  apply Forall_cons in Hall as [Hx _]. rewrite Heq in Hx.
  apply fle_neg_infinity in Hx. rewrite Heq, <- Hx. left.
Qed.

(** A NaN argument makes the result NaN. *)
Lemma Math_max_nan values :
  Exists (fun x => is_nan x = true) values -> is_nan (Math_max values) = true.
Proof.
  unfold Math_max. generalize neg_infinity.
  induction values as [|x xs IH]; intros h H; [inversion H |].
  simpl. destruct (is_nan x) eqn:Hx; [reflexivity |].
  apply Exists_cons in H as [H|H]; [congruence |].
  repeat case_match; now apply IH.
Qed.

End JsNumberFacts.

(** ** Running the code on a symbolic state *)

Ltac in_list := repeat first [apply list_elem_of_here | apply list_elem_of_further].

Lemma lookup_insert_Some {A} (l : list A) i x y :
  l !! i = Some x -> <[i:=y]> l !! i = Some y.
Proof. intros Hl. apply list_lookup_insert_eq. eapply lookup_lt_Some; eauto. Qed.

Ltac js_red :=
  cbv beta iota zeta delta
    [bind ret throw emit get_model put_model get_view put_view get_obj put_obj get_heap
     final_state];
  cbn [models views heap window_listeners jobs log
       with_models with_views with_heap with_window_listeners with_jobs with_log
       model_class attributes events props
       view_model view_props classList displayed resolved reactions
       obj_class obj_args obj_fields obj_internal with_field with_internal].

(** Code that only reads: whatever it returns, the state is the one it got. *)
Definition reads {A} (m : M A) : Prop := forall s, final_state (m s) = s.

Create HintDb reads.

Lemma reads_ret {A} (a : A) : reads (ret a).
Proof. intros s. reflexivity. Qed.

Lemma reads_throw {A} e : reads (@throw A e).
Proof. intros s. reflexivity. Qed.

Lemma reads_bind {A B} (m : M A) (k : A -> M B) :
  reads m -> (forall a, reads (k a)) -> reads (bind m k).
Proof.
  intros Hm Hk s. unfold bind. specialize (Hm s).
  destruct (m s) as [a s1|e s1]; simpl in Hm; subst; [apply Hk | reflexivity].
Qed.

Lemma reads_get_model self : reads (get_model self).
Proof. intros s. unfold get_model. destruct (models s !! self); reflexivity. Qed.

Lemma reads_get_view self : reads (get_view self).
Proof. intros s. unfold get_view. destruct (views s !! self); reflexivity. Qed.

Lemma reads_get_obj r : reads (get_obj r).
Proof. intros s. unfold get_obj. destruct (heap s !! r); reflexivity. Qed.

Lemma reads_get_heap : reads get_heap.
Proof. intros s. reflexivity. Qed.

Lemma reads_mapM {A B} (f : A -> M B) xs : (forall x, reads (f x)) -> reads (mapM f xs).
Proof.
  intros Hf. induction xs as [|x xs IH]; simpl; [apply reads_ret |].
  apply reads_bind; [apply Hf | intros y].
  apply reads_bind; [apply IH | intros ys; apply reads_ret].
Qed.

#[local] Hint Resolve reads_ret reads_throw reads_get_model reads_get_view reads_get_obj
  reads_get_heap : reads.
#[local] Hint Extern 2 (reads (bind _ _)) => apply reads_bind; [| intros ?] : reads.
#[local] Hint Extern 2 (reads (mapM _ _)) => apply reads_mapM; intros ? : reads.
#[local] Hint Extern 3 (reads (match ?x with _ => _ end)) => destruct x : reads.

Lemma reads_get self key : reads (get self key).
Proof. unfold get. eauto with reads. Qed.

Lemma reads_this_prop self name : reads (this_prop self name).
Proof. unfold this_prop. eauto with reads. Qed.

Lemma reads_this_class self : reads (this_class self).
Proof. unfold this_class. eauto with reads. Qed.

#[local] Hint Resolve reads_get reads_this_prop reads_this_class : reads.

Lemma reads_array_map reader name xs :
  (forall x n, reads (reader x n)) -> reads (array_map reader name xs).
Proof. intros Hr. unfold array_map. destruct xs; eauto with reads. Qed.

Lemma reads_read_prop run x name :
  (forall a id, reads (run a id)) -> reads (read_prop run x name).
Proof.
  intros Hrun. unfold read_prop. destruct x; eauto with reads.
Qed.

Lemma reads_getter reader a self :
  (forall x n, reads (reader x n)) -> reads (getter reader a self).
Proof.
  intros Hr.
  destruct a; cbn [getter];
    unfold BlockModel_vertices, BlockModel_data_from, BlockModel_environmentMeshes_from,
      BlockModel_defaultColor, BlockModel_defaultAlpha, PolyMeshModel_triangleIndices,
      TetraMeshModel_tetrahedronIndices, EffectModel_parent, IsoColorModel_min,
      IsoColorModel_max, IsoColorModel_input, IsoSurfaceModel_value, IsoSurfaceModel_input,
      ThresholdModel_min, ThresholdModel_max, ThresholdModel_input;
    try apply reads_get;
    (apply reads_bind; [apply reads_get | intros v]);
    first [by apply reads_array_map | apply reads_ret].
Qed.

Lemma reads_run_getter depth : forall a self, reads (run_getter depth a self).
Proof.
  induction depth as [|depth IH]; intros a self; cbn [run_getter]; [apply reads_throw |].
  apply reads_getter. intros x n. by apply reads_read_prop.
Qed.

Lemma reads_get_prop `{Env} x name : reads (get_prop x name).
Proof. apply reads_read_prop, reads_run_getter. Qed.

#[local] Hint Resolve reads_get_prop : reads.
#[local] Hint Extern 2 (reads (array_map _ _ _)) =>
  apply reads_array_map; intros ? ? : reads.

Lemma reads_boundingSphereRadii blocks : reads (boundingSphereRadii blocks).
Proof.
  unfold boundingSphereRadii. destruct blocks; try apply reads_ret; try apply reads_throw.
  apply reads_mapM. intros x. unfold read_boundingSphereRadius. eauto 10 with reads.
Qed.

#[local] Hint Resolve reads_boundingSphereRadii : reads.

(** A field that is no accessor of any class is read from the model. *)
Definition plain_field (name : string) : Prop := forall cls, accessor cls name = None.

Lemma plain_block : plain_field "block".
Proof. intros cls. by destruct cls. Qed.

Lemma plain_component : plain_field "component".
Proof. intros cls. by destruct cls. Qed.

Lemma plain_scene : plain_field "scene".
Proof. intros cls. by destruct cls. Qed.

Lemma plain_obj : plain_field "obj".
Proof. intros cls. by destruct cls. Qed.

Lemma array_map_Ok reader name l ys s s1 :
  mapM (fun x => reader x name) l s = Ok ys s1 ->
  array_map reader name (JArr l) s = Ok (JArr ys) s1.
Proof. intros Hl. cbn [array_map]. unfold bind. by rewrite Hl. Qed.

Lemma get_prop_field `{Env} s id m name :
  models s !! id = Some m -> accessor (model_class m) name = None ->
  get_prop (JModel id) name s = Ok (default JUndefined (props m !! name)) s.
Proof.
  intros Hm Hacc. unfold get_prop, read_prop, bind, get_model. by rewrite Hm, Hacc.
Qed.

Lemma reads_read_inputDimension b : reads (read_inputDimension b).
Proof. unfold read_inputDimension. eauto 10 with reads. Qed.

Lemma reads_read_boundingSphereRadius b : reads (read_boundingSphereRadius b).
Proof. unfold read_boundingSphereRadius. eauto 10 with reads. Qed.

#[local] Hint Resolve reads_read_inputDimension reads_read_boundingSphereRadius : reads.

(** A read that returns leaves the state, and the rest runs from it. *)
Lemma bind_reads_inv {A B} (m : M A) (k : A -> M B) s b s1 :
  reads m -> bind m k s = Ok b s1 -> exists a, m s = Ok a s /\ k a s = Ok b s1.
Proof.
  intros Hm. unfold bind. specialize (Hm s).
  destruct (m s) as [a s'|e s']; simpl in Hm; subst; [eauto | discriminate].
Qed.

Lemma bind_Ok {A B} (m : M A) (k : A -> M B) s a s1 :
  m s = Ok a s1 -> bind m k s = k a s1.
Proof. intros Hm. unfold bind. by rewrite Hm. Qed.

Lemma bind_bind {A B C} (m : M A) (k : A -> M B) (k' : B -> M C) s :
  bind (bind m k) k' s = bind m (fun x => bind (k x) k') s.
Proof. unfold bind. by destruct (m s). Qed.

Lemma get_Ok s self m key :
  models s !! self = Some m ->
  get self key s = Ok (default JUndefined (attributes m !! key)) s.
Proof. intros Hm. unfold get. js_red. by rewrite Hm. Qed.

Lemma this_prop_Ok s self m name :
  models s !! self = Some m ->
  this_prop self name s = Ok (default JUndefined (props m !! name)) s.
Proof. intros Hm. unfold this_prop. js_red. by rewrite Hm. Qed.

Lemma this_class_Ok s self m :
  models s !! self = Some m -> this_class self s = Ok (model_class m) s.
Proof. intros Hm. unfold this_class. js_red. by rewrite Hm. Qed.

(** ** Deserialization of the binary attributes *)

Section Deserialization.
Context `{Env}.

Lemma new_TypedArray_whole_buffer t bufs buffer bytes :
  bufs !! buffer = Some bytes -> length bytes mod 4 = 0 ->
  Buffers.new_TypedArray t bufs buffer =
    inr {| ta_type := t; ta_buffer := buffer; ta_byteOffset := 0;
           ta_length := length bytes / 4 |}.
Proof.
  intros Hb Hlen. unfold Buffers.new_TypedArray. rewrite Hb.
  destruct (decide (length bytes mod 4 = 0)); [reflexivity | contradiction].
Qed.

(** The view holds no bytes of its own: a byte written into the buffer
    afterwards is the byte that the view reads. *)
Lemma view_sees_later_write t bufs buffer bytes k b :
  bufs !! buffer = Some bytes -> length bytes mod 4 = 0 -> k < length bytes ->
  Buffers.element_bytes (Buffers.store_byte bufs buffer k b)
    {| ta_type := t; ta_buffer := buffer; ta_byteOffset := 0;
       ta_length := length bytes / 4 |} (k / 4)
  ≫= (fun bs => bs !! (k mod 4)) = Some b.
Proof.
  intros Hb Hlen Hk. unfold Buffers.element_bytes, Buffers.store_byte. cbn [ta_length ta_buffer ta_byteOffset].
  rewrite Hb.
  assert (Hdiv : k / 4 < length bytes / 4).
  { pose proof (Nat.div_mod_eq (length bytes) 4). pose proof (Nat.div_mod_eq k 4).
    pose proof (Nat.mod_upper_bound k 4). lia. }
  destruct (decide (k / 4 < length bytes / 4)); [| contradiction].
  rewrite (lookup_insert_Some _ _ _ _ Hb). cbn [mbind option_bind].
  pose proof (Nat.mod_upper_bound k 4 ltac:(lia)) as Hmod.
  rewrite lookup_take_lt by exact Hmod. rewrite lookup_drop.
  replace (0 + 4 * (k / 4) + k mod 4) with k by (pose proof (Nat.div_mod_eq k 4); lia).
  by apply list_lookup_insert_eq.
Qed.

(** Whatever window the DataView has on its buffer, the typed array is on the
    whole buffer: [byteOffset] and [byteLength] of [data.data] are not read. *)
Lemma deserialize_ignores_window bufs buffer off1 len1 off2 len2 manager :
  deserialize_float32array bufs
    {| Buffers.data := {| dv_buffer := buffer; dv_byteOffset := off1; dv_byteLength := len1 |} |}
    manager =
  deserialize_float32array bufs
    {| Buffers.data := {| dv_buffer := buffer; dv_byteOffset := off2; dv_byteLength := len2 |} |}
    manager.
Proof. reflexivity. Qed.

(** A buffer whose length is no multiple of four cannot be viewed. *)
Lemma deserialize_odd_length bufs data manager bytes :
  bufs !! dv_buffer (Buffers.data data) = Some bytes -> length bytes mod 4 <> 0 ->
  deserialize_float32array bufs data manager = inl RangeError /\
  deserialize_uint32array bufs data manager = inl RangeError.
Proof.
  intros Hb Hlen. unfold deserialize_float32array, deserialize_uint32array,
    Buffers.new_TypedArray. rewrite Hb.
  destruct (decide (length bytes mod 4 = 0)); [contradiction | done].
Qed.

Ltac table_lookup :=
  unfold serializers, TetraMeshModel_serializers, PolyMeshModel_serializers,
    EffectModel_serializers, BlockModel_serializers, ComponentModel_serializers,
    DataModel_serializers, SceneModel_serializers, spread;
  cbn [foldl fst snd];
  repeat (rewrite lookup_insert_ne by done);
  first [apply lookup_insert_eq | reflexivity].

(** The attributes that the tables deserialize as numeric arrays. *)
Definition numeric_attributes : list (ModelClass * string * Deserializer) :=
  [ (ComponentModel, "array", Deserialize_float32array);
    (PolyMeshModel, "vertices", Deserialize_float32array);
    (PolyMeshModel, "triangle_indices", Deserialize_uint32array);
    (TetraMeshModel, "vertices", Deserialize_float32array);
    (TetraMeshModel, "triangle_indices", Deserialize_uint32array);
    (TetraMeshModel, "tetrahedron_indices", Deserialize_uint32array);
    (IsoColorModel, "vertices", Deserialize_float32array);
    (IsoSurfaceModel, "vertices", Deserialize_float32array);
    (ThresholdModel, "vertices", Deserialize_float32array) ].

Lemma numeric_attributes_serializers :
  Forall (fun e => serializers e.1.1 !! e.1.2 = Some e.2) numeric_attributes.
Proof. repeat constructor; cbn [fst snd]; table_lookup. Qed.

Definition element_type (d : Deserializer) : option ElementType :=
  match d with
  | Deserialize_float32array => Some Float32
  | Deserialize_uint32array => Some Uint32
  | Unpack_models => None
  end.

(** C6. A received buffer of a whole number of four-byte elements is
    deserialized, for the vertex and field arrays as a Float32Array and for
    the triangle and tetrahedron index arrays as a Uint32Array, into a view
    on [data.data.buffer] itself, from its first byte to its last: no buffer is
    made, and a byte written into the received buffer afterwards is read
    through the view. *)
Theorem deserialize_is_view_on_received_buffer
    (bufs : Buffers.Store) (data : Buffers.ArrayMessage) (manager : JsValue)
    (bytes : list Byte.byte) :
  bufs !! dv_buffer (Buffers.data data) = Some bytes ->
  length bytes mod 4 = 0 ->
  let view t := {| ta_type := t; ta_buffer := dv_buffer (Buffers.data data);
                   ta_byteOffset := 0; ta_length := length bytes / 4 |} in
  deserialize_float32array bufs data manager = inr (view Float32) /\
  deserialize_uint32array bufs data manager = inr (view Uint32) /\
  (forall cls key d, (cls, key, d) ∈ numeric_attributes ->
     exists t, element_type d = Some t /\
       serializers cls !! key = Some d /\
       run_deserializer d bufs data manager = Some (inr (view t))) /\
  (forall t k b, k < length bytes ->
     Buffers.element_bytes (Buffers.store_byte bufs (dv_buffer (Buffers.data data)) k b)
       (view t) (k / 4) ≫= (fun bs => bs !! (k mod 4)) = Some b).
Proof.
  intros Hb Hlen view.
  assert (Hf : deserialize_float32array bufs data manager = inr (view Float32))
    by (by apply new_TypedArray_whole_buffer).
  assert (Hu : deserialize_uint32array bufs data manager = inr (view Uint32))
    by (by apply new_TypedArray_whole_buffer).
  split; [exact Hf |]. split; [exact Hu |]. split.
  - intros cls key d Hin.
    pose proof numeric_attributes_serializers as Htab.
    rewrite Forall_forall in Htab. specialize (Htab _ Hin). cbn [fst snd] in Htab.
    destruct d; cbn [element_type run_deserializer].
    + exists Float32. by rewrite Hf.
    + exists Uint32. by rewrite Hu.
    + exfalso. unfold numeric_attributes in Hin.
      repeat (apply elem_of_cons in Hin as [Hin|Hin]; [discriminate |]).
      by apply elem_of_nil in Hin.
  - intros t k b Hk. by apply view_sees_later_write.
Qed.

End Deserialization.

(** ** The block models *)

Section Models.
Context `{Env}.

Lemma reads_this_input self : reads (this_input self).
Proof.
  unfold this_input, IsoColorModel_input, IsoSurfaceModel_input, ThresholdModel_input,
    EffectModel_input. eauto 10 with reads.
Qed.

Lemma reads_BlockModel_data self : reads (BlockModel_data self).
Proof. unfold BlockModel_data, BlockModel_data_from. eauto 10 with reads. Qed.

Lemma reads_BlockModel_environmentMeshes self : reads (BlockModel_environmentMeshes self).
Proof.
  unfold BlockModel_environmentMeshes, BlockModel_environmentMeshes_from.
  eauto 10 with reads.
Qed.

(** The state after [new C(args)]. *)
Definition constructed (c : CoreClass) (args : list JsValue) (i : Internal) (s : State)
  : State :=
  with_log (fun l => l ++ [New c args (length (heap s))])
    (with_heap (fun h => h ++ [{| obj_class := c; obj_args := args; obj_fields := ∅;
                                  obj_internal := i |}]) s).

Definition block_internal (c : CoreClass) (args : list JsValue) (s : State) : Internal :=
  IBlock (core_inputDimension c args (heap s)) (core_boundingSphereRadius c args (heap s)).

Lemma new_block_eq c args s :
  new_block c args s = Ok (JRef (length (heap s))) (constructed c args (block_internal c args s) s).
Proof. reflexivity. Qed.

(** The value of an attribute, as [this.get] answers. *)
Definition attr (m : Model) (key : string) : JsValue :=
  default JUndefined (attributes m !! key).

(** The selector in words: a string as it is, anything else wrapped in a
    one-element array. *)
Definition forwarded_selector (v : JsValue) : JsValue :=
  match v with
  | JStr _ => v
  | _ => JArr [v]
  end.

Lemma input_getter_value (v : JsValue) :
  (if decide (typeof v = "string") then v else JArr [v]) = forwarded_selector v.
Proof. destruct v; reflexivity. Qed.

Definition effect_classes : list (ModelClass * CoreClass) :=
  [(IsoColorModel, IsoColor); (IsoSurfaceModel, IsoSurface); (ThresholdModel, Threshold)].

Lemma effect_classes_inv cls c :
  (cls, c) ∈ effect_classes ->
  (cls = IsoColorModel /\ c = IsoColor) \/ (cls = IsoSurfaceModel /\ c = IsoSurface) \/
  (cls = ThresholdModel /\ c = Threshold).
Proof.
  unfold effect_classes. rewrite !elem_of_cons, elem_of_nil.
  intros [E|[E|[E|[]]]]; injection E as -> ->; auto.
Qed.

Lemma this_input_Ok s self m c :
  models s !! self = Some m -> (model_class m, c) ∈ effect_classes ->
  this_input self s = Ok (forwarded_selector (attr m "input")) s.
Proof.
  intros Hm Hc. unfold this_input. rewrite (bind_Ok _ _ _ _ _ (this_class_Ok _ _ _ Hm)).
  apply effect_classes_inv in Hc as [[-> _]|[[-> _]|[-> _]]];
    unfold IsoColorModel_input, IsoSurfaceModel_input, ThresholdModel_input;
    rewrite (bind_Ok _ _ _ _ _ (get_Ok _ _ _ "input" Hm));
    unfold ret, attr; by rewrite input_getter_value.
Qed.

Ltac peel_get Hm :=
  match goal with
  | |- context [bind (get ?self ?key) ?k ?s] =>
      rewrite (bind_Ok (get self key) k s _ _ (get_Ok s self _ key Hm))
  | H : context [bind (get ?self ?key) ?k ?s] |- _ =>
      rewrite (bind_Ok (get self key) k s _ _ (get_Ok s self _ key Hm)) in H
  end.

(** C7. A TetraMesh is constructed exactly when the [data] and
    [environment_meshes] getters return, and then with the [triangle_indices]
    attribute as its second argument and the [tetrahedron_indices] attribute
    as its third, each as the model holds it: the surface triangles are
    an argument of the constructor, next to the tetrahedra. *)
Theorem TetraMesh_constructed_from_both_index_attributes
    (s : State) (self : nat) (m : Model) (b : JsValue) (s1 : State) :
  models s !! self = Some m ->
  model_class m = TetraMeshModel ->
  createBlock self s = Ok b s1 <->
  exists data environmentMeshes,
    BlockModel_data self s = Ok data s /\
    BlockModel_environmentMeshes self s = Ok environmentMeshes s /\
    let args := [attr m "vertices"; attr m "triangle_indices"; attr m "tetrahedron_indices";
                 data; JObj [("environmentMeshes", environmentMeshes)]] in
    b = JRef (length (heap s)) /\
    s1 = constructed TetraMesh args (block_internal TetraMesh args s) s.
Proof.
  intros Hm Hc. unfold createBlock.
  rewrite (bind_Ok _ _ _ _ _ (this_class_Ok _ _ _ Hm)), Hc.
  unfold TetraMeshModel_createBlock, BlockModel_vertices, PolyMeshModel_triangleIndices,
    TetraMeshModel_tetrahedronIndices.
  do 3 peel_get Hm. fold (attr m "vertices") (attr m "triangle_indices")
    (attr m "tetrahedron_indices").
  split.
  - intros Hrun.
    apply bind_reads_inv in Hrun as (data & Hd & Hrun); [| apply reads_BlockModel_data].
    apply bind_reads_inv in Hrun as (env & He & Hrun);
      [| apply reads_BlockModel_environmentMeshes].
    rewrite new_block_eq in Hrun. injection Hrun as <- <-.
    exists data, env. auto.
  - intros (data & env & Hd & He & -> & ->).
    rewrite (bind_Ok _ _ _ _ _ Hd), (bind_Ok _ _ _ _ _ He). apply new_block_eq.
Qed.

(** *** The listeners of a class *)

(** What [initialize] registers on a model of each class, in order. *)
Definition registered (cls : ModelClass) : list (string * Callback) :=
  match cls with
  | ComponentModel => [("change:array", cb_array)]
  | DataModel => []
  | PolyMeshModel | TetraMeshModel =>
      [("change:default_color", cb_default_color);
       ("change:default_alpha", cb_default_alpha);
       ("change:vertices", cb_vertices)]
  | IsoColorModel =>
      [("change:default_color", cb_default_color);
       ("change:default_alpha", cb_default_alpha);
       ("change:input", cb_updateInput);
       ("change:min", cb_IsoColor_min);
       ("change:max", cb_IsoColor_max)]
  | IsoSurfaceModel =>
      [("change:default_color", cb_default_color);
       ("change:default_alpha", cb_default_alpha);
       ("change:input", cb_updateInput);
       ("change:value", cb_value)]
  | ThresholdModel =>
      [("change:default_color", cb_default_color);
       ("change:default_alpha", cb_default_alpha);
       ("change:input", cb_updateInput);
       ("change:min", cb_Threshold_min);
       ("change:max", cb_Threshold_max)]
  | SceneModel => [("change:children", cb_updateChildren)]
  end.

Definition block_classes : list (ModelClass * CoreClass) :=
  [(PolyMeshModel, PolyMesh); (TetraMeshModel, TetraMesh);
   (IsoColorModel, IsoColor); (IsoSurfaceModel, IsoSurface); (ThresholdModel, Threshold)].

Definition add_events (l : list (string * Callback)) (m : Model) : Model :=
  {| model_class := model_class m; attributes := attributes m;
     events := events m ++ l; props := props m |}.

Definition set_attribute (key : string) (v : JsValue) (m : Model) : Model :=
  {| model_class := model_class m; attributes := <[key := v]> (attributes m);
     events := events m; props := props m |}.

Definition set_property (name : string) (v : JsValue) (m : Model) : Model :=
  {| model_class := model_class m; attributes := attributes m;
     events := events m; props := <[name := v]> (props m) |}.

(** The state after [self.on(...)] for each entry of [l]. *)
Definition listening (self : nat) (l : list (string * Callback)) (m : Model) (s : State)
  : State :=
  with_log (fun lg => lg ++ map (fun e => Listen self e.1 e.2) l)
    (with_models (fun ms => <[self := add_events l m]> ms) s).

Lemma state_eq s1 s2 :
  models s1 = models s2 -> views s1 = views s2 -> heap s1 = heap s2 ->
  window_listeners s1 = window_listeners s2 -> jobs s1 = jobs s2 -> log s1 = log s2 ->
  s1 = s2.
Proof. destruct s1, s2; simpl; intros; subst; reflexivity. Qed.

Ltac state_eq :=
  apply state_eq; js_red;
  rewrite ?list_insert_insert_eq, <- ?app_assoc; try reflexivity.

Lemma on_Ok s self m name cb :
  models s !! self = Some m ->
  on self name cb s = Ok tt (listening self [(name, cb)] m s).
Proof. intros Hm. unfold on. js_red. rewrite Hm. reflexivity. Qed.

Lemma on_listening s self m l name cb :
  models s !! self = Some m ->
  on self name cb (listening self l m s) = Ok tt (listening self (l ++ [(name, cb)]) m s).
Proof.
  intros Hm. unfold on, listening. js_red. rewrite (lookup_insert_Some _ _ _ _ Hm).
  f_equal. state_eq.
  - unfold add_events. cbn [events model_class attributes props].
    by rewrite <- app_assoc.
  - by rewrite map_app.
Qed.

Lemma initEventListeners_Ok s self m c :
  models s !! self = Some m -> (model_class m, c) ∈ block_classes ->
  initEventListeners self s = Ok tt (listening self (registered (model_class m)) m s).
Proof.
  intros Hm Hc. unfold initEventListeners.
  rewrite (bind_Ok _ _ _ _ _ (this_class_Ok _ _ _ Hm)).
  unfold block_classes in Hc. rewrite !elem_of_cons, elem_of_nil in Hc.
  destruct Hc as [E|[E|[E|[E|[E|[]]]]]]; injection E as -> ->;
    unfold PolyMeshModel_initEventListeners, IsoColorModel_initEventListeners,
      IsoSurfaceModel_initEventListeners, ThresholdModel_initEventListeners,
      EffectModel_initEventListeners, BlockModel_initEventListeners;
    repeat (rewrite ?bind_bind;
            first [ rewrite (bind_Ok _ _ _ _ _ (on_Ok _ _ _ _ _ Hm))
                  | rewrite (bind_Ok _ _ _ _ _ (on_listening _ _ _ _ _ _ Hm))
                  | rewrite (on_listening _ _ _ _ _ _ Hm) ]; cbn [app]);
    reflexivity.
Qed.

(** *** A change of an attribute *)

Lemma change_eq s self m key v :
  models s !! self = Some m ->
  change self key v s =
  for_of (listeners ("change:" ++ key) m) (fun cb => run_callback cb self)
    (with_models (fun ms => <[self := set_attribute key v m]> ms) s).
Proof.
  intros Hm. unfold change, trigger. js_red. rewrite Hm.
  rewrite (lookup_insert_Some _ _ _ _ Hm). reflexivity.
Qed.

Lemma for_of_one {A} (x : A) body s : for_of [x] body s = body x s.
Proof. cbn [for_of]. unfold bind, ret. by destruct (body x s) as [[] ?|]. Qed.

Lemma assign_Ok s r o field v :
  heap s !! r = Some o ->
  assign (JRef r) field v s =
  Ok tt (with_log (fun l => l ++ [Assign r field v])
           (with_heap (fun h => <[r := with_field field v o]> h) s)).
Proof. intros Ho. unfold assign. js_red. by rewrite Ho. Qed.

(** The state in which [self] holds [v] for [key], its listeners not yet run. *)
Definition stored (self : nat) (key : string) (v : JsValue) (m : Model) (s : State) : State :=
  with_models (fun ms => <[self := set_attribute key v m]> ms) s.

Lemma stored_lookup s self m key v :
  models s !! self = Some m ->
  models (stored self key v m s) !! self = Some (set_attribute key v m).
Proof. intros Hm. unfold stored. js_red. by apply (lookup_insert_Some _ _ m). Qed.

(** A listener that assigns the attribute [key] to the field [field] of the
    core object that the model holds as [owner]. *)
Lemma commit_Ok s self m r o owner key field v :
  models s !! self = Some m -> props m !! owner = Some (JRef r) -> heap s !! r = Some o ->
  (let! block := this_prop self owner in
   let! x := get self key in
   assign block field x) (stored self key v m s) =
  Ok tt (with_log (fun l => l ++ [Assign r field v])
           (with_heap (fun h => <[r := with_field field v o]> h) (stored self key v m s))).
Proof.
  intros Hm Hb Ho.
  rewrite (bind_Ok _ _ _ _ _ (this_prop_Ok _ _ _ _ (stored_lookup _ _ _ key v Hm))).
  cbn [props set_attribute]. rewrite Hb. cbn [default from_option Datatypes.id].
  rewrite (bind_Ok _ _ _ _ _ (get_Ok _ _ _ _ (stored_lookup _ _ _ key v Hm))).
  cbn [attributes set_attribute]. rewrite lookup_insert_eq. cbn [default from_option Datatypes.id].
  by apply assign_Ok.
Qed.

(** The attributes that a listener assigns to a field of the block. *)
Definition committed : list (ModelClass * string * string) :=
  [ (PolyMeshModel, "default_color", "defaultColor");
    (PolyMeshModel, "default_alpha", "defaultAlpha");
    (PolyMeshModel, "vertices", "vertices");
    (TetraMeshModel, "default_color", "defaultColor");
    (TetraMeshModel, "default_alpha", "defaultAlpha");
    (TetraMeshModel, "vertices", "vertices");
    (IsoColorModel, "default_color", "defaultColor");
    (IsoColorModel, "default_alpha", "defaultAlpha");
    (IsoColorModel, "min", "min");
    (IsoColorModel, "max", "max");
    (IsoSurfaceModel, "default_color", "defaultColor");
    (IsoSurfaceModel, "default_alpha", "defaultAlpha");
    (IsoSurfaceModel, "value", "value");
    (ThresholdModel, "default_color", "defaultColor");
    (ThresholdModel, "default_alpha", "defaultAlpha");
    (ThresholdModel, "min", "min");
    (ThresholdModel, "max", "max") ].

Lemma change_commits s self m r o key field v :
  models s !! self = Some m ->
  events m = registered (model_class m) ->
  (model_class m, key, field) ∈ committed ->
  props m !! "block" = Some (JRef r) ->
  heap s !! r = Some o ->
  change self key v s =
  Ok tt (with_log (fun l => l ++ [Assign r field v])
           (with_heap (fun h => <[r := with_field field v o]> h) (stored self key v m s))).
Proof.
  intros Hm Hev Hin Hb Ho. rewrite (change_eq _ _ _ _ _ Hm). unfold listeners. rewrite Hev.
  fold (stored self key v m s).
  unfold committed in Hin. rewrite !elem_of_cons, elem_of_nil in Hin.
  repeat (destruct Hin as [Hin|Hin];
          [injection Hin as Hc -> ->; rewrite Hc;
           match goal with
           | |- for_of ?l _ _ = _ =>
               let l' := eval vm_compute in l in change l with l'
           end;
           rewrite for_of_one; cbn [run_callback];
           by apply commit_Ok |]).
  destruct Hin.
Qed.

(** *** The input of an effect *)

Lemma read_inputDimension_Ok s r o d radius :
  heap s !! r = Some o -> obj_internal o = IBlock d radius ->
  read_inputDimension (JRef r) s = Ok d s.
Proof. intros Ho Hi. unfold read_inputDimension. js_red. by rewrite Ho, Hi. Qed.

(** The state after [block.setInput(input)]. *)
Definition input_set (r : nat) (o : Obj) (input : JsValue) (s : State) : State :=
  with_log (fun l => l ++ [Call r "setInput" [input]])
    (with_heap (fun h => <[r := core_setInput o input]> h) s).

Lemma setInput_Ok s r o d radius input :
  heap s !! r = Some o -> obj_internal o = IBlock d radius ->
  setInput (JRef r) input s = Ok tt (input_set r o input s).
Proof. intros Ho Hi. unfold setInput. js_red. by rewrite Ho, Hi. Qed.

Lemma EffectModel_updateInput_Ok s self m c r o d radius :
  models s !! self = Some m -> (model_class m, c) ∈ effect_classes ->
  props m !! "block" = Some (JRef r) ->
  heap s !! r = Some o -> obj_internal o = IBlock d radius ->
  EffectModel_updateInput self s =
  Ok tt (if (d =? 0)%float then s else input_set r o (forwarded_selector (attr m "input")) s).
Proof.
  intros Hm Hc Hb Ho Hi. unfold EffectModel_updateInput.
  rewrite (bind_Ok _ _ _ _ _ (this_prop_Ok _ _ _ _ Hm)), Hb. cbn [default from_option Datatypes.id].
  rewrite (bind_Ok _ _ _ _ _ (read_inputDimension_Ok _ _ _ _ _ Ho Hi)).
  destruct (d =? 0)%float; cbn [negb]; [reflexivity |].
  rewrite (bind_Ok _ _ _ _ _ (this_prop_Ok _ _ _ _ Hm)), Hb. cbn [default from_option Datatypes.id].
  rewrite (bind_Ok _ _ _ _ _ (this_input_Ok _ _ _ _ Hm Hc)).
  by apply (setInput_Ok _ _ _ d radius).
Qed.

Lemma listeners_input m c :
  events m = registered (model_class m) -> (model_class m, c) ∈ effect_classes ->
  listeners "change:input" m = [cb_updateInput].
Proof.
  intros Hev Hc. unfold listeners. rewrite Hev.
  apply effect_classes_inv in Hc as [[-> _]|[[-> _]|[-> _]]]; reflexivity.
Qed.

Lemma change_input_Ok s self m c r o d radius v :
  models s !! self = Some m ->
  (model_class m, c) ∈ effect_classes ->
  events m = registered (model_class m) ->
  props m !! "block" = Some (JRef r) ->
  heap s !! r = Some o ->
  obj_internal o = IBlock d radius ->
  change self "input" v s =
  Ok tt (if (d =? 0)%float then stored self "input" v m s
         else input_set r o (forwarded_selector v) (stored self "input" v m s)).
Proof.
  intros Hm Hc Hev Hb Ho Hi. rewrite (change_eq _ _ _ _ _ Hm).
  change ("change:" ++ "input")%string with "change:input".
  rewrite (listeners_input _ _ Hev Hc), for_of_one. cbn [run_callback].
  fold (stored self "input" v m s).
  rewrite (EffectModel_updateInput_Ok _ _ _ c r o d radius
             (stored_lookup _ _ _ "input" v Hm) Hc Hb Ho Hi).
  unfold attr. cbn [attributes set_attribute]. rewrite lookup_insert_eq. reflexivity.
Qed.

(** C2. A change of [input] on an effect returns without an exception. When
    the core object answers 0 for [inputDimension], the heap of core objects
    and the log stay as they were: [setInput] is not called and no field of
    the effect is written; only the model's own attribute is stored. When it
    answers another number, [setInput] is called once, with the selector. So a
    [setInput] call that the change adds to the log tells that
    [inputDimension] was not 0. *)
Theorem unbound_effect_ignores_input_change
    (s : State) (self : nat) (m : Model) (c : CoreClass) (r : nat) (o : Obj)
    (d radius : float) (v : JsValue) :
  models s !! self = Some m ->
  (model_class m, c) ∈ effect_classes ->
  events m = registered (model_class m) ->
  props m !! "block" = Some (JRef r) ->
  heap s !! r = Some o ->
  obj_internal o = IBlock d radius ->
  exists s', change self "input" v s = Ok tt s' /\
    ((d =? 0)%float = true ->
       s' = stored self "input" v m s /\ heap s' = heap s /\ log s' = log s /\
       heap s' !! r = Some o) /\
    ((d =? 0)%float = false ->
       log s' = log s ++ [Call r "setInput" [forwarded_selector v]] /\
       heap s' = <[r := core_setInput o (forwarded_selector v)]> (heap s)) /\
    (forall r' input, Call r' "setInput" input ∈ log s' ->
       Call r' "setInput" input ∈ log s \/ (d =? 0)%float = false).
Proof.
  intros Hm Hc Hev Hb Ho Hi. eexists. split.
  - apply (change_input_Ok _ _ _ _ _ _ _ _ _ Hm Hc Hev Hb Ho Hi).
  - destruct (d =? 0)%float.
    + split; [intros _; repeat split; auto | split; [discriminate |]].
      intros r' input Hcall. left. exact Hcall.
    + split; [discriminate | split; [intros _; split; reflexivity |]].
      intros r' input Hcall. right. reflexivity.
Qed.

(** [setInput] is called by [updateInput] only, and only past the test. *)
Lemma updateInput_calls_only_if_nonzero s self m c r o d radius :
  models s !! self = Some m -> (model_class m, c) ∈ effect_classes ->
  props m !! "block" = Some (JRef r) ->
  heap s !! r = Some o -> obj_internal o = IBlock d radius ->
  log (final_state (EffectModel_updateInput self s)) <> log s ->
  (d =? 0)%float = false.
Proof.
  intros Hm Hc Hb Ho Hi. rewrite (EffectModel_updateInput_Ok _ _ _ _ _ _ _ _ Hm Hc Hb Ho Hi).
  destruct (d =? 0)%float; cbn [final_state]; congruence.
Qed.

(** C4. A change of [min] or of [max] on an IsoColor or a Threshold model
    does one thing to the core: it assigns the new value to the field of the
    same name of the effect. The log grows by that assignment alone, so
    [setInput] is not called and the selector is not resolved again. *)
Theorem min_max_change_assigns_the_field_only
    (s : State) (self : nat) (m : Model) (r : nat) (o : Obj) (key : string) (v : JsValue) :
  models s !! self = Some m ->
  model_class m ∈ [IsoColorModel; ThresholdModel] ->
  key ∈ ["min"; "max"] ->
  events m = registered (model_class m) ->
  props m !! "block" = Some (JRef r) ->
  heap s !! r = Some o ->
  exists s', change self key v s = Ok tt s' /\
    log s' = log s ++ [Assign r key v] /\
    heap s' = <[r := with_field key v o]> (heap s) /\
    (forall r' input, Call r' "setInput" input ∈ log s' -> Call r' "setInput" input ∈ log s).
Proof.
  intros Hm Hc Hk Hev Hb Ho.
  assert (Hin : (model_class m, key, key) ∈ committed).
  { unfold committed. rewrite !elem_of_cons, elem_of_nil in Hc.
    rewrite !elem_of_cons, elem_of_nil in Hk.
    destruct Hc as [->|[->|[]]], Hk as [->|[->|[]]]; in_list. }
  eexists. split; [apply (change_commits _ _ _ _ _ _ _ _ Hm Hev Hin Hb Ho) |].
  js_red. repeat split; auto.
  intros r' input Hcall. apply elem_of_app in Hcall as [Hcall|Hcall]; [exact Hcall |].
  apply list_elem_of_singleton in Hcall. discriminate.
Qed.

(** *** Construction of the block *)

Lemma class_input_Ok s self m :
  models s !! self = Some m ->
  IsoColorModel_input self s = Ok (forwarded_selector (attr m "input")) s /\
  IsoSurfaceModel_input self s = Ok (forwarded_selector (attr m "input")) s /\
  ThresholdModel_input self s = Ok (forwarded_selector (attr m "input")) s.
Proof.
  intros Hm. unfold IsoColorModel_input, IsoSurfaceModel_input, ThresholdModel_input.
  rewrite !(bind_Ok _ _ _ _ _ (get_Ok _ _ _ "input" Hm)). unfold ret, attr.
  by rewrite input_getter_value.
Qed.

(** The parameters that an effect's constructor receives after the parent's
    block and the input. *)
Definition effect_parameters (c : CoreClass) (m : Model) : list JsValue :=
  match c with
  | IsoSurface => [attr m "value"]
  | _ => [attr m "min"; attr m "max"]
  end.

Lemma effect_createBlock_inv s self m c b s1 :
  models s !! self = Some m -> (model_class m, c) ∈ effect_classes ->
  createBlock self s = Ok b s1 <->
  exists parent_block,
    get_prop (attr m "parent") "block" s = Ok parent_block s /\
    let args := parent_block :: forwarded_selector (attr m "input") :: effect_parameters c m in
    b = JRef (length (heap s)) /\
    s1 = constructed c args (block_internal c args s) s.
Proof.
  intros Hm Hc. unfold createBlock.
  rewrite (bind_Ok _ _ _ _ _ (this_class_Ok _ _ _ Hm)).
  destruct (class_input_Ok _ _ _ Hm) as (Hi1 & Hi2 & Hi3).
  apply effect_classes_inv in Hc as [[-> ->]|[[-> ->]|[-> ->]]];
    unfold IsoColorModel_createBlock, IsoSurfaceModel_createBlock, ThresholdModel_createBlock,
      EffectModel_parent, IsoColorModel_min, IsoColorModel_max, IsoSurfaceModel_value,
      ThresholdModel_min, ThresholdModel_max;
    peel_get Hm; fold (attr m "parent"); cbn [effect_parameters].
  all: split;
    [ intros Hrun;
      apply bind_reads_inv in Hrun as (pb & Hpb & Hrun); [| apply reads_get_prop];
      rewrite ?(bind_Ok _ _ _ _ _ Hi1), ?(bind_Ok _ _ _ _ _ Hi2), ?(bind_Ok _ _ _ _ _ Hi3) in Hrun;
      repeat peel_get Hm;
      rewrite new_block_eq in Hrun; injection Hrun as <- <-;
      exists pb; auto
    | intros (pb & Hpb & -> & ->);
      rewrite (bind_Ok _ _ _ _ _ Hpb);
      rewrite ?(bind_Ok _ _ _ _ _ Hi1), ?(bind_Ok _ _ _ _ _ Hi2), ?(bind_Ok _ _ _ _ _ Hi3);
      repeat peel_get Hm;
      apply new_block_eq ].
Qed.

(** C9. On an IsoColor, IsoSurface or Threshold model, [this.input] is the
    attribute itself when it is a string and a one-element array around the
    whole attribute otherwise. This is the value that the effect's constructor
    receives as its second argument, whenever an effect is constructed, and
    the value that [setInput] receives on a change of the attribute; a list of
    three names therefore arrives as a list of one list. *)
Theorem effect_input_is_string_or_wrapped
    (s : State) (self : nat) (m : Model) (c : CoreClass) :
  models s !! self = Some m ->
  (model_class m, c) ∈ effect_classes ->
  events m = registered (model_class m) ->
  this_input self s = Ok (forwarded_selector (attr m "input")) s /\
  (forall b s1, createBlock self s = Ok b s1 ->
     exists parent_block,
       log s1 = log s ++ [New c (parent_block :: forwarded_selector (attr m "input")
                                   :: effect_parameters c m) (length (heap s))]) /\
  (forall v s1, change self "input" v s = Ok tt s1 ->
     log s1 = log s \/
     exists r, log s1 = log s ++ [Call r "setInput" [forwarded_selector v]]) /\
  (forall x, forwarded_selector (JStr x) = JStr x) /\
  (forall v, typeof v <> "string" -> forwarded_selector v = JArr [v]) /\
  (forall u v w, forwarded_selector (JArr [u; v; w]) = JArr [JArr [u; v; w]] /\
                 forwarded_selector (JArr [u; v; w]) <> JArr [u; v; w]).
Proof.
  intros Hm Hc Hev. split; [by apply (this_input_Ok _ _ _ c) |].
  split; [| split; [| split; [| split]]].
  - intros b s1 Hrun. apply (effect_createBlock_inv _ _ _ _ _ _ Hm Hc) in Hrun
      as (pb & _ & _ & ->). exists pb. reflexivity.
  - intros v s1. rewrite (change_eq _ _ _ _ _ Hm).
    change ("change:" ++ "input")%string with "change:input".
    rewrite (listeners_input _ _ Hev Hc), for_of_one. cbn [run_callback].
    fold (stored self "input" v m s).
    pose proof (stored_lookup _ _ _ "input" v Hm) as Hm'.
    unfold EffectModel_updateInput.
    rewrite (bind_Ok _ _ _ _ _ (this_prop_Ok _ _ _ _ Hm')).
    intros Hrun.
    apply bind_reads_inv in Hrun as (d & Hd & Hrun); [| apply reads_read_inputDimension].
    destruct (negb (d =? 0)%float); [| injection Hrun as <-; by left].
    rewrite (bind_Ok _ _ _ _ _ (this_prop_Ok _ _ _ _ Hm')) in Hrun.
    rewrite (bind_Ok _ _ _ _ _ (this_input_Ok _ _ _ c Hm' Hc)) in Hrun.
    unfold attr in Hrun. cbn [attributes set_attribute] in Hrun.
    rewrite lookup_insert_eq in Hrun. cbn [default from_option Datatypes.id] in Hrun.
    right. unfold setInput in Hrun.
    destruct (default JUndefined (props (set_attribute "input" v m) !! "block"));
      try discriminate.
    apply bind_reads_inv in Hrun as (o & Ho & Hrun); [| apply reads_get_obj].
    destruct (obj_internal o); try discriminate.
    injection Hrun as <-. exists r. reflexivity.
  - reflexivity.
  - intros v Hv. destruct v; try reflexivity. by destruct Hv.
  - intros u v w. split; [reflexivity | discriminate].
Qed.

Definition mesh_class (cls : ModelClass) : CoreClass :=
  match cls with
  | PolyMeshModel => PolyMesh
  | _ => TetraMesh
  end.

Definition mesh_indices (m : Model) : list JsValue :=
  match model_class m with
  | PolyMeshModel => [attr m "triangle_indices"]
  | _ => [attr m "triangle_indices"; attr m "tetrahedron_indices"]
  end.

Lemma mesh_createBlock_inv s self m b s1 :
  models s !! self = Some m -> model_class m ∈ [PolyMeshModel; TetraMeshModel] ->
  createBlock self s = Ok b s1 ->
  exists data environmentMeshes,
    let c := mesh_class (model_class m) in
    let args := attr m "vertices" :: mesh_indices m ++
                [data; JObj [("environmentMeshes", environmentMeshes)]] in
    b = JRef (length (heap s)) /\
    s1 = constructed c args (block_internal c args s) s.
Proof.
  intros Hm Hc. unfold createBlock.
  rewrite (bind_Ok _ _ _ _ _ (this_class_Ok _ _ _ Hm)).
  unfold mesh_indices.
  rewrite !elem_of_cons, elem_of_nil in Hc. destruct Hc as [->|[->|[]]];
    unfold PolyMeshModel_createBlock, TetraMeshModel_createBlock, BlockModel_vertices,
      PolyMeshModel_triangleIndices, TetraMeshModel_tetrahedronIndices;
    repeat peel_get Hm; intros Hrun;
    (apply bind_reads_inv in Hrun as (data & Hd & Hrun); [| apply reads_BlockModel_data]);
    (apply bind_reads_inv in Hrun as (env & He & Hrun);
       [| apply reads_BlockModel_environmentMeshes]);
    rewrite new_block_eq in Hrun; injection Hrun as <- <-;
    exists data, env; split; reflexivity.
Qed.

Lemma createBlock_inv s self m b s1 :
  models s !! self = Some m -> createBlock self s = Ok b s1 ->
  exists c args,
    (model_class m, c) ∈ block_classes /\
    b = JRef (length (heap s)) /\
    s1 = constructed c args (block_internal c args s) s.
Proof.
  intros Hm Hrun. destruct (model_class m) eqn:Hc.
  1,2,8: unfold createBlock in Hrun;
    rewrite (bind_Ok _ _ _ _ _ (this_class_Ok _ _ _ Hm)), Hc in Hrun; discriminate.
  1,2: apply (mesh_createBlock_inv _ _ _ _ _ Hm) in Hrun as (d & e & Hb & Hs);
    [| rewrite Hc; in_list]; rewrite Hc in Hs; cbn [mesh_class] in Hs;
    eexists _, _; (split; [| split; [exact Hb | exact Hs]]); in_list.
  - assert (He : (model_class m, IsoColor) ∈ effect_classes) by (rewrite Hc; in_list).
    apply (effect_createBlock_inv _ _ _ _ _ _ Hm He) in Hrun as (pb & _ & Hb & Hs).
    eexists _, _. split; [| split; [exact Hb | exact Hs]]. in_list.
  - assert (He : (model_class m, IsoSurface) ∈ effect_classes) by (rewrite Hc; in_list).
    apply (effect_createBlock_inv _ _ _ _ _ _ Hm He) in Hrun as (pb & _ & Hb & Hs).
    eexists _, _. split; [| split; [exact Hb | exact Hs]]. in_list.
  - assert (He : (model_class m, Threshold) ∈ effect_classes) by (rewrite Hc; in_list).
    apply (effect_createBlock_inv _ _ _ _ _ _ Hm He) in Hrun as (pb & _ & Hb & Hs).
    eexists _, _. split; [| split; [exact Hb | exact Hs]]. in_list.
Qed.

(** *** initialize *)

Lemma insert_snoc {A} (l : list A) x y : <[length l := y]> (l ++ [x]) = l ++ [y].
Proof. rewrite insert_app_r_alt by lia. by rewrite Nat.sub_diag. Qed.

Lemma set_this_prop_Ok s self m name v :
  models s !! self = Some m ->
  set_this_prop self name v s =
  Ok tt (with_models (fun ms => <[self := set_property name v m]> ms) s).
Proof. intros Hm. unfold set_this_prop. js_red. by rewrite Hm. Qed.

(** The object of a block model after [initialize]. *)
Definition initialized_block (c : CoreClass) (args : list JsValue) (m : Model) (s : State)
  : Obj :=
  {| obj_class := c; obj_args := args;
     obj_fields := {[ "defaultColor" := attr m "default_color" ]};
     obj_internal := block_internal c args s |}.

Lemma BlockModel_initialize_inv s self m c args :
  models s !! self = Some m ->
  (model_class m, c) ∈ block_classes ->
  createBlock self s =
    Ok (JRef (length (heap s))) (constructed c args (block_internal c args s) s) ->
  let r := length (heap s) in
  initialize self s =
  Ok tt {| models := <[self := add_events (registered (model_class m))
                                 (set_property "block" (JRef r) m)]> (models s);
           views := views s;
           heap := heap s ++ [initialized_block c args m s];
           window_listeners := window_listeners s;
           jobs := jobs s;
           log := log s ++ New c args r :: Assign r "defaultColor" (attr m "default_color")
                    :: map (fun e => Listen self e.1 e.2) (registered (model_class m)) |}.
Proof.
  intros Hm Hc Hcb r. unfold initialize.
  rewrite (bind_Ok _ _ _ _ _ (this_class_Ok _ _ _ Hm)).
  assert (Hinit : BlockModel_initialize self s = Ok tt
    {| models := <[self := add_events (registered (model_class m))
                                 (set_property "block" (JRef r) m)]> (models s);
       views := views s;
       heap := heap s ++ [initialized_block c args m s];
       window_listeners := window_listeners s;
       jobs := jobs s;
       log := log s ++ New c args r :: Assign r "defaultColor" (attr m "default_color")
                :: map (fun e => Listen self e.1 e.2) (registered (model_class m)) |}).
  { unfold BlockModel_initialize, WidgetModel_initialize.
    rewrite (bind_Ok _ _ _ _ _ (eq_refl : ret tt s = Ok tt s)).
    rewrite (bind_Ok _ _ _ _ _ Hcb).
    set (s1 := constructed c args (block_internal c args s) s).
    assert (Hm1 : models s1 !! self = Some m) by exact Hm.
    rewrite (bind_Ok _ _ _ _ _ (set_this_prop_Ok _ _ _ _ _ Hm1)).
    set (m1 := set_property "block" (JRef r) m).
    set (s2 := with_models _ s1).
    assert (Hm2 : models s2 !! self = Some m1) by (apply (lookup_insert_Some _ _ m); exact Hm).
    rewrite (bind_Ok _ _ _ _ _ (this_prop_Ok _ _ _ _ Hm2)).
    unfold BlockModel_defaultColor. rewrite (bind_Ok _ _ _ _ _ (get_Ok _ _ _ _ Hm2)).
    cbn [m1 set_property props attributes]. rewrite lookup_insert_eq. cbn [default from_option Datatypes.id].
    assert (Ho : heap s2 !! r = Some {| obj_class := c; obj_args := args; obj_fields := ∅;
                                        obj_internal := block_internal c args s |})
      by (by apply list_lookup_middle).
    rewrite (bind_Ok _ _ _ _ _ (assign_Ok _ _ _ _ _ Ho)).
    set (s3 := with_log _ _).
    assert (Hm3 : models s3 !! self = Some m1) by exact Hm2.
    assert (Hc3 : (model_class m1, c) ∈ block_classes) by exact Hc.
    rewrite (initEventListeners_Ok _ _ _ _ Hm3 Hc3). f_equal.
    apply state_eq; unfold listening, s3, s2, s1, constructed; js_red;
      rewrite ?list_insert_insert_eq, <- ?app_assoc; try reflexivity.
    unfold r. by rewrite insert_snoc. }
  unfold block_classes in Hc. rewrite !elem_of_cons, elem_of_nil in Hc.
  destruct Hc as [E|[E|[E|[E|[E|[]]]]]]; injection E as Hcls _;
    rewrite Hcls in *; exact Hinit.
Qed.

(** C10. [initialize] of a block model, once the block is constructed, assigns
    [defaultColor] and registers the listeners, and does nothing else to the
    core: the block's only assigned field is [defaultColor], no assignment of
    [defaultAlpha] is in the log, and a later change of [default_alpha] is what
    assigns it. *)
Theorem initialize_assigns_default_color_not_alpha
    (s : State) (self : nat) (m : Model) (b : JsValue) (s1 : State) :
  models s !! self = Some m ->
  events m = [] ->
  createBlock self s = Ok b s1 ->
  exists c args s2,
    let r := length (heap s) in
    (model_class m, c) ∈ block_classes /\
    initialize self s = Ok tt s2 /\
    log s2 = log s ++ New c args r :: Assign r "defaultColor" (attr m "default_color")
               :: map (fun e => Listen self e.1 e.2) (registered (model_class m)) /\
    heap s2 = heap s ++ [initialized_block c args m s] /\
    obj_fields (initialized_block c args m s) !! "defaultColor"
      = Some (attr m "default_color") /\
    obj_fields (initialized_block c args m s) !! "defaultAlpha" = None /\
    (forall v, Assign r "defaultAlpha" v ∉
                 New c args r :: Assign r "defaultColor" (attr m "default_color")
                 :: map (fun e => Listen self e.1 e.2) (registered (model_class m))) /\
    (forall v, exists s3,
       change self "default_alpha" v s2 = Ok tt s3 /\
       log s3 = log s2 ++ [Assign r "defaultAlpha" v] /\
       heap s3 = heap s ++ [with_field "defaultAlpha" v (initialized_block c args m s)]).
Proof.
  intros Hm Hev Hcb.
  destruct (createBlock_inv _ _ _ _ _ Hm Hcb) as (c & args & Hc & -> & ->).
  pose proof (BlockModel_initialize_inv _ _ _ _ _ Hm Hc Hcb) as Hinit. cbv zeta in Hinit.
  eexists c, args, _. cbv zeta. split; [exact Hc |]. split; [exact Hinit |].
  cbn [log heap]. split; [reflexivity |]. split; [reflexivity |].
  split; [apply lookup_singleton_eq |]. split; [by apply lookup_singleton_ne |].
  split.
  - intros v Hin. rewrite !elem_of_cons in Hin. destruct Hin as [Hin|[Hin|Hin]];
      try discriminate.
    apply list_elem_of_fmap in Hin as (e & He & _). discriminate.
  - intros v.
    set (m2 := add_events (registered (model_class m))
                 (set_property "block" (JRef (length (heap s))) m)) in *.
    match type of Hinit with _ = Ok tt ?st => set (s2 := st) in * end.
    assert (Hm2 : models s2 !! self = Some m2) by (by apply (lookup_insert_Some _ _ m)).
    assert (Hev2 : events m2 = registered (model_class m2))
      by (cbn [m2 add_events set_property events model_class]; by rewrite Hev).
    assert (Hin : (model_class m2, "default_alpha", "defaultAlpha") ∈ committed).
    { cbn [m2 add_events set_property model_class]. unfold block_classes in Hc.
      rewrite !elem_of_cons, elem_of_nil in Hc.
      destruct Hc as [E|[E|[E|[E|[E|[]]]]]]; injection E as -> _; unfold committed; in_list. }
    assert (Hb2 : props m2 !! "block" = Some (JRef (length (heap s))))
      by apply lookup_insert_eq.
    assert (Ho2 : heap s2 !! length (heap s) = Some (initialized_block c args m s))
      by (by apply list_lookup_middle).
    eexists. split; [apply (change_commits _ _ _ _ _ _ _ _ Hm2 Hev2 Hin Hb2 Ho2) |].
    js_red. split; [reflexivity |]. cbn [s2 heap]. apply insert_snoc.
Qed.

End Models.

#[local] Hint Resolve reads_this_input reads_BlockModel_data
  reads_BlockModel_environmentMeshes : reads.

(** ** The scene *)

Section SceneFacts.
Context `{Env}.

Definition is_block (o : Obj) : Prop := exists d radius, obj_internal o = IBlock d radius.

(** The object of [new THREE.Vector3(x, y, z)]. *)
Definition vector3 (x y z : float) : Obj :=
  {| obj_class := Vector3; obj_args := [JNum x; JNum y; JNum z];
     obj_fields := <["z" := JNum z]> (<["y" := JNum y]> (<["x" := JNum x]> ∅));
     obj_internal := IPlain |}.

Lemma new_Vector3_eq x y z s :
  new_Vector3 x y z s =
  Ok (JRef (length (heap s)))
     (with_log (fun l => l ++ [New Vector3 [JNum x; JNum y; JNum z] (length (heap s))])
        (with_heap (fun h => h ++ [vector3 x y z]) s)).
Proof.
  unfold new_Vector3, new_. js_red. rewrite list_lookup_middle by reflexivity.
  f_equal. apply state_eq; js_red; try reflexivity. apply insert_snoc.
Qed.

Lemma addChild_Ok s sc o cur block :
  heap s !! sc = Some o -> obj_internal o = IScene cur ->
  addChild (JRef sc) block s =
  Ok tt (with_log (fun l => l ++ [Call sc "addChild" [block]])
           (with_heap (fun h => <[sc := with_internal (IScene (cur ++ [block])) o]> h) s)).
Proof. intros Ho Hi. unfold addChild. js_red. by rewrite Ho, Hi. Qed.

(** The children that are models holding a block, and the blocks they hold. *)
Definition child_blocks (s : State) (children : list JsValue) (bs : list nat) : Prop :=
  Forall2 (fun child b => exists id cm, child = JModel id /\ models s !! id = Some cm /\
                                        props cm !! "block" = Some (JRef b)) children bs.

Definition block_radii (s : State) (bs : list nat) (radii : list float) : Prop :=
  Forall2 (fun b radius => exists o d, heap s !! b = Some o /\
                                       obj_internal o = IBlock d radius) bs radii.

Lemma map_child_blocks s children bs :
  child_blocks s children bs ->
  mapM (fun child => get_prop child "block") children s = Ok (map JRef bs) s.
Proof.
  induction 1 as [|child b children bs (id & cm & -> & Hcm & Hb) _ IH]; [reflexivity |].
  cbn [mapM map]. rewrite (bind_Ok _ _ _ _ _ (get_prop_field _ _ _ _ Hcm (plain_block _))), Hb.
  cbn [default from_option Datatypes.id]. by rewrite (bind_Ok _ _ _ _ _ IH).
Qed.

Lemma read_boundingSphereRadius_Ok s r o d radius :
  heap s !! r = Some o -> obj_internal o = IBlock d radius ->
  read_boundingSphereRadius (JRef r) s = Ok radius s.
Proof. intros Ho Hi. unfold read_boundingSphereRadius. js_red. by rewrite Ho, Hi. Qed.

Lemma map_block_radii s bs radii :
  block_radii s bs radii ->
  mapM read_boundingSphereRadius (map JRef bs) s = Ok radii s.
Proof.
  induction 1 as [|b radius bs radii (o & d & Ho & Hi) _ IH]; [reflexivity |].
  cbn [mapM map].
  rewrite (bind_Ok _ _ _ _ _ (read_boundingSphereRadius_Ok _ _ _ _ _ Ho Hi)).
  by rewrite (bind_Ok _ _ _ _ _ IH).
Qed.

(** What the loop makes of the object at [r]. *)
Definition after_loop (sc : nat) (scale : JsValue) (bs : list nat) (cur : list JsValue)
    (r : nat) (o : Obj) : Obj :=
  if decide (r = sc) then with_internal (IScene (cur ++ map JRef bs)) o
  else if decide (r ∈ bs) then with_field "scale" scale o
  else o.

Definition loop_events (sc : nat) (scale : JsValue) (bs : list nat) : list Event :=
  flat_map (fun b => [Assign b "scale" scale; Call sc "addChild" [JRef b]]) bs.

Lemma with_field_twice field v o :
  with_field field v (with_field field v o) = with_field field v o.
Proof. unfold with_field. cbn. f_equal. apply insert_insert_eq. Qed.

Lemma scale_loop self m sc scale bs : forall s osc cur,
  models s !! self = Some m -> props m !! "scene" = Some (JRef sc) ->
  heap s !! sc = Some osc -> obj_internal osc = IScene cur ->
  Forall (fun b => exists o, heap s !! b = Some o /\ is_block o) bs ->
  exists s',
    for_of (map JRef bs)
      (fun block => assign block "scale" scale ;;
                    let! scene := this_prop self "scene" in addChild scene block) s
    = Ok tt s' /\
    models s' = models s /\ views s' = views s /\
    window_listeners s' = window_listeners s /\ jobs s' = jobs s /\
    log s' = log s ++ loop_events sc scale bs /\
    (forall r, heap s' !! r = after_loop sc scale bs cur r <$> heap s !! r).
Proof.
  induction bs as [|b bs IH]; intros s osc cur Hm Hsc Hosc Hcur Hbs.
  - exists s. cbn [map for_of loop_events flat_map]. rewrite app_nil_r.
    repeat split; try reflexivity.
    intros r. unfold after_loop. destruct (heap s !! r) as [o|] eqn:Hr; [| reflexivity].
    cbn. destruct (decide (r = sc)) as [->|Hne].
    + rewrite app_nil_r. rewrite Hosc in Hr. injection Hr as <-.
      destruct osc; cbn in *. by rewrite Hcur.
    + destruct (decide (r ∈ [])) as [Hin|_]; [by apply elem_of_nil in Hin | reflexivity].
  - apply Forall_cons in Hbs as [(ob & Hob & d & radius & Hib) Hbs].
    assert (Hne : b <> sc) by (intros ->; congruence).
    cbn [map for_of].
    rewrite bind_bind, (bind_Ok _ _ _ _ _ (assign_Ok _ _ _ _ _ Hob)).
    set (s1 := with_log _ _).
    assert (Hm1 : models s1 !! self = Some m) by exact Hm.
    rewrite bind_bind, (bind_Ok _ _ _ _ _ (this_prop_Ok _ _ _ _ Hm1)), Hsc. cbn [default from_option Datatypes.id].
    assert (Hosc1 : heap s1 !! sc = Some osc)
      by (unfold s1; js_red; by rewrite list_lookup_insert_ne).
    rewrite (bind_Ok _ _ _ _ _ (addChild_Ok _ _ _ _ _ Hosc1 Hcur)).
    set (s2 := with_log _ _).
    assert (Hheap2 : heap s2 = <[sc := with_internal (IScene (cur ++ [JRef b])) osc]>
                                 (<[b := with_field "scale" scale ob]> (heap s)))
      by reflexivity.
    assert (Hosc2 : heap s2 !! sc = Some (with_internal (IScene (cur ++ [JRef b])) osc))
      by (rewrite Hheap2; by apply (lookup_insert_Some _ _ osc)).
    assert (Hb2 : heap s2 !! b = Some (with_field "scale" scale ob)).
    { rewrite Hheap2, list_lookup_insert_ne by congruence.
      by apply (lookup_insert_Some _ _ ob). }
    assert (Hbs2 : Forall (fun b' => exists o, heap s2 !! b' = Some o /\ is_block o) bs).
    { eapply Forall_impl; [exact Hbs |]. intros b' (o' & Ho' & d' & radius' & Hi').
      destruct (decide (b' = b)) as [->|Hnb].
      - exists (with_field "scale" scale ob). split; [exact Hb2 |]. by exists d, radius.
      - assert (b' <> sc) by (intros ->; congruence).
        exists o'. split; [| by exists d', radius'].
        by rewrite Hheap2, !list_lookup_insert_ne by congruence. }
    destruct (IH s2 _ (cur ++ [JRef b]) Hm Hsc Hosc2 eq_refl Hbs2)
      as (s' & Hrun & Hmod & Hv & Hw & Hj & Hlog & Hheap).
    exists s'. split; [exact Hrun |].
    split; [by rewrite Hmod |]. split; [by rewrite Hv |]. split; [by rewrite Hw |].
    split; [by rewrite Hj |]. split.
    + rewrite Hlog. unfold s2, s1. js_red. cbn [loop_events flat_map].
      by rewrite <- !app_assoc.
    + intros r. rewrite Hheap. unfold after_loop.
      destruct (decide (r = sc)) as [->|Hrsc].
      * rewrite Hosc2, Hosc. cbn. f_equal. unfold with_internal. cbn.
        by rewrite <- app_assoc.
      * destruct (decide (r = b)) as [->|Hrb].
        -- rewrite Hb2, Hob. cbn. f_equal.
           destruct (decide (b ∈ bs)), (decide (b ∈ b :: bs)) as [|Hn];
             try (by rewrite with_field_twice); try reflexivity;
             destruct Hn; by left.
        -- rewrite Hheap2, !list_lookup_insert_ne by congruence.
           destruct (heap s !! r); [| reflexivity]. cbn. f_equal.
           destruct (decide (r ∈ bs)) as [Hin|Hnin], (decide (r ∈ b :: bs)) as [Hin'|Hnin'];
             try reflexivity.
           ++ destruct Hnin'. by right.
           ++ apply elem_of_cons in Hin' as [->|Hin']; [by destruct Hrb | by destruct Hnin].
Qed.

Lemma block_radii_valid s bs radii :
  block_radii s bs radii ->
  Forall (fun b => exists o, heap s !! b = Some o /\ is_block o) bs.
Proof.
  induction 1 as [|b radius bs radii (o & d & Ho & Hi) _ IH]; constructor; [| exact IH].
  exists o. split; [exact Ho | by exists d, radius].
Qed.

Lemma SceneModel_updateChildren_Ok s self m sc osc old children bs radii :
  models s !! self = Some m ->
  props m !! "scene" = Some (JRef sc) ->
  heap s !! sc = Some osc -> obj_internal osc = IScene old ->
  attributes m !! "children" = Some (JArr children) ->
  child_blocks s children bs ->
  block_radii s bs radii ->
  let k := (1 / JsNumber.Math_max radii)%float in
  let v := length (heap s) in
  exists s',
    SceneModel_updateChildren self s = Ok tt s' /\
    models s' = models s /\ views s' = views s /\
    window_listeners s' = window_listeners s /\ jobs s' = jobs s /\
    log s' = log s ++ New Vector3 [JNum k; JNum k; JNum k] v :: loop_events sc (JRef v) bs /\
    heap s' !! v = Some (vector3 k k k) /\
    (forall r o, heap s !! r = Some o ->
                 heap s' !! r = Some (after_loop sc (JRef v) bs old r o)).
Proof.
  intros Hm Hsc Hosc Hold Hch Hcb Hrad k v. unfold SceneModel_updateChildren.
  rewrite (bind_Ok _ _ _ _ _ (get_Ok _ _ _ _ Hm)), Hch. cbn [default from_option Datatypes.id].
  rewrite (bind_Ok _ _ _ _ _ (array_map_Ok _ _ _ _ _ _ (map_child_blocks _ _ _ Hcb))).
  cbn [boundingSphereRadii elements_of].
  rewrite (bind_Ok _ _ _ _ _ (map_block_radii _ _ _ Hrad)). cbv zeta.
  rewrite (bind_Ok _ _ _ _ _ (new_Vector3_eq _ _ _ _)).
  fold k v. set (s1 := with_log _ _).
  assert (Hheap1 : heap s1 = heap s ++ [vector3 k k k]) by reflexivity.
  assert (Hosc1 : heap s1 !! sc = Some osc) by (rewrite Hheap1; by apply lookup_app_l_Some).
  assert (Hbs1 : Forall (fun b => exists o, heap s1 !! b = Some o /\ is_block o) bs).
  { eapply Forall_impl; [exact (block_radii_valid _ _ _ Hrad) |].
    intros b (o & Ho & Hb). exists o.
    split; [rewrite Hheap1; by apply lookup_app_l_Some | exact Hb]. }
  destruct (scale_loop self m sc (JRef v) bs s1 osc old Hm Hsc Hosc1 Hold Hbs1)
    as (s' & Hrun & Hmod & Hv & Hw & Hj & Hlog & Hheap).
  exists s'. split; [exact Hrun |].
  split; [by rewrite Hmod |]. split; [by rewrite Hv |]. split; [by rewrite Hw |].
  split; [by rewrite Hj |]. split; [| split].
  - rewrite Hlog. unfold s1. js_red. by rewrite <- app_assoc.
  - rewrite Hheap, Hheap1, list_lookup_middle by reflexivity. cbn. f_equal.
    unfold after_loop.
    destruct (decide (v = sc)) as [E|_].
    { apply lookup_lt_Some in Hosc. unfold v in E. lia. }
    destruct (decide (v ∈ bs)) as [Hin|_]; [| reflexivity].
    rewrite Forall_forall in Hbs1. destruct (Hbs1 _ Hin) as (o & Ho & d & radius & Hi).
    rewrite Hheap1, list_lookup_middle in Ho by reflexivity. injection Ho as <-.
    discriminate.
  - intros r o Hr. rewrite Hheap, Hheap1, (lookup_app_l_Some _ _ _ _ Hr). reflexivity.
Qed.

(** C1. On a scene whose children are block models, [updateChildren] makes
    one vector, whose three coordinates are 1 / Math.max of the children's
    bounding-sphere radii, assigns this one vector to [scale] of every child's
    block, and adds each block to the scene right after its assignment. With
    no NaN among the radii of a non-empty list, Math.max is the greatest of
    them; for the radii 2, 4 and 1 the coordinate is 0.25. *)
Theorem updateChildren_assigns_one_scale_to_every_child
    (s : State) (self : nat) (m : Model) (sc : nat) (osc : Obj) (old : list JsValue)
    (children : list JsValue) (bs : list nat) (radii : list float) :
  models s !! self = Some m ->
  props m !! "scene" = Some (JRef sc) ->
  heap s !! sc = Some osc -> obj_internal osc = IScene old ->
  attributes m !! "children" = Some (JArr children) ->
  children <> [] ->
  child_blocks s children bs ->
  block_radii s bs radii ->
  let k := (1 / JsNumber.Math_max radii)%float in
  let v := length (heap s) in
  exists s',
    SceneModel_updateChildren self s = Ok tt s' /\
    heap s' !! v = Some (vector3 k k k) /\
    (forall b, b ∈ bs ->
       exists o, heap s !! b = Some o /\
                 heap s' !! b = Some (with_field "scale" (JRef v) o) /\
                 obj_fields (with_field "scale" (JRef v) o) !! "scale" = Some (JRef v)) /\
    log s' = log s ++ New Vector3 [JNum k; JNum k; JNum k] v ::
               flat_map (fun b => [Assign b "scale" (JRef v); Call sc "addChild" [JRef b]]) bs /\
    (Forall JsNumber.not_nan radii ->
       JsNumber.Math_max radii ∈ radii /\
       Forall (fun x => JsNumber.fle x (JsNumber.Math_max radii)) radii) /\
    (radii = [2; 4; 1]%float -> k = 0.25%float).
Proof.
  intros Hm Hsc Hosc Hold Hch Hne Hcb Hrad k v.
  destruct (SceneModel_updateChildren_Ok _ _ _ _ _ _ _ _ _ Hm Hsc Hosc Hold Hch Hcb Hrad)
    as (s' & Hrun & _ & _ & _ & _ & Hlog & Hvec & Hheap).
  exists s'. split; [exact Hrun |]. split; [exact Hvec |]. split; [| split; [| split]].
  - intros b Hb.
    assert (Hbo : exists o, heap s !! b = Some o /\ is_block o).
    { pose proof (block_radii_valid _ _ _ Hrad) as Hall.
      rewrite Forall_forall in Hall. by apply Hall. }
    destruct Hbo as (o & Ho & d & radius & Hi). exists o. split; [exact Ho |].
    split; [| apply lookup_insert_eq].
    rewrite (Hheap _ _ Ho). unfold after_loop.
    destruct (decide (b = sc)) as [->|_]; [congruence |].
    destruct (decide (b ∈ bs)); [reflexivity | contradiction].
  - exact Hlog.
  - intros Hnn. apply JsNumberFacts.Math_max_greatest; [| exact Hnn].
    intros ->. apply Forall2_nil_inv_r in Hrad as ->.
    apply Forall2_nil_inv_r in Hcb. contradiction.
  - intros ->. reflexivity.
Qed.

End SceneFacts.

(** ** What a piece of code can do to the state *)

Section Within.
Variable R : State -> State -> Prop.
Hypothesis R_refl : forall s, R s s.
Hypothesis R_trans : forall s1 s2 s3, R s1 s2 -> R s2 s3 -> R s1 s3.

(** Whether it returns or throws, the code takes a state to a state in [R]. *)
Definition within {A} (m : M A) : Prop := forall s, R s (final_state (m s)).

Lemma within_reads {A} (m : M A) : reads m -> within m.
Proof. intros Hm s. rewrite Hm. apply R_refl. Qed.

Lemma within_bind {A B} (m : M A) (k : A -> M B) :
  within m -> (forall a, within (k a)) -> within (bind m k).
Proof.
  intros Hm Hk s. unfold bind. specialize (Hm s).
  destruct (m s) as [a s1|e s1]; cbn [final_state] in *; [| exact Hm].
  eapply R_trans; [exact Hm | apply Hk].
Qed.

Lemma within_mapM {A B} (f : A -> M B) xs : (forall x, within (f x)) -> within (mapM f xs).
Proof.
  intros Hf. induction xs as [|x xs IH]; cbn [mapM].
  - intros s. apply R_refl.
  - apply within_bind; [apply Hf | intros y].
    apply within_bind; [apply IH | intros ys s; apply R_refl].
Qed.

Lemma within_for_of {A} (xs : list A) body :
  (forall x, x ∈ xs -> within (body x)) -> within (for_of xs body).
Proof.
  induction xs as [|x xs IH]; intros Hb; cbn [for_of].
  - intros s. apply R_refl.
  - apply within_bind; [apply Hb; left | intros _].
    apply IH. intros y Hy. apply Hb. by right.
Qed.

End Within.

(** The steps of the models' own code: the views, the queue of jobs and the
    window's listeners stay; the log grows by events in [P]; no model gains a
    listener that a view registers; a scene keeps the blocks it has. *)
Definition is_view_callback (cb : Callback) : bool :=
  match cb with cb_background_color _ => true | _ => false end.

Record model_step (P : Event -> Prop) (s s' : State) : Prop := {
  ms_views : views s' = views s;
  ms_jobs : jobs s' = jobs s;
  ms_window : window_listeners s' = window_listeners s;
  ms_log : exists l, log s' = log s ++ l /\ Forall P l;
  ms_models : forall i m', models s' !! i = Some m' ->
      exists m, models s !! i = Some m /\
        forall e, e ∈ events m' -> is_view_callback e.2 = true -> e ∈ events m;
  ms_scenes : forall r o cur, heap s !! r = Some o -> obj_internal o = IScene cur ->
      exists o' new, heap s' !! r = Some o' /\ obj_internal o' = IScene (cur ++ new)
}.

Lemma model_step_refl P s : model_step P s s.
Proof.
  split; try reflexivity.
  - exists []. by rewrite app_nil_r.
  - intros i m' Hm. exists m'. auto.
  - intros r o cur Ho Hi. exists o, []. by rewrite app_nil_r.
Qed.

Lemma model_step_trans P s1 s2 s3 :
  model_step P s1 s2 -> model_step P s2 s3 -> model_step P s1 s3.
Proof.
  intros [Hv1 Hj1 Hw1 (l1 & Hl1 & HP1) Hm1 Hs1] [Hv2 Hj2 Hw2 (l2 & Hl2 & HP2) Hm2 Hs2].
  split; try congruence.
  - exists (l1 ++ l2). split; [by rewrite Hl2, Hl1, app_assoc | by apply Forall_app].
  - intros i m3 H3. destruct (Hm2 _ _ H3) as (m2 & H2 & He2).
    destruct (Hm1 _ _ H2) as (m1 & H1 & He1). exists m1. split; [exact H1 |].
    intros e He Hcb. auto.
  - intros r o cur Ho Hi. destruct (Hs1 _ _ _ Ho Hi) as (o2 & new1 & Ho2 & Hi2).
    destruct (Hs2 _ _ _ Ho2 Hi2) as (o3 & new2 & Ho3 & Hi3).
    exists o3, (new1 ++ new2). by rewrite app_assoc.
Qed.

Section ModelSteps.
Context `{Env}.
Variable P : Event -> Prop.

Abbreviation steps := (within (model_step P)).

Lemma steps_reads {A} (m : M A) : reads m -> steps m.
Proof. apply within_reads, model_step_refl. Qed.

Lemma steps_bind {A B} (m : M A) (k : A -> M B) :
  steps m -> (forall a, steps (k a)) -> steps (bind m k).
Proof. apply within_bind, model_step_trans. Qed.

Lemma steps_mapM {A B} (f : A -> M B) xs : (forall x, steps (f x)) -> steps (mapM f xs).
Proof. apply within_mapM; [apply model_step_refl | apply model_step_trans]. Qed.

Lemma steps_for_of {A} (xs : list A) body :
  (forall x, x ∈ xs -> steps (body x)) -> steps (for_of xs body).
Proof. apply within_for_of; [apply model_step_refl | apply model_step_trans]. Qed.

Lemma steps_emit e : P e -> steps (emit e).
Proof.
  intros He s. unfold emit. cbn [final_state]. split; try reflexivity.
  - exists [e]. split; [reflexivity | by constructor].
  - intros i m' Hm. exists m'. auto.
  - intros r o cur Ho Hi. exists o, []. by rewrite app_nil_r.
Qed.

(** Storing a model whose view listeners are those it had. *)
Lemma steps_put_model self m m' :
  (forall e, e ∈ events m' -> is_view_callback e.2 = true -> e ∈ events m) ->
  forall s, models s !! self = Some m -> model_step P s (final_state (put_model self m' s)).
Proof.
  intros Hev s Hm. unfold put_model. cbn [final_state]. split; try reflexivity.
  - exists []. by rewrite app_nil_r.
  - intros i mi Hi. cbn [models with_models] in Hi. destruct (decide (i = self)) as [->|Hne].
    + rewrite (lookup_insert_Some _ _ _ _ Hm) in Hi. injection Hi as <-. exists m. auto.
    + rewrite list_lookup_insert_ne in Hi by congruence. exists mi. auto.
  - intros r o cur Ho Hi. exists o, []. by rewrite app_nil_r.
Qed.

Lemma steps_on self name cb :
  P (Listen self name cb) -> is_view_callback cb = false -> steps (on self name cb).
Proof.
  intros HP Hcb s. unfold on. unfold bind at 1. unfold get_model.
  destruct (models s !! self) as [m|] eqn:Hm; [| apply model_step_refl].
  unfold bind. pose proof (steps_put_model self m
    {| model_class := model_class m; attributes := attributes m;
       events := events m ++ [(name, cb)]; props := props m |}) as Hput.
  unfold put_model in *. cbn [final_state] in *.
  eapply model_step_trans; [apply Hput; [| exact Hm] | apply (steps_emit _ HP)].
  cbn [events]. intros e He Hv. apply elem_of_app in He as [He|He]; [exact He |].
  apply list_elem_of_singleton in He as ->. cbn in Hv. congruence.
Qed.

Lemma steps_set_this_prop self name v : steps (set_this_prop self name v).
Proof.
  intros s. unfold set_this_prop. unfold bind, get_model.
  destruct (models s !! self) as [m|] eqn:Hm; [| apply model_step_refl].
  apply (steps_put_model self m); auto.
Qed.

(** Storing an object that is a scene with at least the blocks it had, or
    that was no scene. *)
Lemma steps_put_obj r o o' :
  (forall cur, obj_internal o = IScene cur ->
               exists new, obj_internal o' = IScene (cur ++ new)) ->
  forall s, heap s !! r = Some o -> model_step P s (final_state (put_obj r o' s)).
Proof.
  intros Hsc s Ho. unfold put_obj. cbn [final_state]. split; try reflexivity.
  - exists []. by rewrite app_nil_r.
  - intros i m' Hm. exists m'. auto.
  - intros r' o1 cur Ho1 Hi1. js_red. destruct (decide (r' = r)) as [->|Hne].
    + rewrite Ho in Ho1. injection Ho1 as <-. destruct (Hsc _ Hi1) as (new & Hnew).
      exists o', new. split; [by apply (lookup_insert_Some _ _ o) | exact Hnew].
    + exists o1, []. rewrite list_lookup_insert_ne by congruence. by rewrite app_nil_r.
Qed.

Lemma steps_assign target field v :
  (forall r, P (Assign r field v)) -> steps (assign target field v).
Proof.
  intros HP s. unfold assign. destruct target; try apply model_step_refl.
  unfold bind at 1. unfold get_obj. destruct (heap s !! r) as [o|] eqn:Ho;
    [| apply model_step_refl].
  unfold bind. pose proof (steps_put_obj r o (with_field field v o)) as Hput.
  unfold put_obj in *. cbn [final_state] in *.
  eapply model_step_trans; [apply Hput; [| exact Ho] | apply (steps_emit _ (HP r))].
  intros cur Hi. exists []. cbn. by rewrite app_nil_r.
Qed.

Lemma steps_new c args i : (forall r, P (New c args r)) -> steps (new_ c args i).
Proof.
  intros HP s. unfold new_. cbn [final_state]. split; try reflexivity.
  - exists [New c args (length (heap s))]. split; [reflexivity | by constructor].
  - intros j m' Hm. exists m'. auto.
  - intros r o cur Ho Hi. exists o, []. js_red.
    split; [by apply lookup_app_l_Some | by rewrite app_nil_r].
Qed.

Lemma steps_new_block c args : (forall r, P (New c args r)) -> steps (new_block c args).
Proof.
  intros HP. unfold new_block. apply steps_bind; [apply steps_reads, reads_get_heap |].
  intros h. by apply steps_new.
Qed.

Lemma steps_new_Vector3 x y z :
  (forall r args, P (New Vector3 args r)) -> steps (new_Vector3 x y z).
Proof.
  intros HP. unfold new_Vector3. apply steps_bind; [apply steps_new; auto |].
  intros v. destruct v as [| |?|?|?|?|?|?|? ?|?|r|?]; try (intros st; apply model_step_refl).
  intros st. unfold bind at 1. unfold get_obj.
  destruct (heap st !! r) as [o|] eqn:Ho; [| apply model_step_refl].
  unfold bind, ret. pose proof (steps_put_obj r o
    (with_field "z" (JNum z) (with_field "y" (JNum y) (with_field "x" (JNum x) o)))) as Hput.
  unfold put_obj in *. cbn [final_state] in *. apply Hput; [| exact Ho].
  intros cur Hi. exists []. cbn. by rewrite app_nil_r.
Qed.

Lemma steps_setInput block input :
  (forall r, P (Call r "setInput" [input])) -> steps (setInput block input).
Proof.
  intros HP s. unfold setInput. destruct block; try apply model_step_refl.
  unfold bind at 1. unfold get_obj. destruct (heap s !! r) as [o|] eqn:Ho;
    [| apply model_step_refl].
  destruct (obj_internal o) eqn:Hi; try apply model_step_refl.
  unfold bind. pose proof (steps_put_obj r o (core_setInput o input)) as Hput.
  unfold put_obj in *. cbn [final_state] in *.
  eapply model_step_trans; [apply Hput; [| exact Ho] | apply (steps_emit _ (HP r))].
  intros cur Hcur. congruence.
Qed.

Lemma steps_addChild scene block :
  (forall r, P (Call r "addChild" [block])) -> steps (addChild scene block).
Proof.
  intros HP s. unfold addChild. destruct scene; try apply model_step_refl.
  unfold bind at 1. unfold get_obj. destruct (heap s !! r) as [o|] eqn:Ho;
    [| apply model_step_refl].
  destruct (obj_internal o) eqn:Hi; try apply model_step_refl.
  unfold bind. pose proof (steps_put_obj r o
    (with_internal (IScene (blocks ++ [block])) o)) as Hput.
  unfold put_obj in *. cbn [final_state] in *.
  eapply model_step_trans; [apply Hput; [| exact Ho] | apply (steps_emit _ (HP r))].
  intros cur Hcur. rewrite Hi in Hcur. injection Hcur as <-. by exists [block].
Qed.

Lemma steps_SceneModel_updateChildren self :
  (forall r args, P (New Vector3 args r)) ->
  (forall r v, P (Assign r "scale" v)) ->
  (forall r b, P (Call r "addChild" [b])) ->
  steps (SceneModel_updateChildren self).
Proof.
  intros HP1 HP2 HP3. unfold SceneModel_updateChildren.
  apply steps_bind; [apply steps_reads; eauto with reads | intros children].
  apply steps_bind; [apply steps_reads; eauto with reads | intros blocks].
  apply steps_bind; [apply steps_reads; eauto with reads | intros radii]. cbv zeta.
  apply steps_bind; [by apply steps_new_Vector3 | intros scale].
  apply steps_for_of. intros block _.
  apply steps_bind; [by apply steps_assign | intros _].
  apply steps_bind; [apply steps_reads; eauto with reads | intros scene].
  by apply steps_addChild.
Qed.

End ModelSteps.

(** ** No child is removed *)

Section SceneChildren.
Context `{Env}.

(** The events of [updateChildren]. *)
Inductive adds_children : Event -> Prop :=
| adds_vector args r : adds_children (New Vector3 args r)
| adds_scale r v : adds_children (Assign r "scale" v)
| adds_child r b : adds_children (Call r "addChild" [b]).

(** C5. Whatever the children list is, and whether [updateChildren] returns
    or throws, a scene of the core holds afterwards the blocks it held before,
    in their order, followed by those that this call added: the only calls
    made are the construction of the scale vector, assignments of [scale] and
    [addChild]; nothing removes a block. When the children are block models,
    the blocks added are theirs, in the order of the list. *)
Theorem updateChildren_keeps_previous_children
    (s : State) (self : nat) (sc : nat) (osc : Obj) (old : list JsValue) :
  heap s !! sc = Some osc ->
  obj_internal osc = IScene old ->
  let s' := final_state (SceneModel_updateChildren self s) in
  (exists o' new, heap s' !! sc = Some o' /\ obj_internal o' = IScene (old ++ new)) /\
  (exists l, log s' = log s ++ l /\ Forall adds_children l) /\
  (forall m children bs radii,
     models s !! self = Some m ->
     props m !! "scene" = Some (JRef sc) ->
     attributes m !! "children" = Some (JArr children) ->
     child_blocks s children bs ->
     block_radii s bs radii ->
     exists o', heap s' !! sc = Some o' /\
                obj_internal o' = IScene (old ++ map JRef bs)).
Proof.
  intros Hosc Hold s'.
  assert (Hstep : model_step adds_children s s').
  { apply steps_SceneModel_updateChildren; constructor. }
  split; [exact (ms_scenes _ _ _ Hstep _ _ _ Hosc Hold) |].
  split; [exact (ms_log _ _ _ Hstep) |].
  intros m children bs radii Hm Hsc Hch Hcb Hrad.
  destruct (SceneModel_updateChildren_Ok _ _ _ _ _ _ _ _ _ Hm Hsc Hosc Hold Hch Hcb Hrad)
    as (s1 & Hrun & _ & _ & _ & _ & _ & _ & Hheap).
  unfold s'. rewrite Hrun. cbn [final_state]. rewrite (Hheap _ _ Hosc).
  eexists. split; [reflexivity |]. unfold after_loop.
  destruct (decide (sc = sc)); [reflexivity | contradiction].
Qed.

End SceneChildren.

(** ** The order of the view's actions *)

(** The renderer of view [v] was made and initialized somewhere in [before]. *)
Definition initialized_view (before : list Event) (v : nat) : Prop :=
  exists r sc, New Renderer [JElement v; sc] r ∈ before /\ Call r "initialize" [] ∈ before.

(** What must have happened before an event:
    - before [r.initialize()], the display signal of the view for whose
      element [r] was made;
    - before an assignment of [r.backgroundColor], [r.initialize()];
    - before the registration of the view's resize and background-color
      listeners, the initialization of the view's renderer. *)
Definition guard (before : list Event) (e : Event) : Prop :=
  match e with
  | Call r method _ =>
      method = "initialize" ->
      exists v sc, Displayed v ∈ before /\ New Renderer [JElement v; sc] r ∈ before
  | Assign r field _ =>
      field = "backgroundColor" -> Call r "initialize" [] ∈ before
  | WindowAddEventListener _ v => initialized_view before v
  | Listen _ _ cb =>
      match cb with
      | cb_background_color v => initialized_view before v
      | _ => True
      end
  | New _ _ _ | ClassListAdd _ _ | Displayed _ => True
  end.

Definition ordered (l : list Event) : Prop :=
  forall l1 e l2, l = l1 ++ e :: l2 -> guard l1 e.

(** Events that may happen at any time. *)
Definition harmless (e : Event) : Prop := forall before, guard before e.

Lemma guard_mono before more e : guard before e -> guard (before ++ more) e.
Proof.
  destruct e as [| | |i n cb| | |]; cbn; try done.
  - intros Hg Hf. apply elem_of_app. left. auto.
  - intros Hg Hm. destruct (Hg Hm) as (v & sc & H1 & H2).
    exists v, sc. rewrite !elem_of_app. auto.
  - destruct cb; try done. intros (r & sc & H1 & H2).
    exists r, sc. rewrite !elem_of_app. auto.
  - intros (r & sc & H1 & H2). exists r, sc. rewrite !elem_of_app. auto.
Qed.

Lemma ordered_nil : ordered [].
Proof. intros l1 e l2 Heq. by destruct l1. Qed.

Lemma ordered_snoc l e : ordered l -> guard l e -> ordered (l ++ [e]).
Proof.
  intros Hl He l1 e' l2 Heq.
  destruct l2 as [|x l2 _] using rev_ind.
  - apply app_inj_tail in Heq as [-> ->]. exact He.
  - rewrite app_comm_cons, app_assoc in Heq. apply app_inj_tail in Heq as [-> _].
    eapply Hl. reflexivity.
Qed.

Lemma ordered_app_harmless l more : ordered l -> Forall harmless more -> ordered (l ++ more).
Proof.
  intros Hl. induction more as [|e more IH] using rev_ind; intros Hm.
  - by rewrite app_nil_r.
  - rewrite Forall_app, Forall_singleton in Hm. destruct Hm as [Hm He].
    rewrite app_assoc. apply ordered_snoc; [by apply IH | apply He].
Qed.

(** View [v] has a renderer, and it is initialized. *)
Definition ready (s : State) (v : nat) : Prop :=
  exists vw r, views s !! v = Some vw /\ view_props vw !! "renderer" = Some (JRef r) /\
               Call r "initialize" [] ∈ log s /\
               exists sc, New Renderer [JElement v; sc] r ∈ log s.

(** What holds of every state that the host's tasks reach. *)
Record Inv (s : State) : Prop := {
  inv_log : ordered (log s);
  inv_jobs : forall v, job_displayed v ∈ jobs s -> Displayed v ∈ log s;
  inv_reactions : forall v vw j,
      views s !! v = Some vw -> j ∈ reactions (displayed vw) -> j = job_displayed v;
  inv_resolved : forall v vw,
      views s !! v = Some vw -> resolved (displayed vw) = true -> Displayed v ∈ log s;
  inv_renderer : forall v vw x,
      views s !! v = Some vw -> view_props vw !! "renderer" = Some x ->
      exists r sc, x = JRef r /\ New Renderer [JElement v; sc] r ∈ log s;
  inv_listeners : forall i m n v,
      models s !! i = Some m -> (n, cb_background_color v) ∈ events m -> ready s v
}.

Lemma Inv_initial : Inv initial_state.
Proof.
  split; cbn; try (intros; by rewrite ?lookup_nil in * ).
  - apply ordered_nil.
  - intros v Hin. by apply elem_of_nil in Hin.
Qed.

Lemma ready_mono s s' v :
  views s' = views s -> (forall e, e ∈ log s -> e ∈ log s') -> ready s v -> ready s' v.
Proof.
  intros Hv Hl (vw & r & Hvw & Hr & Hi & sc & Hn). exists vw, r.
  rewrite Hv. repeat split; auto. exists sc. auto.
Qed.

(** A step that leaves the views and the jobs, appends to the log events that
    are in order, and gives the models no view listener but for ready views. *)
Lemma Inv_step s s' more :
  Inv s ->
  views s' = views s -> jobs s' = jobs s ->
  log s' = log s ++ more -> ordered (log s ++ more) ->
  (forall i m' n v, models s' !! i = Some m' -> (n, cb_background_color v) ∈ events m' ->
     (exists m, models s !! i = Some m /\ (n, cb_background_color v) ∈ events m) \/
     ready s' v) ->
  Inv s'.
Proof.
  intros [Hlog Hjobs Hreact Hres Hrend Hlist] Hv Hj Hl Hord Hm.
  assert (Hsub : forall e, e ∈ log s -> e ∈ log s')
    by (intros e He; rewrite Hl; apply elem_of_app; by left).
  split.
  - by rewrite Hl.
  - rewrite Hj. auto.
  - rewrite Hv. exact Hreact.
  - rewrite Hv. eauto.
  - rewrite Hv. intros v vw x Hvw Hx. destruct (Hrend _ _ _ Hvw Hx) as (r & sc & -> & Hn).
    exists r, sc. auto.
  - intros i m' n v Hm' He. destruct (Hm _ _ _ _ Hm' He) as [(m & Hmi & Hin)|Hr]; [| exact Hr].
    eapply ready_mono; eauto.
Qed.

Lemma Inv_model_step s s' : model_step harmless s s' -> Inv s -> Inv s'.
Proof.
  intros [Hv Hj Hw (l & Hl & HP) Hm Hs] HI.
  apply (Inv_step s s' l HI Hv Hj Hl).
  - apply ordered_app_harmless; [apply HI | exact HP].
  - intros i m' n v Hm' He. left. destruct (Hm _ _ Hm') as (m & Hmi & Hev).
    exists m. split; [exact Hmi |]. by apply (Hev (n, cb_background_color v)).
Qed.

(** *** The models' code emits nothing that needs a guard *)

#[local] Hint Unfold BlockModel_vertices BlockModel_defaultColor BlockModel_defaultAlpha
  PolyMeshModel_triangleIndices TetraMeshModel_tetrahedronIndices EffectModel_parent
  EffectModel_input IsoColorModel_min IsoColorModel_max IsoColorModel_input
  IsoSurfaceModel_value IsoSurfaceModel_input ThresholdModel_min ThresholdModel_max
  ThresholdModel_input WidgetModel_initialize : reads.

Ltac harmless_tac := intros ?; cbn; first [exact I | intros; discriminate].

Ltac steps_tac :=
  repeat first
    [ apply steps_reads; solve [eauto 10 with reads]
    | apply steps_on; [harmless_tac | reflexivity]
    | apply steps_set_this_prop
    | apply steps_assign; intros ?; harmless_tac
    | apply steps_new_block; intros ?; harmless_tac
    | apply steps_new; intros ?; harmless_tac
    | apply steps_setInput; intros ?; harmless_tac
    | apply steps_addChild; intros ?; harmless_tac
    | apply steps_SceneModel_updateChildren; intros ? ?; harmless_tac
    | apply steps_emit; harmless_tac
    | apply steps_mapM; intros ?
    | apply steps_for_of; intros ? ?
    | apply steps_bind; [| intros ?]
    | match goal with |- within _ (match ?x with _ => _ end) => destruct x end
    | match goal with |- within _ (if ?b then _ else _) => destruct b end ].

Section Harmless.
Context `{Env}.

Lemma steps_createBlock self : within (model_step harmless) (createBlock self).
Proof.
  unfold createBlock, PolyMeshModel_createBlock, TetraMeshModel_createBlock,
    IsoColorModel_createBlock, IsoSurfaceModel_createBlock, ThresholdModel_createBlock.
  steps_tac.
Qed.

Lemma steps_initEventListeners self : within (model_step harmless) (initEventListeners self).
Proof.
  unfold initEventListeners, PolyMeshModel_initEventListeners,
    IsoColorModel_initEventListeners, IsoSurfaceModel_initEventListeners,
    ThresholdModel_initEventListeners, EffectModel_initEventListeners,
    BlockModel_initEventListeners.
  steps_tac.
Qed.

Lemma steps_updateInput self : within (model_step harmless) (EffectModel_updateInput self).
Proof. unfold EffectModel_updateInput. steps_tac. Qed.

Lemma steps_initialize self : within (model_step harmless) (initialize self).
Proof.
  unfold initialize, ComponentModel_initialize, DataModel_initialize,
    BlockModel_initialize, SceneModel_initialize.
  pose proof (steps_createBlock self). pose proof (steps_initEventListeners self).
  repeat first [assumption | progress steps_tac].
Qed.

Lemma steps_model_callback cb self :
  is_view_callback cb = false -> within (model_step harmless) (run_callback cb self).
Proof.
  intros Hcb. pose proof (steps_updateInput self).
  destruct cb; try discriminate; cbn [run_callback];
    repeat first [assumption | progress steps_tac].
Qed.

Lemma steps_Renderer_method renderer method :
  method <> "initialize" -> within (model_step harmless) (Renderer_method renderer method).
Proof.
  intros Hne. unfold Renderer_method. steps_tac.
  apply steps_emit. intros before Hm. contradiction.
Qed.

Lemma steps_SceneView_resize self : within (model_step harmless) (SceneView_resize self).
Proof.
  unfold SceneView_resize, view_prop, Renderer_resize.
  pose proof (steps_Renderer_method). steps_tac. by apply steps_Renderer_method.
Qed.

Lemma steps_catch (m : M unit) :
  within (model_step harmless) m -> within (model_step harmless) (catch m).
Proof. intros Hm s. apply Hm. Qed.

End Harmless.

(** *** The view's code keeps the invariant *)

Lemma bind_reads_cases {A B} (m : M A) (k : A -> M B) s :
  reads m ->
  (exists a, m s = Ok a s /\ bind m k s = k a s) \/ (exists e, bind m k s = Throw e s).
Proof.
  intros Hm. unfold bind. specialize (Hm s).
  destruct (m s) as [a s1|e s1]; cbn in Hm; subst; eauto.
Qed.

(** The state goes on with the same views and a longer log. *)
Definition grows (s s' : State) : Prop :=
  views s' = views s /\ forall e, e ∈ log s -> e ∈ log s'.

Lemma grows_refl s : grows s s.
Proof. by split. Qed.

Lemma grows_trans s1 s2 s3 : grows s1 s2 -> grows s2 s3 -> grows s1 s3.
Proof. intros [Hv1 Hl1] [Hv2 Hl2]. split; [congruence | auto]. Qed.

Lemma model_step_grows P s s' : model_step P s s' -> grows s s'.
Proof.
  intros [Hv _ _ (l & Hl & _) _ _]. split; [exact Hv |].
  intros e He. rewrite Hl. apply elem_of_app. by left.
Qed.

Lemma ready_grows s s' v : grows s s' -> ready s v -> ready s' v.
Proof. intros [Hv Hl]. by apply ready_mono. Qed.

(** One view is replaced by one that keeps its renderer, if it had one. *)
Lemma Inv_put_view s s' v vw vw' more :
  Inv s ->
  views s !! v = Some vw -> views s' = <[v := vw']> (views s) ->
  models s' = models s ->
  log s' = log s ++ more -> Forall harmless more ->
  (forall j, j ∈ jobs s' -> j ∈ jobs s \/ (j = job_displayed v /\ Displayed v ∈ log s')) ->
  (forall j, j ∈ reactions (displayed vw') ->
             j ∈ reactions (displayed vw) \/ j = job_displayed v) ->
  (resolved (displayed vw') = true ->
   resolved (displayed vw) = true \/ Displayed v ∈ log s') ->
  (forall x, view_props vw' !! "renderer" = Some x ->
     view_props vw !! "renderer" = Some x \/
     exists r sc, x = JRef r /\ New Renderer [JElement v; sc] r ∈ log s') ->
  (forall x, view_props vw !! "renderer" = Some x -> view_props vw' !! "renderer" = Some x) ->
  Inv s'.
Proof.
  intros [Hlog Hjobs Hreact Hres Hrend Hlist] Hvw Hv Hm Hl Hmore Hj Hre Hrs Hnew Hkeep.
  assert (Hsub : forall e, e ∈ log s -> e ∈ log s')
    by (intros e He; rewrite Hl; apply elem_of_app; by left).
  assert (Hlook : forall u uw, views s' !! u = Some uw ->
            (u = v /\ uw = vw') \/ (u <> v /\ views s !! u = Some uw)).
  { intros u uw Hu. rewrite Hv in Hu. destruct (decide (u = v)) as [->|Hne].
    - rewrite (lookup_insert_Some _ _ _ _ Hvw) in Hu. injection Hu as <-. by left.
    - rewrite list_lookup_insert_ne in Hu by congruence. by right. }
  split.
  - rewrite Hl. by apply ordered_app_harmless.
  - intros u Hu. destruct (Hj _ Hu) as [Hold|[E HD]]; [auto |].
    injection E as ->. exact HD.
  - intros u uw j Hu Hin. destruct (Hlook _ _ Hu) as [[-> ->]|[_ Hu']]; [| eauto].
    destruct (Hre _ Hin) as [Hold | ->]; [eauto | reflexivity].
  - intros u uw Hu Hr. destruct (Hlook _ _ Hu) as [[-> ->]|[_ Hu']]; [| eauto].
    destruct (Hrs Hr) as [Hold|HD]; [eauto | exact HD].
  - intros u uw x Hu Hx. destruct (Hlook _ _ Hu) as [[-> ->]|[_ Hu']].
    + destruct (Hnew _ Hx) as [Hold|Hr]; [| exact Hr].
      destruct (Hrend _ _ _ Hvw Hold) as (r & sc & -> & Hn). exists r, sc. auto.
    + destruct (Hrend _ _ _ Hu' Hx) as (r & sc & -> & Hn). exists r, sc. auto.
  - intros i m n u Hi He. rewrite Hm in Hi.
    destruct (Hlist _ _ _ _ Hi He) as (uw & r & Hu & Hr & Hc & sc & Hn).
    destruct (decide (u = v)) as [->|Hne].
    + exists vw', r. rewrite Hv, (lookup_insert_Some _ _ _ _ Hvw).
      rewrite Hvw in Hu. injection Hu as <-.
      repeat split; auto. exists sc. auto.
    + exists uw, r. rewrite Hv, list_lookup_insert_ne by congruence.
      repeat split; auto. exists sc. auto.
Qed.

Lemma Inv_alloc_view s vw :
  Inv s -> view_props vw = ∅ -> displayed vw = {| resolved := false; reactions := [] |} ->
  Inv (with_views (fun vs => vs ++ [vw]) s).
Proof.
  intros [Hlog Hjobs Hreact Hres Hrend Hlist] Hp Hd.
  assert (Hlook : forall u uw, (views s ++ [vw]) !! u = Some uw ->
            views s !! u = Some uw \/ uw = vw).
  { intros u uw Hu. apply lookup_app_Some in Hu as [Hu|[_ Hu]]; [by left | right].
    apply list_lookup_singleton_Some in Hu as [_ ->]. reflexivity. }
  split; cbn [log jobs views models with_views].
  - exact Hlog.
  - exact Hjobs.
  - intros u uw j Hu Hin. destruct (Hlook _ _ Hu) as [Hu'| ->]; [eauto |].
    rewrite Hd in Hin. by apply elem_of_nil in Hin.
  - intros u uw Hu Hr. destruct (Hlook _ _ Hu) as [Hu'| ->]; [eauto |].
    rewrite Hd in Hr. discriminate.
  - intros u uw x Hu Hx. destruct (Hlook _ _ Hu) as [Hu'| ->]; [eauto |].
    rewrite Hp in Hx. by rewrite lookup_empty in Hx.
  - intros i m n u Hi He. destruct (Hlist _ _ _ _ Hi He) as (uw & r & Hu & Hr).
    exists uw, r. split; [by apply lookup_app_l_Some | exact Hr].
Qed.

Section ViewSteps.
Context `{Env}.

Lemma view_prop_Ok s v vw name :
  views s !! v = Some vw ->
  view_prop v name s = Ok (default JUndefined (view_props vw !! name)) s.
Proof. intros Hv. unfold view_prop. js_red. by rewrite Hv. Qed.

Lemma this_model_Ok s v vw :
  views s !! v = Some vw -> this_model v s = Ok (view_model vw) s.
Proof. intros Hv. unfold this_model. js_red. by rewrite Hv. Qed.

Lemma get_inv s self key x :
  get self key s = Ok x s -> exists m, models s !! self = Some m.
Proof.
  unfold get, bind, get_model. destruct (models s !! self) as [m|]; [eauto | discriminate].
Qed.

(** The listener [cb_background_color v], run when [v] is ready. *)
Lemma background_callback_ok v self s :
  Inv s -> ready s v ->
  let s' := final_state (run_callback (cb_background_color v) self s) in
  Inv s' /\ grows s s'.
Proof.
  intros HI (vw & r & Hvw & Hr & Hinit & sc & Hnew). cbv zeta. cbn [run_callback].
  rewrite (bind_Ok _ _ _ _ _ (view_prop_Ok _ _ _ "renderer" Hvw)), Hr. cbn [default from_option Datatypes.id].
  rewrite (bind_Ok _ _ _ _ _ (this_model_Ok _ _ _ Hvw)). cbv beta.
  destruct (bind_reads_cases (get (view_model vw) "background_color")
              (fun c => assign (JRef r) "backgroundColor" c) s (reads_get _ _))
    as [(c & Hc & ->)|(e & ->)]; [| split; [exact HI | apply grows_refl]].
  unfold assign. js_red.
  destruct (heap s !! r) as [o|] eqn:Ho; [| split; [exact HI | apply grows_refl]].
  split.
  - eapply (Inv_step s _ [Assign r "backgroundColor" c] HI); try reflexivity.
    + apply ordered_snoc; [apply HI | intros _; exact Hinit].
    + intros i m n u Hm He. left. eauto.
  - split; [reflexivity |]. intros e He. js_red. apply elem_of_app. by left.
Qed.

Lemma callback_ok cb self s :
  Inv s -> (forall v, cb = cb_background_color v -> ready s v) ->
  let s' := final_state (run_callback cb self s) in
  Inv s' /\ grows s s'.
Proof.
  intros HI Hready. destruct (is_view_callback cb) eqn:Hcb.
  - destruct cb; try discriminate. apply background_callback_ok; auto.
  - pose proof (steps_model_callback cb self Hcb s) as Hstep.
    split; [by apply (Inv_model_step s) | by apply (model_step_grows harmless)].
Qed.

Lemma trigger_loop self cbs : forall s,
  Inv s -> (forall v, cb_background_color v ∈ cbs -> ready s v) ->
  Inv (final_state (for_of cbs (fun cb => run_callback cb self) s)).
Proof.
  induction cbs as [|cb cbs IH]; intros s HI Hready; [exact HI |].
  cbn [for_of]. unfold bind.
  destruct (callback_ok cb self s HI) as [HI1 Hg].
  { intros v ->. apply Hready. left. }
  destruct (run_callback cb self s) as [[] s1|e s1]; cbn [final_state] in *; [| exact HI1].
  apply IH; [exact HI1 |]. intros v Hv. apply (ready_grows s); [exact Hg |].
  apply Hready. by right.
Qed.

Lemma change_ok self key v s : Inv s -> Inv (final_state (change self key v s)).
Proof.
  intros HI. unfold change. unfold bind at 1. unfold get_model.
  destruct (models s !! self) as [m|] eqn:Hm; [| exact HI].
  unfold bind at 1. unfold put_model.
  set (m' := {| model_class := model_class m; attributes := <[key := v]> (attributes m);
                events := events m; props := props m |}).
  set (s1 := with_models _ s).
  assert (HI1 : Inv s1).
  { apply (Inv_step s s1 [] HI);
      [reflexivity | reflexivity | by rewrite app_nil_r | rewrite app_nil_r; apply HI |].
    intros i mi n u Hi He. left. cbn [s1 models with_models] in Hi.
    destruct (decide (i = self)) as [->|Hne].
    - rewrite (lookup_insert_Some _ _ _ _ Hm) in Hi. injection Hi as <-. eauto.
    - rewrite list_lookup_insert_ne in Hi by congruence. eauto. }
  unfold trigger. unfold bind. unfold get_model.
  assert (Hm1 : models s1 !! self = Some m') by (by apply (lookup_insert_Some _ _ m)).
  rewrite Hm1. apply trigger_loop; [exact HI1 |].
  intros u Hu. unfold listeners in Hu. apply list_elem_of_fmap in Hu as ([n cb] & E & Hin).
  cbn in E. subst cb. apply list_elem_of_filter in Hin as [_ Hin].
  by apply (inv_listeners _ HI1 self m' n u Hm1).
Qed.

End ViewSteps.

Section Jobs.
Context `{Env}.

Lemma Inv_emit s s' e :
  Inv s -> views s' = views s -> jobs s' = jobs s -> models s' = models s ->
  log s' = log s ++ [e] -> guard (log s) e ->
  Inv s' /\ grows s s'.
Proof.
  intros HI Hv Hj Hm Hl Hg. split.
  - apply (Inv_step s s' [e] HI Hv Hj Hl).
    + apply ordered_snoc; [apply HI | exact Hg].
    + intros i m n u Hi He. left. rewrite Hm in Hi. eauto.
  - split; [exact Hv |]. intros x Hx. rewrite Hl. apply elem_of_app. by left.
Qed.

(** From [s], the invariant holds in [s'], which has the views of [s] and a
    longer log. *)
Definition keeps (s s' : State) : Prop := Inv s' /\ grows s s'.

(** The arrow of [render], run for a view whose display was signalled. *)
Lemma job_ok v s :
  Inv s -> Displayed v ∈ log s ->
  keeps s (final_state (SceneView_render_displayed v s)).
Proof.
  intros HI HD. unfold SceneView_render_displayed.
  assert (Hsame : keeps s s) by (split; [exact HI | apply grows_refl]).
  destruct (views s !! v) as [vw|] eqn:Hvw;
    [| unfold view_prop; js_red; by rewrite Hvw].
  rewrite (bind_Ok _ _ _ _ _ (view_prop_Ok _ _ _ "renderer" Hvw)). cbv beta.
  destruct (view_props vw !! "renderer") as [x|] eqn:Hx; cbn [default from_option Datatypes.id];
    [| exact Hsame].
  destruct (inv_renderer _ HI _ _ _ Hvw Hx) as (r & sc & -> & Hnew).
  unfold Renderer_initialize. rewrite !bind_bind. unfold bind at 1. unfold get_obj.
  destruct (heap s !! r) as [o|] eqn:Ho; [| exact Hsame].
  destruct (obj_internal o) eqn:Hi; try exact Hsame.
  rewrite bind_bind. unfold bind at 1. unfold put_obj.
  unfold bind at 1. unfold emit.
  set (s1 := with_log _ _).
  assert (H1 : Inv s1 /\ grows s s1).
  { apply (Inv_emit s s1 (Call r "initialize" [])); try reflexivity; [exact HI |].
    intros _. exists v, sc. auto. }
  destruct H1 as [HI1 Hg1].
  assert (Hvw1 : views s1 !! v = Some vw) by exact Hvw.
  rewrite (bind_Ok _ _ _ _ _ (view_prop_Ok _ _ _ "renderer" Hvw1)), Hx.
  cbn [default from_option Datatypes.id].
  rewrite (bind_Ok _ _ _ _ _ (this_model_Ok _ _ _ Hvw1)). cbv beta.
  destruct (bind_reads_cases (get (view_model vw) "background_color")
              (fun c => assign (JRef r) "backgroundColor" c ;; SceneView_initEventListeners v)
              s1 (reads_get _ _))
    as [(c & Hc & ->)|(e & ->)]; [| by split].
  assert (Ho1 : heap s1 !! r = Some (with_internal (IRenderer true) o))
    by (by apply (lookup_insert_Some _ _ o)).
  rewrite (bind_Ok _ _ _ _ _ (assign_Ok _ _ _ _ _ Ho1)).
  set (s2 := with_log _ _).
  assert (H2 : Inv s2 /\ grows s1 s2).
  { apply (Inv_emit s1 s2 (Assign r "backgroundColor" c)); try reflexivity; [exact HI1 |].
    intros _. cbn [s1 log with_log]. apply elem_of_app. right. left. }
  destruct H2 as [HI2 Hg2].
  unfold SceneView_initEventListeners, window_addEventListener.
  rewrite !bind_bind. unfold bind at 1. unfold bind at 1. unfold emit.
  set (s3 := with_log _ _).
  assert (Hready3 : initialized_view (log s2) v).
  { exists r, sc. split.
    - apply Hg2, Hg1, Hnew.
    - apply Hg2. cbn [s1 log with_log]. apply elem_of_app. right. left. }
  assert (H3 : Inv s3 /\ grows s2 s3).
  { apply (Inv_emit s2 s3 (WindowAddEventListener "resize" v)); try reflexivity;
      [exact HI2 | exact Hready3]. }
  destruct H3 as [HI3 Hg3].
  assert (Hvw3 : views s3 !! v = Some vw) by exact Hvw.
  rewrite (bind_Ok _ _ _ _ _ (this_model_Ok _ _ _ Hvw3)).
  destruct (get_inv _ _ _ _ Hc) as (m & Hm).
  assert (Hm3 : models s3 !! view_model vw = Some m) by exact Hm.
  rewrite (on_Ok _ _ _ _ _ Hm3). cbn [final_state].
  set (s4 := listening _ _ _ _).
  assert (Hg4 : grows s3 s4).
  { split; [reflexivity |]. intros e He. unfold s4, listening. js_red.
    apply elem_of_app. by left. }
  split; [| eauto using grows_trans].
  apply (Inv_step s3 s4 [Listen (view_model vw) "change:background_color"
                           (cb_background_color v)] HI3); try reflexivity.
  - apply ordered_snoc; [apply HI3 |]. cbn [guard].
    destruct Hready3 as (r' & sc' & Hn' & Hc'). exists r', sc'.
    split; apply Hg3; assumption.
  - intros i mi n u Hmi He. unfold s4, listening in Hmi.
    cbn [models with_models with_log] in Hmi.
    destruct (decide (i = view_model vw)) as [->|Hne].
    + rewrite (lookup_insert_Some _ _ _ _ Hm3) in Hmi. injection Hmi as <-.
      cbn [add_events events] in He. apply elem_of_app in He as [He|He]; [left; eauto |].
      apply list_elem_of_singleton in He. injection He as _ <-. right.
      exists vw, r. split; [exact Hvw |]. split; [exact Hx |].
      destruct Hready3 as (r' & sc' & Hn' & Hc').
      split.
      * apply Hg4, Hg3, Hg2. cbn [s1 log with_log]. apply elem_of_app. right. left.
      * exists sc. apply Hg4, Hg3, Hg2, Hg1, Hnew.
    + rewrite list_lookup_insert_ne in Hmi by congruence. left. eauto.
Qed.

Lemma drain_loop js : forall s,
  Inv s -> (forall v, job_displayed v ∈ js -> Displayed v ∈ log s) ->
  Inv (final_state (for_of js (fun j => catch (run_job j)) s)).
Proof.
  induction js as [|[v] js IH]; intros s HI HD; [exact HI |].
  cbn [for_of]. unfold bind, catch. cbn [run_job].
  destruct (job_ok v s HI) as [HI1 Hg1]; [apply HD; left |].
  apply IH; [exact HI1 |]. intros u Hu. apply Hg1, HD. by right.
Qed.

Lemma drain_jobs_ok s : Inv s -> Inv (final_state (drain_jobs s)).
Proof.
  intros HI. unfold drain_jobs. apply drain_loop.
  - destruct HI as [Hlog Hjobs Hreact Hres Hrend Hlist]. split; try assumption.
    intros v Hv. cbn in Hv. by apply elem_of_nil in Hv.
  - intros v Hv. cbn [log with_jobs]. by apply (inv_jobs _ HI).
Qed.

End Jobs.

Section Tasks.
Context `{Env}.

Lemma final_bind_ret {A B} (m : M A) (b : A -> B) s :
  final_state (bind m (fun a => ret (b a)) s) = final_state (m s).
Proof. unfold bind, ret. by destruct (m s). Qed.

Lemma final_then_ret {A} (m : M unit) (a : A) s :
  final_state ((m ;; ret a) s) = final_state (m s).
Proof. unfold bind, ret. by destruct (m s). Qed.

(** [render] on a view that has no renderer yet. *)
Lemma render_ok v s vw :
  Inv s -> views s !! v = Some vw -> view_props vw !! "renderer" = None ->
  Inv (final_state (SceneView_render v s)).
Proof.
  intros HI Hvw Hnone. unfold SceneView_render, classList_add.
  rewrite !bind_bind. unfold bind at 1. unfold get_view. rewrite Hvw.
  rewrite bind_bind. unfold bind at 1. unfold put_view.
  unfold bind at 1. unfold emit.
  set (vw1 := {| view_model := view_model vw; view_props := view_props vw;
                 classList := classList vw ++ ["odysis-scene"];
                 displayed := displayed vw |}).
  set (s1 := with_log _ _).
  assert (Hvw1 : views s1 !! v = Some vw1) by (by apply (lookup_insert_Some _ _ vw)).
  assert (HI1 : Inv s1).
  { apply (Inv_put_view s s1 v vw vw1 [ClassListAdd v "odysis-scene"] HI Hvw);
      try reflexivity; auto.
    repeat constructor. }
  rewrite (bind_Ok _ _ _ _ _ (this_model_Ok _ _ _ Hvw1)).
  destruct (bind_reads_cases (get_prop (JModel (view_model vw1)) "scene")
    (fun scene => let! renderer := new_ Renderer [JElement v; scene] (IRenderer false) in
                  set_view_prop v "renderer" renderer ;;
                  displayed_then v (job_displayed v)) s1 (reads_get_prop _ _))
    as [(scene & Hscene & ->)|(e & ->)]; [| exact HI1].
  unfold bind at 1. unfold new_.
  set (r := length (heap s1)). set (s2 := with_log _ _).
  assert (HI2 : Inv s2).
  { exact (proj1 (Inv_emit s1 s2 (New Renderer [JElement v; scene] r) HI1
                    eq_refl eq_refl eq_refl eq_refl I)). }
  assert (Hvw2 : views s2 !! v = Some vw1) by exact Hvw1.
  unfold set_view_prop. rewrite !bind_bind. unfold bind at 1. unfold get_view. rewrite Hvw2.
  unfold bind at 1. unfold put_view.
  set (vw3 := {| view_model := view_model vw1;
                 view_props := <["renderer" := JRef r]> (view_props vw1);
                 classList := classList vw1; displayed := displayed vw1 |}).
  set (s3 := with_views _ s2).
  assert (Hvw3 : views s3 !! v = Some vw3) by (by apply (lookup_insert_Some _ _ vw1)).
  assert (HI3 : Inv s3).
  { apply (Inv_put_view s2 s3 v vw1 vw3 [] HI2 Hvw2); try reflexivity; auto.
    - cbn [s3 log with_views]. by rewrite app_nil_r.
    - intros x Hx. right. cbn [vw3 view_props] in Hx. rewrite lookup_insert_eq in Hx.
      injection Hx as <-. exists r, scene. split; [reflexivity |].
      cbn [s3 s2 log with_views with_log]. apply elem_of_app. right. left.
    - intros x Hx. cbn [vw1 view_props] in Hx. congruence. }
  unfold displayed_then. unfold bind at 1. unfold get_view. rewrite Hvw3.
  destruct (resolved (displayed vw3)) eqn:Hres.
  - cbn [final_state].
    apply (Inv_put_view s3 _ v vw3 vw3 [] HI3 Hvw3); try reflexivity; auto.
    + cbn [views with_jobs]. symmetry. by apply list_insert_id.
    + cbn [log with_jobs]. by rewrite app_nil_r.
    + intros j Hj. cbn [jobs with_jobs] in Hj. apply elem_of_app in Hj as [Hj|Hj]; [by left |].
      apply list_elem_of_singleton in Hj as ->. right. split; [reflexivity |].
      cbn [log with_jobs]. by apply (inv_resolved _ HI3 v vw3).
  - cbn [final_state put_view].
    set (vw4 := {| view_model := view_model vw3; view_props := view_props vw3;
                   classList := classList vw3;
                   displayed := {| resolved := false;
                                   reactions := reactions (displayed vw3) ++
                                                [job_displayed v] |} |}).
    apply (Inv_put_view s3 _ v vw3 vw4 [] HI3 Hvw3); try reflexivity; auto.
    + cbn [log with_views]. by rewrite app_nil_r.
    + intros j Hj. cbn [displayed reactions] in Hj.
      apply elem_of_app in Hj as [Hj|Hj]; [by left |].
      apply list_elem_of_singleton in Hj. by right.
    + cbn [displayed resolved]. discriminate.
Qed.

Lemma create_view_ok model s : Inv s -> Inv (final_state (create_view model s)).
Proof.
  intros HI. unfold create_view. unfold bind at 1. rewrite final_then_ret.
  set (vw := {| view_model := model; view_props := ∅; classList := [];
                displayed := {| resolved := false; reactions := [] |} |}).
  apply (render_ok _ _ vw).
  - by apply Inv_alloc_view.
  - cbn [views with_views]. by apply list_lookup_middle.
  - apply lookup_empty.
Qed.

Lemma resolve_displayed_ok v s : Inv s -> Inv (final_state (resolve_displayed v s)).
Proof.
  intros HI. unfold resolve_displayed. unfold bind at 1. unfold get_view.
  destruct (views s !! v) as [vw|] eqn:Hvw; [| exact HI].
  destruct (resolved (displayed vw)) eqn:Hres; [exact HI |].
  js_red.
  match goal with |- Inv ?st => set (s' := st) end.
  apply (Inv_put_view s s' v vw
           {| view_model := view_model vw; view_props := view_props vw;
              classList := classList vw;
              displayed := {| resolved := true; reactions := [] |} |}
           [Displayed v] HI Hvw); try reflexivity; auto.
  - repeat constructor.
  - intros j Hj. cbn [s' jobs] in Hj. apply elem_of_app in Hj as [Hj|Hj]; [by left |].
    right. split; [by apply (inv_reactions _ HI v vw) |].
    cbn [s' log]. apply elem_of_app. right. left.
  - intros j Hj. cbn in Hj. by apply elem_of_nil in Hj.
  - intros _. right. cbn [s' log]. apply elem_of_app. right. left.
Qed.

Lemma new_model_ok cls attrs s : Inv s -> Inv (final_state (new_model cls attrs s)).
Proof.
  intros HI. unfold new_model. unfold bind at 1. rewrite final_then_ret.
  set (s1 := with_models _ s).
  apply (Inv_model_step s1); [apply steps_initialize |].
  apply (Inv_step s s1 [] HI);
    [reflexivity | reflexivity | by rewrite app_nil_r | rewrite app_nil_r; apply HI |].
  intros i m n u Hi He. left. cbn [s1 models with_models] in Hi.
  apply lookup_app_Some in Hi as [Hi|[_ Hi]]; [eauto |].
  apply list_lookup_singleton_Some in Hi as [_ <-]. cbn in He. by apply elem_of_nil in He.
Qed.

Lemma steps_window_resize : within (model_step harmless) window_resize.
Proof.
  intros s. unfold window_resize.
  apply (steps_for_of harmless). intros view _.
  apply steps_catch, steps_SceneView_resize.
Qed.

Lemma processPhosphorMessage_ok v msg_type s :
  Inv s -> Inv (final_state (SceneView_processPhosphorMessage v msg_type s)).
Proof.
  intros HI. unfold SceneView_processPhosphorMessage, DOMWidgetView_processPhosphorMessage.
  destruct (decide (msg_type = "after-attach")) as [->|Hne].
  - rewrite decide_False by (intros [?|?]; discriminate).
    rewrite final_then_ret. by apply resolve_displayed_ok.
  - rewrite (bind_Ok _ _ _ _ _ (eq_refl : ret tt s = Ok tt s)).
    destruct (decide _); [| exact HI].
    apply (Inv_model_step s); [apply steps_SceneView_resize | exact HI].
Qed.

(** Code that keeps the invariant, whether it returns or throws. *)
Definition preserves {A} (m : M A) : Prop := forall s, Inv s -> Inv (final_state (m s)).

Lemma preserves_bind {A B} (m : M A) (k : A -> M B) :
  preserves m -> (forall a, preserves (k a)) -> preserves (bind m k).
Proof.
  intros Hm Hk s HI. unfold bind. specialize (Hm s HI).
  destruct (m s) as [a s1|e s1]; cbn [final_state] in *; [by apply Hk | exact Hm].
Qed.

Lemma preserves_steps {A} (m : M A) : within (model_step harmless) m -> preserves m.
Proof. intros Hm s HI. by apply (Inv_model_step s). Qed.

Lemma preserves_set_isDisposed v x : preserves (set_view_prop v "pWidget.isDisposed" x).
Proof.
  intros s HI. unfold set_view_prop. unfold bind, get_view.
  destruct (views s !! v) as [vw|] eqn:Hvw; [| exact HI].
  unfold put_view. cbn [final_state].
  match goal with |- Inv (with_views (fun _ => <[v := ?vw1]> _) s) => set (vw' := vw1) end.
  apply (Inv_put_view s _ v vw vw' [] HI Hvw); try reflexivity; auto.
  - cbn [log with_views]. by rewrite app_nil_r.
  - intros x' Hx. left. cbn [vw' view_props] in Hx. by rewrite lookup_insert_ne in Hx.
  - intros x' Hx. cbn [vw' view_props]. by rewrite lookup_insert_ne.
Qed.

Lemma preserves_pWidget_dispose v k : preserves k -> preserves (pWidget_dispose v k).
Proof.
  intros Hk. unfold pWidget_dispose.
  apply preserves_bind; [apply preserves_steps, steps_reads; unfold view_prop; eauto with reads |].
  intros isDisposed.
  assert (Hset : preserves (set_view_prop v "pWidget.isDisposed" (JBool true) ;; k))
    by (apply preserves_bind; [apply preserves_set_isDisposed | intros _; exact Hk]).
  destruct isDisposed as [| |[]|?|?|?|?|?|? ?|?|?|?]; try exact Hset.
  intros s HI. exact HI.
Qed.

Lemma preserves_remove_body v k : preserves k -> preserves (SceneView_remove_body v k).
Proof.
  intros Hk. unfold SceneView_remove_body, Renderer_dispose.
  apply preserves_bind; [apply preserves_steps, steps_reads; unfold view_prop; eauto with reads |].
  intros renderer.
  apply preserves_bind; [by apply preserves_steps, steps_Renderer_method | intros _; exact Hk].
Qed.

Lemma remove_ok v : preserves (SceneView_remove v).
Proof.
  unfold SceneView_remove, DOMWidgetView_remove.
  do 2 (apply preserves_remove_body, preserves_pWidget_dispose).
  intros s HI. exact HI.
Qed.

Lemma run_action_ok a s : Inv s -> Inv (final_state (run_action a s)).
Proof.
  intros HI. destruct a; cbn [run_action].
  - rewrite (final_bind_ret _ (fun _ => tt)). by apply new_model_ok.
  - rewrite (final_bind_ret _ (fun _ => tt)). by apply create_view_ok.
  - by apply resolve_displayed_ok.
  - by apply change_ok.
  - apply (Inv_model_step s); [apply steps_window_resize | exact HI].
  - by apply processPhosphorMessage_ok.
  - by apply remove_ok.
Qed.

Lemma task_ok a s : Inv s -> Inv (task a s).
Proof.
  intros HI. unfold task, bind, catch. by apply drain_jobs_ok, run_action_ok.
Qed.

Lemma run_ok acts : forall s, Inv s -> Inv (run acts s).
Proof.
  induction acts as [|a acts IH]; intros s HI; [exact HI |].
  cbn [run foldl]. apply IH. by apply task_ok.
Qed.

(** [render] itself initializes nothing: it adds the class, makes the
    renderer and leaves the arrow with the promise. *)
Lemma render_log v s :
  exists l, log (final_state (SceneView_render v s)) = log s ++ l /\
    Forall (fun e => match e with
                     | ClassListAdd _ _ | New Renderer _ _ => True
                     | _ => False
                     end) l.
Proof.
  unfold SceneView_render, classList_add.
  rewrite !bind_bind. unfold bind at 1. unfold get_view.
  destruct (views s !! v) as [vw|] eqn:Hvw; [| exists []; by rewrite app_nil_r].
  rewrite bind_bind. unfold bind at 1. unfold put_view.
  unfold bind at 1. unfold emit.
  set (vw1 := {| view_model := view_model vw; view_props := view_props vw;
                 classList := classList vw ++ ["odysis-scene"];
                 displayed := displayed vw |}).
  set (s1 := with_log _ _).
  assert (Hvw1 : views s1 !! v = Some vw1) by (by apply (lookup_insert_Some _ _ vw)).
  rewrite (bind_Ok _ _ _ _ _ (this_model_Ok _ _ _ Hvw1)).
  destruct (bind_reads_cases (get_prop (JModel (view_model vw1)) "scene")
    (fun scene => let! renderer := new_ Renderer [JElement v; scene] (IRenderer false) in
                  set_view_prop v "renderer" renderer ;;
                  displayed_then v (job_displayed v)) s1 (reads_get_prop _ _))
    as [(scene & Hscene & ->)|(e & ->)];
    [| exists [ClassListAdd v "odysis-scene"]; split; [reflexivity | repeat constructor]].
  unfold bind at 1. unfold new_.
  set (r := length (heap s1)). set (s2 := with_log _ _).
  assert (Hvw2 : views s2 !! v = Some vw1) by exact Hvw1.
  unfold set_view_prop. rewrite !bind_bind. unfold bind at 1. unfold get_view. rewrite Hvw2.
  unfold bind at 1. unfold put_view.
  set (vw3 := {| view_model := view_model vw1;
                 view_props := <["renderer" := JRef r]> (view_props vw1);
                 classList := classList vw1; displayed := displayed vw1 |}).
  set (s3 := with_views _ s2).
  assert (Hvw3 : views s3 !! v = Some vw3) by (by apply (lookup_insert_Some _ _ vw1)).
  unfold displayed_then. unfold bind at 1. unfold get_view. rewrite Hvw3.
  exists [ClassListAdd v "odysis-scene"; New Renderer [JElement v; scene] r].
  split; [| repeat constructor].
  destruct (resolved (displayed vw3)); unfold s3, s2, s1; js_red; by rewrite <- app_assoc.
Qed.

(** C8. In the log of any sequence of host tasks from the initial state:
    every [initialize] of a renderer comes after the display signal of the
    view for whose element the renderer was made; every assignment of a
    renderer's [backgroundColor] comes after that renderer's [initialize];
    and the view's resize and background-color listeners are registered after
    the initialization of the view's renderer. [render] itself, whatever the
    state, adds the class and makes the renderer, and initializes nothing. *)
Theorem renderer_initialized_after_displayed (acts : list Action) :
  (forall l1 e l2, log (run acts initial_state) = l1 ++ e :: l2 ->
     (forall r args, e = Call r "initialize" args ->
        exists v sc, Displayed v ∈ l1 /\ New Renderer [JElement v; sc] r ∈ l1) /\
     (forall r c, e = Assign r "backgroundColor" c -> Call r "initialize" [] ∈ l1) /\
     (forall type v, e = WindowAddEventListener type v -> initialized_view l1 v) /\
     (forall i n v, e = Listen i n (cb_background_color v) -> initialized_view l1 v)) /\
  (forall v s, exists l,
     log (final_state (SceneView_render v s)) = log s ++ l /\
     Forall (fun e => match e with
                      | ClassListAdd _ _ | New Renderer _ _ => True
                      | _ => False
                      end) l).
Proof.
  split; [| intros v s; apply render_log].
  intros l1 e l2 Heq.
  pose proof (inv_log _ (run_ok acts _ Inv_initial) l1 e l2 Heq) as Hg.
  repeat split.
  - intros r args ->. by apply Hg.
  - intros r c ->. by apply Hg.
  - intros type v ->. exact Hg.
  - intros i n v ->. exact Hg.
Qed.

End Tasks.

(** ** The listeners that [initialize] registers, and what they commit *)

(** The listeners of a model that are its own: all but those of
    change:background_color, which the views register on it. *)
Definition own_events (m : Model) : list (string * Callback) :=
  filter (fun e => e.1 <> "change:background_color") (events m).

(** The models stay, each of its class and with the listeners of its own. *)
Definition own_kept (s s' : State) : Prop :=
  length (models s') = length (models s) /\
  forall i m, models s !! i = Some m ->
    exists m', models s' !! i = Some m' /\ model_class m' = model_class m /\
               own_events m' = own_events m.

Lemma own_kept_refl s : own_kept s s.
Proof. split; [reflexivity |]. intros i m Hm. by exists m. Qed.

Lemma own_kept_trans s1 s2 s3 : own_kept s1 s2 -> own_kept s2 s3 -> own_kept s1 s3.
Proof.
  intros [Hl1 H1] [Hl2 H2]. split; [congruence |]. intros i m Hm.
  destruct (H1 _ _ Hm) as (m2 & Hm2 & Hc2 & He2).
  destruct (H2 _ _ Hm2) as (m3 & Hm3 & Hc3 & He3).
  exists m3. split; [exact Hm3 |]. split; congruence.
Qed.

(** The models are the same. *)
Definition same_models (s s' : State) : Prop := models s' = models s.

Lemma same_models_refl s : same_models s s.
Proof. reflexivity. Qed.

Lemma same_models_trans s1 s2 s3 : same_models s1 s2 -> same_models s2 s3 -> same_models s1 s3.
Proof. unfold same_models. congruence. Qed.

Lemma same_models_kept s s' : same_models s s' -> own_kept s s'.
Proof. unfold same_models. intros E. split; [by rewrite E |]. intros i m Hm. exists m. by rewrite E. Qed.

Abbreviation quiet := (within same_models).
Abbreviation keeps_own := (within own_kept).

Lemma quiet_keeps {A} (m : M A) : quiet m -> keeps_own m.
Proof. intros Hm s. apply same_models_kept, Hm. Qed.

Lemma quiet_reads {A} (m : M A) : reads m -> quiet m.
Proof. apply within_reads, same_models_refl. Qed.

Lemma quiet_bind {A B} (m : M A) (k : A -> M B) :
  quiet m -> (forall a, quiet (k a)) -> quiet (bind m k).
Proof. apply within_bind, same_models_trans. Qed.

Lemma quiet_mapM {A B} (f : A -> M B) xs : (forall x, quiet (f x)) -> quiet (mapM f xs).
Proof. apply within_mapM; [apply same_models_refl | apply same_models_trans]. Qed.

Lemma quiet_for_of {A} (xs : list A) body :
  (forall x, x ∈ xs -> quiet (body x)) -> quiet (for_of xs body).
Proof. apply within_for_of; [apply same_models_refl | apply same_models_trans]. Qed.

Lemma keeps_own_bind {A B} (m : M A) (k : A -> M B) :
  keeps_own m -> (forall a, keeps_own (k a)) -> keeps_own (bind m k).
Proof. apply within_bind, own_kept_trans. Qed.

Lemma keeps_own_for_of {A} (xs : list A) body :
  (forall x, x ∈ xs -> keeps_own (body x)) -> keeps_own (for_of xs body).
Proof. apply within_for_of; [apply own_kept_refl | apply own_kept_trans]. Qed.

Ltac quiet_tac :=
  repeat first
    [ apply quiet_reads; solve [eauto 10 with reads]
    | apply quiet_mapM; intros ?
    | apply quiet_for_of; intros ? ?
    | apply quiet_bind; [| intros ?]
    | match goal with |- within _ (match ?x with _ => _ end) => destruct x end
    | match goal with |- within _ (if ?b then _ else _) => destruct b end
    | solve [intros ?; reflexivity] ].

Section Registration.
Context `{Env}.

Lemma registered_own cls :
  filter (fun e : string * Callback => e.1 <> "change:background_color") (registered cls)
  = registered cls.
Proof. by destruct cls. Qed.

Lemma own_events_add l m :
  own_events (add_events l m)
  = own_events m ++ filter (fun e => e.1 <> "change:background_color") l.
Proof. unfold own_events. cbn [add_events events]. apply filter_app. Qed.

Lemma listeners_own m name :
  name <> "change:background_color" ->
  listeners name m = (filter (fun e => e.1 = name) (own_events m)).*2.
Proof.
  intros Hne. unfold listeners, own_events. f_equal.
  induction (events m) as [|e l IH]; [reflexivity |].
  rewrite !filter_cons. destruct (decide (e.1 = name)) as [E|E].
  - rewrite decide_True by congruence. rewrite filter_cons, decide_True by exact E.
    by rewrite IH.
  - destruct (decide (e.1 <> "change:background_color")); [| exact IH].
    rewrite filter_cons, decide_False by exact E. exact IH.
Qed.

(** A change on a model with its own listeners: the attribute is stored and
    the listeners of the class run. *)
Lemma change_own s self m key v :
  models s !! self = Some m ->
  own_events m = registered (model_class m) ->
  key <> "background_color" ->
  change self key v s =
  for_of (filter (fun e => e.1 = "change:" ++ key)%string (registered (model_class m))).*2
    (fun cb => run_callback cb self) (stored self key v m s).
Proof.
  intros Hm Hown Hne. rewrite (change_eq _ _ _ _ _ Hm).
  rewrite listeners_own, Hown; [reflexivity |].
  intros E. cbn in E. apply Hne. by injection E.
Qed.

(** *** What leaves the models, and what leaves their own listeners *)

Lemma quiet_assign target field v : quiet (assign target field v).
Proof. unfold assign. quiet_tac. Qed.

Lemma quiet_setInput block input : quiet (setInput block input).
Proof. unfold setInput. quiet_tac. Qed.

Lemma quiet_addChild scene block : quiet (addChild scene block).
Proof. unfold addChild. quiet_tac. Qed.

Lemma quiet_new_Vector3 x y z : quiet (new_Vector3 x y z).
Proof. unfold new_Vector3. quiet_tac. Qed.

Lemma quiet_updateChildren self : quiet (SceneModel_updateChildren self).
Proof.
  unfold SceneModel_updateChildren.
  apply quiet_bind; [apply quiet_reads; eauto with reads | intros children].
  apply quiet_bind; [apply quiet_reads; eauto with reads | intros blocks].
  apply quiet_bind; [apply quiet_reads; eauto with reads | intros radii]. cbv zeta.
  apply quiet_bind; [apply quiet_new_Vector3 | intros scale].
  apply quiet_for_of. intros block _.
  apply quiet_bind; [apply quiet_assign | intros _].
  apply quiet_bind; [apply quiet_reads; eauto with reads | intros scene].
  apply quiet_addChild.
Qed.

Lemma quiet_updateInput self : quiet (EffectModel_updateInput self).
Proof.
  unfold EffectModel_updateInput.
  apply quiet_bind; [apply quiet_reads; eauto with reads | intros block].
  apply quiet_bind; [apply quiet_reads; eauto with reads | intros d].
  destruct (negb _); [| apply quiet_reads, reads_ret].
  apply quiet_bind; [apply quiet_reads; eauto with reads | intros block'].
  apply quiet_bind; [apply quiet_reads, reads_this_input | intros input].
  apply quiet_setInput.
Qed.

Lemma quiet_new_block c args : quiet (new_block c args).
Proof.
  unfold new_block.
  apply quiet_bind; [apply quiet_reads, reads_get_heap | intros h s; reflexivity].
Qed.

Lemma quiet_createBlock self : quiet (createBlock self).
Proof.
  unfold createBlock, PolyMeshModel_createBlock, TetraMeshModel_createBlock,
    IsoColorModel_createBlock, IsoSurfaceModel_createBlock, ThresholdModel_createBlock.
  apply quiet_bind; [apply quiet_reads; eauto with reads | intros cls].
  destruct cls; try (apply quiet_reads, reads_throw);
    repeat first
      [ apply quiet_new_block
      | apply quiet_bind;
        [apply quiet_reads;
         unfold IsoColorModel_input, IsoSurfaceModel_input, ThresholdModel_input,
           BlockModel_vertices, PolyMeshModel_triangleIndices,
           TetraMeshModel_tetrahedronIndices, EffectModel_parent, IsoColorModel_min,
           IsoColorModel_max, IsoSurfaceModel_value, ThresholdModel_min, ThresholdModel_max;
         first [apply reads_BlockModel_data | apply reads_BlockModel_environmentMeshes
               | solve [eauto 10 with reads]]
        | intros ?] ].
Qed.

(** Every listener leaves the models as they are. *)
Lemma quiet_callback cb self : quiet (run_callback cb self).
Proof.
  destruct cb; cbn [run_callback];
    try apply quiet_updateInput; try apply quiet_updateChildren;
    (apply quiet_bind; [apply quiet_reads; unfold view_prop; eauto with reads | intros ?]);
    (apply quiet_bind; [apply quiet_reads; unfold this_model; eauto 10 with reads | intros ?]);
    try (apply quiet_bind; [apply quiet_reads; eauto with reads | intros ?]);
    apply quiet_assign.
Qed.

Lemma kept_put_model self m m' s :
  models s !! self = Some m -> model_class m' = model_class m ->
  own_events m' = own_events m ->
  own_kept s (final_state (put_model self m' s)).
Proof.
  intros Hm Hc He. unfold put_model. cbn [final_state]. split.
  - cbn [models with_models]. apply length_insert.
  - intros i mi Hi. cbn [models with_models]. destruct (decide (i = self)) as [->|Hne].
    + rewrite Hm in Hi. injection Hi as <-. exists m'.
      split; [by apply (lookup_insert_Some _ _ m) | by split].
    + exists mi. by rewrite list_lookup_insert_ne by congruence.
Qed.

Lemma keeps_own_set_this_prop self name v : keeps_own (set_this_prop self name v).
Proof.
  intros s. unfold set_this_prop. unfold bind, get_model.
  destruct (models s !! self) as [m|] eqn:Hm; [| apply own_kept_refl].
  by apply (kept_put_model self m).
Qed.

Lemma keeps_own_on_background self cb :
  keeps_own (on self "change:background_color" cb).
Proof.
  intros s. unfold on. unfold bind at 1. unfold get_model.
  destruct (models s !! self) as [m|] eqn:Hm; [| apply own_kept_refl].
  unfold bind, put_model, emit. cbn [final_state].
  pose proof (kept_put_model self m
    {| model_class := model_class m; attributes := attributes m;
       events := events m ++ [("change:background_color", cb)]; props := props m |}
    s Hm eq_refl) as Hput.
  unfold put_model in Hput. cbn [final_state] in Hput.
  destruct Hput as [Hlen Hall].
  - unfold own_events. cbn [events]. rewrite filter_app, filter_cons, decide_False
      by (intros Hne; by apply Hne).
    by rewrite filter_nil, app_nil_r.
  - split; [exact Hlen | exact Hall].
Qed.

Lemma keeps_own_change self key v : keeps_own (change self key v).
Proof.
  intros s. unfold change. unfold bind at 1. unfold get_model.
  destruct (models s !! self) as [m|] eqn:Hm; [| apply own_kept_refl].
  unfold bind at 1. unfold put_model.
  eapply own_kept_trans;
    [exact (kept_put_model self m
              {| model_class := model_class m; attributes := <[key := v]> (attributes m);
                 events := events m; props := props m |} s Hm eq_refl eq_refl) |].
  apply quiet_keeps. unfold trigger.
  apply quiet_bind; [apply quiet_reads, reads_get_model | intros m'].
  apply quiet_for_of. intros cb _. apply quiet_callback.
Qed.

(** *** The view's code and the models *)

Lemma quiet_Renderer_method x method : quiet (Renderer_method x method).
Proof. unfold Renderer_method. quiet_tac. Qed.

Lemma quiet_SceneView_resize v : quiet (SceneView_resize v).
Proof.
  unfold SceneView_resize, Renderer_resize.
  apply quiet_bind; [apply quiet_reads; unfold view_prop; eauto with reads | intros x].
  apply quiet_Renderer_method.
Qed.

Lemma quiet_resolve_displayed v : quiet (resolve_displayed v).
Proof. unfold resolve_displayed. quiet_tac. Qed.

Lemma quiet_set_view_prop v name x : quiet (set_view_prop v name x).
Proof. unfold set_view_prop. quiet_tac. Qed.

Lemma quiet_processPhosphorMessage v msg_type :
  quiet (SceneView_processPhosphorMessage v msg_type).
Proof.
  unfold SceneView_processPhosphorMessage, DOMWidgetView_processPhosphorMessage.
  apply quiet_bind.
  - destruct (decide _); [apply quiet_resolve_displayed | apply quiet_reads, reads_ret].
  - intros _. destruct (decide _); [apply quiet_SceneView_resize | apply quiet_reads, reads_ret].
Qed.

Lemma quiet_pWidget_dispose v k : quiet k -> quiet (pWidget_dispose v k).
Proof.
  intros Hk. unfold pWidget_dispose.
  apply quiet_bind; [apply quiet_reads; unfold view_prop; eauto with reads | intros d].
  assert (Hset : quiet (set_view_prop v "pWidget.isDisposed" (JBool true) ;; k))
    by (apply quiet_bind; [apply quiet_set_view_prop | intros _; exact Hk]).
  destruct d as [| |[]|?|?|?|?|?|? ?|?|?|?]; try exact Hset.
  apply quiet_reads, reads_ret.
Qed.

Lemma quiet_remove_body v k : quiet k -> quiet (SceneView_remove_body v k).
Proof.
  intros Hk. unfold SceneView_remove_body, Renderer_dispose.
  apply quiet_bind; [apply quiet_reads; unfold view_prop; eauto with reads | intros x].
  apply quiet_bind; [apply quiet_Renderer_method | intros _; exact Hk].
Qed.

Lemma quiet_SceneView_remove v : quiet (SceneView_remove v).
Proof.
  unfold SceneView_remove, DOMWidgetView_remove.
  do 2 (apply quiet_remove_body, quiet_pWidget_dispose).
  apply quiet_reads, reads_throw.
Qed.

Lemma quiet_SceneView_render v : quiet (SceneView_render v).
Proof.
  unfold SceneView_render, classList_add, displayed_then.
  apply quiet_bind; [quiet_tac | intros _].
  apply quiet_bind; [apply quiet_reads; unfold this_model; eauto with reads | intros model].
  apply quiet_bind; [apply quiet_reads, reads_get_prop | intros scene].
  apply quiet_bind; [intros s; reflexivity | intros renderer].
  apply quiet_bind; [apply quiet_set_view_prop | intros _].
  quiet_tac.
Qed.

Lemma keeps_own_render_displayed v : keeps_own (SceneView_render_displayed v).
Proof.
  unfold SceneView_render_displayed, SceneView_initEventListeners, window_addEventListener.
  apply keeps_own_bind;
    [apply quiet_keeps, quiet_reads; unfold view_prop; eauto with reads | intros x].
  apply keeps_own_bind;
    [apply quiet_keeps; unfold Renderer_initialize; quiet_tac | intros _].
  apply keeps_own_bind;
    [apply quiet_keeps, quiet_reads; unfold view_prop; eauto with reads | intros y].
  apply keeps_own_bind;
    [apply quiet_keeps, quiet_reads; unfold this_model; eauto with reads | intros model].
  apply keeps_own_bind; [apply quiet_keeps, quiet_reads, reads_get | intros c].
  apply keeps_own_bind; [apply quiet_keeps, quiet_assign | intros _].
  apply keeps_own_bind; [apply quiet_keeps; quiet_tac | intros _].
  apply keeps_own_bind;
    [apply quiet_keeps, quiet_reads; unfold this_model; eauto with reads | intros model'].
  apply keeps_own_on_background.
Qed.

Lemma keeps_own_drain_jobs : keeps_own drain_jobs.
Proof.
  intros s. unfold drain_jobs.
  eapply own_kept_trans; [apply (same_models_kept s (with_jobs (fun _ => []) s)); reflexivity |].
  apply keeps_own_for_of. intros [v] _ s0. unfold catch. cbn [final_state run_job].
  apply keeps_own_render_displayed.
Qed.

(** *** The invariant of the models' own listeners *)

(** Every model has no listener of its own yet, or those that [initialize]
    registers for its class. *)
Definition Registered (s : State) : Prop :=
  forall i m, models s !! i = Some m ->
    own_events m = [] \/ own_events m = registered (model_class m).

Lemma Registered_kept s s' : own_kept s s' -> Registered s -> Registered s'.
Proof.
  intros [Hlen Hall] HR i m' Hm'.
  assert (Hlt : i < length (models s)) by (rewrite <- Hlen; by eapply lookup_lt_Some).
  destruct (lookup_lt_is_Some_2 _ _ Hlt) as (m & Hm).
  destruct (Hall _ _ Hm) as (m2 & Hm2 & Hc & He).
  rewrite Hm' in Hm2. injection Hm2 as <-. rewrite He, Hc. by apply (HR i).
Qed.

(** The model [i] is of class [cls] and has no listener of its own. *)
Definition unregistered (i : nat) (cls : ModelClass) (s : State) : Prop :=
  Registered s /\
  exists m, models s !! i = Some m /\ model_class m = cls /\ own_events m = [].

Lemma unregistered_kept i cls s s' :
  own_kept s s' -> unregistered i cls s -> unregistered i cls s'.
Proof.
  intros Hk [HR (m & Hm & Hc & He)]. split; [by apply (Registered_kept s) |].
  destruct (proj2 Hk _ _ Hm) as (m' & Hm' & Hc' & He').
  exists m'. split; [exact Hm' |]. split; congruence.
Qed.

(** Code that, run on a model without listeners of its own, leaves every
    model with none or with those of its class. *)
Definition registers (i : nat) (cls : ModelClass) {A} (k : M A) : Prop :=
  forall s, unregistered i cls s -> Registered (final_state (k s)).

Lemma registers_bind i cls {A B} (m : M A) (k : A -> M B) :
  keeps_own m -> (forall a, registers i cls (k a)) -> registers i cls (bind m k).
Proof.
  intros Hm Hk s Hs. unfold bind. specialize (Hm s).
  destruct (m s) as [a s1|e s1]; cbn [final_state] in *.
  - apply Hk. by apply (unregistered_kept i cls s).
  - apply (Registered_kept s); [exact Hm | apply Hs].
Qed.

Lemma registers_kept i cls {A} (k : M A) : keeps_own k -> registers i cls k.
Proof. intros Hk s Hs. apply (Registered_kept s); [apply Hk | apply Hs]. Qed.

(** The state after the listeners [l] were registered on the model [i]. *)
Lemma Registered_listening i m l s :
  Registered s -> models s !! i = Some m -> own_events m = [] ->
  l = registered (model_class m) ->
  Registered (listening i l m s).
Proof.
  intros HR Hm He -> j mj Hj. unfold listening in Hj. cbn [models with_models with_log] in Hj.
  destruct (decide (j = i)) as [->|Hne].
  - rewrite (lookup_insert_Some _ _ _ _ Hm) in Hj. injection Hj as <-. right.
    rewrite own_events_add, He, registered_own. reflexivity.
  - rewrite list_lookup_insert_ne in Hj by congruence. by apply (HR j).
Qed.

Lemma registers_on i cls name cb :
  registered cls = [(name, cb)] -> registers i cls (on i name cb).
Proof.
  intros Hreg s [HR (m & Hm & Hc & He)]. rewrite (on_Ok _ _ _ _ _ Hm). cbn [final_state].
  apply Registered_listening; try assumption. by rewrite Hc.
Qed.

Lemma registers_initEventListeners i cls : registers i cls (initEventListeners i).
Proof.
  intros s [HR (m & Hm & Hc & He)].
  assert (Hthrow : forall e, initEventListeners i s = Throw e s -> Registered (final_state (initEventListeners i s)))
    by (intros e ->; exact HR).
  destruct (model_class m) eqn:Hcls.
  1,2,8: apply (Hthrow TypeError); unfold initEventListeners;
    by rewrite (bind_Ok _ _ _ _ _ (this_class_Ok _ _ _ Hm)), Hcls.
  1: rewrite (initEventListeners_Ok _ _ _ PolyMesh Hm) by (rewrite Hcls; in_list).
  2: rewrite (initEventListeners_Ok _ _ _ TetraMesh Hm) by (rewrite Hcls; in_list).
  3: rewrite (initEventListeners_Ok _ _ _ IsoColor Hm) by (rewrite Hcls; in_list).
  4: rewrite (initEventListeners_Ok _ _ _ IsoSurface Hm) by (rewrite Hcls; in_list).
  5: rewrite (initEventListeners_Ok _ _ _ Threshold Hm) by (rewrite Hcls; in_list).
  all: cbn [final_state]; by apply Registered_listening.
Qed.

Lemma registers_initialize i cls : registers i cls (initialize i).
Proof.
  intros s Hs. destruct Hs as [HR (m & Hm & Hc & He)].
  assert (Hs : unregistered i cls s) by (split; [exact HR | by exists m]).
  unfold initialize. rewrite (bind_Ok _ _ _ _ _ (this_class_Ok _ _ _ Hm)), Hc.
  clear HR m Hm Hc He. revert s Hs.
  change (registers i cls
            match cls with
            | ComponentModel => ComponentModel_initialize i
            | DataModel => DataModel_initialize i
            | PolyMeshModel | TetraMeshModel | IsoColorModel | IsoSurfaceModel
            | ThresholdModel => BlockModel_initialize i
            | SceneModel => SceneModel_initialize i
            end).
  assert (Hblock : registers i cls (BlockModel_initialize i)).
  { unfold BlockModel_initialize, WidgetModel_initialize.
    apply registers_bind; [apply quiet_keeps, quiet_reads, reads_ret | intros _].
    apply registers_bind; [apply quiet_keeps, quiet_createBlock | intros b].
    apply registers_bind; [apply keeps_own_set_this_prop | intros _].
    apply registers_bind; [apply quiet_keeps, quiet_reads, reads_this_prop | intros block].
    apply registers_bind; [apply quiet_keeps, quiet_reads, reads_get | intros c].
    apply registers_bind; [apply quiet_keeps, quiet_assign | intros _].
    apply registers_initEventListeners. }
  destruct cls; try exact Hblock.
  - unfold ComponentModel_initialize, WidgetModel_initialize.
    apply registers_bind; [apply quiet_keeps, quiet_reads, reads_ret | intros _].
    apply registers_bind; [apply quiet_keeps, quiet_reads, reads_get | intros name].
    apply registers_bind; [apply quiet_keeps, quiet_reads, reads_get | intros array].
    apply registers_bind; [apply quiet_keeps; intros s; reflexivity | intros component].
    apply registers_bind; [apply keeps_own_set_this_prop | intros _].
    by apply registers_on.
  - unfold DataModel_initialize, WidgetModel_initialize.
    apply registers_kept.
    apply keeps_own_bind; [apply quiet_keeps, quiet_reads, reads_ret | intros _].
    apply keeps_own_bind; [apply quiet_keeps, quiet_reads, reads_get | intros cs].
    apply keeps_own_bind; [apply quiet_keeps, quiet_reads; eauto with reads | intros l].
    apply keeps_own_bind; [apply quiet_keeps, quiet_reads, reads_get | intros name].
    apply keeps_own_bind; [apply quiet_keeps; intros s; reflexivity | intros data].
    apply keeps_own_set_this_prop.
  - unfold SceneModel_initialize, WidgetModel_initialize.
    apply registers_bind; [apply quiet_keeps, quiet_reads, reads_ret | intros _].
    apply registers_bind; [apply quiet_keeps; intros s; reflexivity | intros scene].
    apply registers_bind; [apply keeps_own_set_this_prop | intros _].
    apply registers_bind; [apply quiet_keeps, quiet_updateChildren | intros _].
    by apply registers_on.
Qed.

Lemma Registered_new_model cls attrs s :
  Registered s -> Registered (final_state (new_model cls attrs s)).
Proof.
  intros HR. unfold new_model. unfold bind at 1. rewrite final_then_ret.
  apply (registers_initialize _ cls). split.
  - intros i m Hi. cbn [models with_models] in Hi.
    apply lookup_app_Some in Hi as [Hi|[_ Hi]]; [by apply (HR i) |].
    apply list_lookup_singleton_Some in Hi as [_ <-]. by left.
  - eexists. split; [cbn [models with_models]; by apply list_lookup_middle |]. by split.
Qed.

Lemma Registered_run_action a s : Registered s -> Registered (final_state (run_action a s)).
Proof.
  intros HR. destruct a; cbn [run_action].
  - rewrite (final_bind_ret _ (fun _ => tt)). by apply Registered_new_model.
  - rewrite (final_bind_ret _ (fun _ => tt)). unfold create_view. unfold bind at 1.
    rewrite final_then_ret.
    match goal with |- Registered (final_state (SceneView_render _ ?st)) => set (s1 := st) end.
    apply (Registered_kept s1); [apply quiet_keeps, quiet_SceneView_render | exact HR].
  - apply (Registered_kept s); [apply quiet_keeps, quiet_resolve_displayed | exact HR].
  - apply (Registered_kept s); [apply keeps_own_change | exact HR].
  - apply (Registered_kept s); [| exact HR]. apply quiet_keeps. unfold window_resize.
    intros s0. apply (quiet_for_of _ (fun view => catch (SceneView_resize view))).
    intros view _ s1. unfold catch. cbn [final_state]. apply quiet_SceneView_resize.
  - apply (Registered_kept s); [apply quiet_keeps, quiet_processPhosphorMessage | exact HR].
  - apply (Registered_kept s); [apply quiet_keeps, quiet_SceneView_remove | exact HR].
Qed.

Lemma Registered_run acts : forall s, Registered s -> Registered (run acts s).
Proof.
  induction acts as [|a acts IH]; intros s HR; [exact HR |].
  cbn [run foldl]. apply IH. unfold task, bind, catch.
  apply (Registered_kept (final_state (run_action a s))); [apply keeps_own_drain_jobs |].
  by apply Registered_run_action.
Qed.

(** *** What [initialize] registers *)

(** The models stay, each of its class and with all its listeners. *)
Definition same_listeners (s s' : State) : Prop :=
  forall i m, models s !! i = Some m ->
    exists m', models s' !! i = Some m' /\ model_class m' = model_class m /\
               events m' = events m.

Lemma same_listeners_refl s : same_listeners s s.
Proof. intros i m Hm. by exists m. Qed.

Lemma same_listeners_trans s1 s2 s3 :
  same_listeners s1 s2 -> same_listeners s2 s3 -> same_listeners s1 s3.
Proof.
  intros H1 H2 i m Hm.
  destruct (H1 _ _ Hm) as (m2 & Hm2 & Hc2 & He2).
  destruct (H2 _ _ Hm2) as (m3 & Hm3 & Hc3 & He3).
  exists m3. split; [exact Hm3 |]. split; congruence.
Qed.

Lemma same_models_listeners s s' : same_models s s' -> same_listeners s s'.
Proof. unfold same_models. intros E i m Hm. exists m. by rewrite E. Qed.

Abbreviation keeps_listeners := (within same_listeners).

Lemma quiet_keeps_listeners {A} (m : M A) : quiet m -> keeps_listeners m.
Proof. intros Hm s. apply same_models_listeners, Hm. Qed.

Lemma keeps_listeners_set_this_prop self name v :
  keeps_listeners (set_this_prop self name v).
Proof.
  intros s. unfold set_this_prop. unfold bind, get_model.
  destruct (models s !! self) as [m|] eqn:Hm; [| apply same_listeners_refl].
  unfold put_model. cbn [final_state]. intros i mi Hi. cbn [models with_models].
  destruct (decide (i = self)) as [->|Hne].
  - rewrite Hm in Hi. injection Hi as <-. eexists.
    split; [by apply (lookup_insert_Some _ _ m) | by split].
  - exists mi. by rewrite list_lookup_insert_ne by congruence.
Qed.

(** Code that, when it returns, has added the listeners of the class to those
    of the model [i]. *)
Definition registering (i : nat) (cls : ModelClass) {A} (k : M A) : Prop :=
  forall s m a s', models s !! i = Some m -> model_class m = cls -> k s = Ok a s' ->
    exists m', models s' !! i = Some m' /\ model_class m' = cls /\
               events m' = events m ++ registered cls.

Lemma registering_bind i cls {A B} (m : M A) (k : A -> M B) :
  keeps_listeners m -> (forall a, registering i cls (k a)) -> registering i cls (bind m k).
Proof.
  intros Hm Hk s mi b s' Hi Hc Hrun. unfold bind in Hrun. specialize (Hm s).
  destruct (m s) as [a s1|e s1]; [| discriminate]. cbn [final_state] in Hm.
  destruct (Hm _ _ Hi) as (m1 & Hm1 & Hc1 & He1).
  destruct (Hk a s1 m1 b s' Hm1) as (m' & Hm' & Hc' & He'); [congruence | exact Hrun |].
  exists m'. split; [exact Hm' |]. split; congruence.
Qed.

Lemma registering_on i cls name cb :
  registered cls = [(name, cb)] -> registering i cls (on i name cb).
Proof.
  intros Hreg s m a s' Hm Hc Hrun. rewrite (on_Ok _ _ _ _ _ Hm) in Hrun.
  injection Hrun as _ <-. eexists.
  split; [unfold listening; cbn [models with_models with_log];
          by apply (lookup_insert_Some _ _ m) |].
  split; [exact Hc |]. cbn [add_events events]. by rewrite Hreg.
Qed.

Lemma registering_initEventListeners i cls : registering i cls (initEventListeners i).
Proof.
  intros s m a s' Hm Hc Hrun.
  assert (Hblock : forall c, (model_class m, c) ∈ block_classes ->
            exists m', models s' !! i = Some m' /\ model_class m' = cls /\
                       events m' = events m ++ registered cls).
  { intros c Hin. rewrite (initEventListeners_Ok _ _ _ c Hm Hin) in Hrun.
    injection Hrun as _ <-. eexists.
    split; [unfold listening; cbn [models with_models with_log];
            by apply (lookup_insert_Some _ _ m) |].
    split; [exact Hc |]. cbn [add_events events]. by rewrite Hc. }
  destruct cls.
  1,2,8: unfold initEventListeners in Hrun;
    rewrite (bind_Ok _ _ _ _ _ (this_class_Ok _ _ _ Hm)), Hc in Hrun; discriminate.
  - apply (Hblock PolyMesh). rewrite Hc. in_list.
  - apply (Hblock TetraMesh). rewrite Hc. in_list.
  - apply (Hblock IsoColor). rewrite Hc. in_list.
  - apply (Hblock IsoSurface). rewrite Hc. in_list.
  - apply (Hblock Threshold). rewrite Hc. in_list.
Qed.

Lemma registering_initialize i cls : registering i cls (initialize i).
Proof.
  intros s m a s' Hm Hc. unfold initialize.
  rewrite (bind_Ok _ _ _ _ _ (this_class_Ok _ _ _ Hm)), Hc.
  revert s m a s' Hm Hc.
  change (registering i cls
            match cls with
            | ComponentModel => ComponentModel_initialize i
            | DataModel => DataModel_initialize i
            | PolyMeshModel | TetraMeshModel | IsoColorModel | IsoSurfaceModel
            | ThresholdModel => BlockModel_initialize i
            | SceneModel => SceneModel_initialize i
            end).
  assert (Hblock : registering i cls (BlockModel_initialize i)).
  { unfold BlockModel_initialize, WidgetModel_initialize.
    apply registering_bind; [apply quiet_keeps_listeners, quiet_reads, reads_ret | intros _].
    apply registering_bind; [apply quiet_keeps_listeners, quiet_createBlock | intros b].
    apply registering_bind; [apply keeps_listeners_set_this_prop | intros _].
    apply registering_bind;
      [apply quiet_keeps_listeners, quiet_reads, reads_this_prop | intros block].
    apply registering_bind; [apply quiet_keeps_listeners, quiet_reads, reads_get | intros c].
    apply registering_bind; [apply quiet_keeps_listeners, quiet_assign | intros _].
    apply registering_initEventListeners. }
  destruct cls; try exact Hblock.
  - unfold ComponentModel_initialize, WidgetModel_initialize.
    apply registering_bind; [apply quiet_keeps_listeners, quiet_reads, reads_ret | intros _].
    apply registering_bind; [apply quiet_keeps_listeners, quiet_reads, reads_get | intros name].
    apply registering_bind;
      [apply quiet_keeps_listeners, quiet_reads, reads_get | intros array].
    apply registering_bind;
      [apply quiet_keeps_listeners; intros s; reflexivity | intros component].
    apply registering_bind; [apply keeps_listeners_set_this_prop | intros _].
    by apply registering_on.
  - unfold DataModel_initialize, WidgetModel_initialize.
    assert (Hkeeps : keeps_listeners
              (ret tt ;;
               let! cs := get i "components" in
               let! components := array_map get_prop "component" cs in
               let! name := get i "name" in
               let! data := new_ Data [name; components] IPlain in
               set_this_prop i "data" data)).
    { apply within_bind; [apply same_listeners_trans | |];
        [apply quiet_keeps_listeners, quiet_reads, reads_ret | intros _].
      apply within_bind; [apply same_listeners_trans | |];
        [apply quiet_keeps_listeners, quiet_reads, reads_get | intros cs].
      apply within_bind; [apply same_listeners_trans | |];
        [apply quiet_keeps_listeners, quiet_reads; eauto with reads | intros l].
      apply within_bind; [apply same_listeners_trans | |];
        [apply quiet_keeps_listeners, quiet_reads, reads_get | intros name].
      apply within_bind; [apply same_listeners_trans | |];
        [apply quiet_keeps_listeners; intros s; reflexivity | intros data].
      apply keeps_listeners_set_this_prop. }
    intros s m a s' Hm Hc Hrun. specialize (Hkeeps s). rewrite Hrun in Hkeeps.
    destruct (Hkeeps _ _ Hm) as (m' & Hm' & Hc' & He').
    exists m'. split; [exact Hm' |]. split; [congruence |].
    cbn [registered]. by rewrite app_nil_r.
  - unfold SceneModel_initialize, WidgetModel_initialize.
    apply registering_bind; [apply quiet_keeps_listeners, quiet_reads, reads_ret | intros _].
    apply registering_bind;
      [apply quiet_keeps_listeners; intros s; reflexivity | intros scene].
    apply registering_bind; [apply keeps_listeners_set_this_prop | intros _].
    apply registering_bind; [apply quiet_keeps_listeners, quiet_updateChildren | intros _].
    by apply registering_on.
Qed.

(** *** The changes of the properties that the spec names *)

(** The properties that the spec names, and the attribute of each. *)
Definition spec_mutable_properties : list string :=
  ["vertices"; "data"; "default_color"; "default_alpha"; "min"; "max"; "value";
   "input"; "children"].

Lemma change_commits_own s self m r o key field v :
  models s !! self = Some m ->
  own_events m = registered (model_class m) ->
  (model_class m, key, field) ∈ committed ->
  props m !! "block" = Some (JRef r) ->
  heap s !! r = Some o ->
  change self key v s =
  Ok tt (with_log (fun l => l ++ [Assign r field v])
           (with_heap (fun h => <[r := with_field field v o]> h) (stored self key v m s))).
Proof.
  intros Hm Hev Hin Hb Ho.
  unfold committed in Hin. rewrite !elem_of_cons, elem_of_nil in Hin.
  repeat (destruct Hin as [Hin|Hin];
          [injection Hin as Hc -> ->;
           rewrite (change_own _ _ _ _ v Hm Hev) by discriminate; rewrite Hc;
           match goal with
           | |- for_of ?l _ _ = _ =>
               let l' := eval vm_compute in l in change l with l'
           end;
           rewrite for_of_one; cbn [run_callback];
           by apply commit_Ok |]).
  destruct Hin.
Qed.

Lemma change_input_own s self m c r o d radius v :
  models s !! self = Some m ->
  (model_class m, c) ∈ effect_classes ->
  own_events m = registered (model_class m) ->
  props m !! "block" = Some (JRef r) ->
  heap s !! r = Some o ->
  obj_internal o = IBlock d radius ->
  change self "input" v s =
  Ok tt (if (d =? 0)%float then stored self "input" v m s
         else input_set r o (forwarded_selector v) (stored self "input" v m s)).
Proof.
  intros Hm Hc Hev Hb Ho Hi. rewrite (change_own _ _ _ _ v Hm Hev) by discriminate.
  replace ((filter (fun e => e.1 = "change:" ++ "input")%string
              (registered (model_class m))).*2) with [cb_updateInput].
  2: { unfold effect_classes in Hc. rewrite !elem_of_cons, elem_of_nil in Hc.
       destruct Hc as [E|[E|[E|[]]]]; injection E as -> _; reflexivity. }
  rewrite for_of_one. cbn [run_callback].
  rewrite (EffectModel_updateInput_Ok _ _ _ c r o d radius
             (stored_lookup _ _ _ "input" v Hm) Hc Hb Ho Hi).
  unfold attr. cbn [attributes set_attribute]. rewrite lookup_insert_eq. reflexivity.
Qed.

(** C3, as amended. The statement is about a model whose listeners of its own
    (all but those that a displayed view of it adds for [change:background_color])
    are those that [initialize] registers for its class. On such a model a
    change of [vertices] (meshes), of [default_color] and [default_alpha]
    (every block model), of [min] and [max] (IsoColor, Threshold) and of
    [value] (IsoSurface) assigns the new value to the block's field; a change
    of [input] on an effect calls [setInput] with the selector unless
    [inputDimension] is 0; a change of [children] on a scene runs
    [updateChildren]; a change of [array] on a component assigns the
    component's array. A change of [data] has no listener on any class: the
    attribute is stored and nothing of the core is touched. The listeners
    are those of the code: an [initialize] that returns has added exactly the
    listeners of the model's class, and in every state that the host reaches
    each model has no listener of its own or those of its class. *)
Theorem change_callbacks_commit_all_but_data
    (s : State) (self : nat) (m : Model) (v : JsValue) :
  models s !! self = Some m ->
  own_events m = registered (model_class m) ->
  (forall key field r o,
     (model_class m, key, field) ∈ committed ->
     props m !! "block" = Some (JRef r) -> heap s !! r = Some o ->
     change self key v s =
     Ok tt (with_log (fun l => l ++ [Assign r field v])
              (with_heap (fun h => <[r := with_field field v o]> h)
                 (stored self key v m s)))) /\
  (forall c r o d radius,
     (model_class m, c) ∈ effect_classes ->
     props m !! "block" = Some (JRef r) -> heap s !! r = Some o ->
     obj_internal o = IBlock d radius ->
     change self "input" v s =
     Ok tt (if (d =? 0)%float then stored self "input" v m s
            else input_set r o (forwarded_selector v) (stored self "input" v m s))) /\
  (model_class m = SceneModel ->
     change self "children" v s =
     SceneModel_updateChildren self (stored self "children" v m s)) /\
  (forall r o,
     model_class m = ComponentModel ->
     props m !! "component" = Some (JRef r) -> heap s !! r = Some o ->
     change self "array" v s =
     Ok tt (with_log (fun l => l ++ [Assign r "array" v])
              (with_heap (fun h => <[r := with_field "array" v o]> h)
                 (stored self "array" v m s)))) /\
  (listeners "change:data" m = [] /\
   change self "data" v s = Ok tt (stored self "data" v m s) /\
   heap (stored self "data" v m s) = heap s /\ log (stored self "data" v m s) = log s) /\
  (forall key, key ∈ spec_mutable_properties -> key <> "data" ->
     exists cls, ("change:" ++ key)%string ∈ (registered cls).*1) /\
  (forall cls, "change:data" ∉ (registered cls).*1) /\
  (forall s0 i m0 s1,
     models s0 !! i = Some m0 -> initialize i s0 = Ok tt s1 ->
     exists m1, models s1 !! i = Some m1 /\ model_class m1 = model_class m0 /\
                events m1 = events m0 ++ registered (model_class m0)) /\
  (forall acts i m',
     models (run acts initial_state) !! i = Some m' ->
     own_events m' = [] \/ own_events m' = registered (model_class m')).
Proof.
  intros Hm Hev.
  assert (Hdata : listeners "change:data" m = []).
  { rewrite listeners_own by discriminate. rewrite Hev. by destruct (model_class m). }
  split; [| split; [| split; [| split; [| split; [| split; [| split; [| split]]]]]]].
  - intros key field r o Hin Hb Ho. by apply change_commits_own.
  - intros c r o d radius Hc Hb Ho Hi. by apply (change_input_own _ _ _ c r o d radius).
  - intros Hc. rewrite (change_own _ _ _ _ v Hm Hev) by discriminate. rewrite Hc.
    change ((filter _ _).*2) with [cb_updateChildren]. by rewrite for_of_one.
  - intros r o Hc Hb Ho. rewrite (change_own _ _ _ _ v Hm Hev) by discriminate. rewrite Hc.
    change ((filter _ _).*2) with [cb_array]. rewrite for_of_one.
    cbn [run_callback]. by apply commit_Ok.
  - split; [exact Hdata |].
    split; [| by split]. rewrite (change_eq _ _ _ _ _ Hm).
    change ("change:" ++ "data")%string with "change:data". by rewrite Hdata.
  - intros key Hkey Hne. unfold spec_mutable_properties in Hkey.
    rewrite !elem_of_cons, elem_of_nil in Hkey.
    destruct Hkey as [->|[->|[->|[->|[->|[->|[->|[->|[->|[]]]]]]]]]];
      try (by destruct Hne).
    + exists PolyMeshModel. cbn. in_list.
    + exists PolyMeshModel. cbn. in_list.
    + exists PolyMeshModel. cbn. in_list.
    + exists IsoColorModel. cbn. in_list.
    + exists IsoColorModel. cbn. in_list.
    + exists IsoSurfaceModel. cbn. in_list.
    + exists IsoColorModel. cbn. in_list.
    + exists SceneModel. cbn. in_list.
  - intros cls Hin. destruct cls; cbn in Hin;
      rewrite ?elem_of_cons, ?elem_of_nil in Hin; intuition discriminate.
  - intros s0 i m0 s1 Hm0 Hrun.
    by apply (registering_initialize i (model_class m0) s0 m0 tt s1).
  - intros acts i m' Hm'. apply (Registered_run acts initial_state) in Hm'; [exact Hm' |].
    intros j mj Hj. discriminate.
Qed.

End Registration.

(** * More of widget.ts *)

(** ** Components and data *)

Section ComponentsAndData.
Context `{Env}.

(** X1. [initialize] of a ComponentModel never throws, whatever the
    attributes are: it constructs one Component from [name] and [array] as the
    model holds them (undefined when absent), keeps it as [this.component] and
    registers the one listener of change:array. *)
Theorem ComponentModel_initialize_total (s : State) (self : nat) (m : Model) :
  models s !! self = Some m ->
  model_class m = ComponentModel ->
  let r := length (heap s) in
  initialize self s =
  Ok tt {| models := <[self := add_events [("change:array", cb_array)]
                                 (set_property "component" (JRef r) m)]> (models s);
           views := views s;
           heap := heap s ++ [{| obj_class := Component;
                                 obj_args := [attr m "name"; attr m "array"];
                                 obj_fields := ∅; obj_internal := IPlain |}];
           window_listeners := window_listeners s;
           jobs := jobs s;
           log := log s ++ [New Component [attr m "name"; attr m "array"] r;
                            Listen self "change:array" cb_array] |}.
Proof.
  intros Hm Hc r. unfold initialize.
  rewrite (bind_Ok _ _ _ _ _ (this_class_Ok _ _ _ Hm)), Hc.
  unfold ComponentModel_initialize, WidgetModel_initialize.
  rewrite (bind_Ok _ _ _ _ _ (eq_refl : ret tt s = Ok tt s)).
  rewrite (bind_Ok _ _ _ _ _ (get_Ok _ _ _ "name" Hm)).
  rewrite (bind_Ok _ _ _ _ _ (get_Ok _ _ _ "array" Hm)).
  fold (attr m "name") (attr m "array").
  unfold bind at 1. unfold new_. fold r.
  set (s1 := with_log _ _).
  assert (Hm1 : models s1 !! self = Some m) by exact Hm.
  rewrite (bind_Ok _ _ _ _ _ (set_this_prop_Ok _ _ _ _ _ Hm1)).
  set (s2 := with_models _ s1).
  assert (Hm2 : models s2 !! self = Some (set_property "component" (JRef r) m))
    by (by apply (lookup_insert_Some _ _ m)).
  rewrite (on_Ok _ _ _ _ _ Hm2). f_equal.
  apply state_eq; unfold listening, s2, s1; js_red;
    rewrite ?list_insert_insert_eq, <- ?app_assoc; reflexivity.
Qed.

(** The elements of [components] that are models, and what each holds as
    [component]. *)
Definition components_of (s : State) (cms : list JsValue) (cs : list JsValue) : Prop :=
  Forall2 (fun cm c => exists id mm, cm = JModel id /\ models s !! id = Some mm /\
                                     c = default JUndefined (props mm !! "component")) cms cs.

Lemma map_components s cms cs :
  components_of s cms cs ->
  mapM (fun componentModel => get_prop componentModel "component") cms s = Ok cs s.
Proof.
  induction 1 as [|cm c cms cs (id & mm & -> & Hmm & ->) _ IH]; [reflexivity |].
  cbn [mapM].
  rewrite (bind_Ok _ _ _ _ _ (get_prop_field _ _ _ _ Hmm (plain_component _))).
  by rewrite (bind_Ok _ _ _ _ _ IH).
Qed.

(** X2. [initialize] of a DataModel whose [components] are models constructs
    one Data of the model's [name] and of the components that these models
    hold, in the order of the list, and keeps it as [this.data]; it registers
    no listener at all. *)
Theorem DataModel_initialize_collects_components
    (s : State) (self : nat) (m : Model) (cms cs : list JsValue) :
  models s !! self = Some m ->
  model_class m = DataModel ->
  attributes m !! "components" = Some (JArr cms) ->
  components_of s cms cs ->
  let r := length (heap s) in
  initialize self s =
  Ok tt {| models := <[self := set_property "data" (JRef r) m]> (models s);
           views := views s;
           heap := heap s ++ [{| obj_class := Data;
                                 obj_args := [attr m "name"; JArr cs];
                                 obj_fields := ∅; obj_internal := IPlain |}];
           window_listeners := window_listeners s;
           jobs := jobs s;
           log := log s ++ [New Data [attr m "name"; JArr cs] r] |}.
Proof.
  intros Hm Hc Hcms Hcs r. unfold initialize.
  rewrite (bind_Ok _ _ _ _ _ (this_class_Ok _ _ _ Hm)), Hc.
  unfold DataModel_initialize, WidgetModel_initialize.
  rewrite (bind_Ok _ _ _ _ _ (eq_refl : ret tt s = Ok tt s)).
  rewrite (bind_Ok _ _ _ _ _ (get_Ok _ _ _ "components" Hm)), Hcms.
  cbn [default from_option Datatypes.id].
  rewrite (bind_Ok _ _ _ _ _ (array_map_Ok _ _ _ _ _ _ (map_components _ _ _ Hcs))).
  rewrite (bind_Ok _ _ _ _ _ (get_Ok _ _ _ "name" Hm)). fold (attr m "name").
  unfold bind at 1. unfold new_. fold r.
  set (s1 := with_log _ _).
  assert (Hm1 : models s1 !! self = Some m) by exact Hm.
  rewrite (set_this_prop_Ok _ _ _ _ _ Hm1). f_equal.
Qed.

(** The values without a method [map]: on null and undefined the read of
    [map] is a TypeError, on a boolean, a number or a string the call is, for
    [map] is no function there. *)
Definition without_map (v : JsValue) : Prop :=
  match v with
  | JUndefined | JNull | JBool _ | JNum _ | JStr _ => True
  | _ => False
  end.

(** A read of a field throws nothing but a TypeError. *)
Lemma get_prop_outcome x name s :
  plain_field name ->
  (exists v, get_prop x name s = Ok v s) \/ get_prop x name s = Throw TypeError s.
Proof.
  intros Hplain. destruct x; unfold get_prop, read_prop;
    try (left; by eexists); try (by right).
  unfold bind, get_model, ret. destruct (models s !! id) as [m|]; [| by right].
  rewrite Hplain. left. by eexists.
Qed.

Lemma array_map_throws reader name l e s s1 :
  mapM (fun x => reader x name) l s = Throw e s1 ->
  array_map reader name (JArr l) s = Throw e s1.
Proof. intros Hl. cbn [array_map]. unfold bind. by rewrite Hl. Qed.

(** A [map] over a list throws when the function throws on one element and
    can only return, in the same state, or throw a TypeError on the others. *)
Lemma mapM_throws {A B} (f : A -> M B) xs x s :
  (forall y, (exists v, f y s = Ok v s) \/ f y s = Throw TypeError s) ->
  x ∈ xs -> f x s = Throw TypeError s ->
  mapM f xs s = Throw TypeError s.
Proof.
  intros Hf Hin Hx. induction xs as [|y ys IH]; [by apply elem_of_nil in Hin |].
  cbn [mapM]. unfold bind at 1.
  destruct (Hf y) as [(v & Hv)|Hthrow]; [| by rewrite Hthrow].
  rewrite Hv. apply elem_of_cons in Hin as [->|Hin]; [congruence |].
  unfold bind. by rewrite (IH Hin).
Qed.

(** X3. [initialize] of a DataModel throws a TypeError, and leaves the state
    as it found it (no Data is constructed), when the [components] attribute
    is null, undefined, a boolean, a number or a string, or when it is an
    array of which one element is null or undefined. *)
Theorem DataModel_initialize_rejects_bad_components
    (s : State) (self : nat) (m : Model) :
  models s !! self = Some m ->
  model_class m = DataModel ->
  without_map (attr m "components") \/
  (exists l x, attr m "components" = JArr l /\ x ∈ l /\ (x = JNull \/ x = JUndefined)) ->
  initialize self s = Throw TypeError s.
Proof.
  intros Hm Hc Hbad. unfold initialize.
  rewrite (bind_Ok _ _ _ _ _ (this_class_Ok _ _ _ Hm)), Hc.
  unfold DataModel_initialize, WidgetModel_initialize.
  rewrite (bind_Ok _ _ _ _ _ (eq_refl : ret tt s = Ok tt s)).
  rewrite (bind_Ok _ _ _ _ _ (get_Ok _ _ _ "components" Hm)).
  fold (attr m "components"). unfold bind at 1.
  destruct Hbad as [Hno|(l & x & Harr & Hin & Hx)].
  - unfold without_map in Hno. by destruct (attr m "components").
  - rewrite Harr.
    rewrite (array_map_throws _ _ l TypeError s s); [reflexivity |].
    apply (mapM_throws _ l x s);
      [intros y; apply get_prop_outcome, plain_component | exact Hin |].
    by destruct Hx as [-> | ->].
Qed.

End ComponentsAndData.

(** ** Effects without a parent, attributes without a listener *)

Section Unlistened.
Context `{Env}.

(** X4. [initialize] of an effect model whose [parent] is null (the default)
    or undefined throws a TypeError at [this.parent.block]: no core object is
    constructed, no listener is registered, and the model holds no block. *)
Theorem effect_without_parent_cannot_initialize
    (s : State) (self : nat) (m : Model) (c : CoreClass) :
  models s !! self = Some m ->
  (model_class m, c) ∈ effect_classes ->
  attr m "parent" = JNull \/ attr m "parent" = JUndefined ->
  initialize self s = Throw TypeError s /\
  createBlock self s = Throw TypeError s.
Proof.
  intros Hm Hc Hp.
  assert (Hcb : createBlock self s = Throw TypeError s).
  { unfold createBlock. rewrite (bind_Ok _ _ _ _ _ (this_class_Ok _ _ _ Hm)).
    apply effect_classes_inv in Hc as [[-> _]|[[-> _]|[-> _]]];
      unfold IsoColorModel_createBlock, IsoSurfaceModel_createBlock,
        ThresholdModel_createBlock, EffectModel_parent;
      rewrite (bind_Ok _ _ _ _ _ (get_Ok _ _ _ "parent" Hm)); fold (attr m "parent");
      by destruct Hp as [-> | ->]. }
  split; [| exact Hcb]. unfold initialize.
  rewrite (bind_Ok _ _ _ _ _ (this_class_Ok _ _ _ Hm)).
  assert (Hinit : BlockModel_initialize self s = Throw TypeError s).
  { unfold BlockModel_initialize, WidgetModel_initialize.
    rewrite (bind_Ok _ _ _ _ _ (eq_refl : ret tt s = Ok tt s)).
    unfold bind. by rewrite Hcb. }
  by apply effect_classes_inv in Hc as [[-> _]|[[-> _]|[-> _]]].
Qed.

Lemma no_listener_of name (l : list (string * Callback)) :
  name ∉ l.*1 -> (filter (fun e => e.1 = name) l).*2 = [].
Proof.
  induction l as [|[n cb] l IH]; intros Hnot; [reflexivity |].
  cbn [fmap list_fmap] in Hnot. apply not_elem_of_cons in Hnot as [Hne Hnot].
  rewrite filter_cons_False by (intros Heq; apply Hne; by rewrite <- Heq). by apply IH.
Qed.

(** The attributes of each class that the models hold and that no listener
    of the class, as [initialize] registers them, answers to. *)
Definition unlistened : list (ModelClass * string) :=
  [ (ComponentModel, "name");
    (DataModel, "name"); (DataModel, "components");
    (PolyMeshModel, "data"); (PolyMeshModel, "environment_meshes");
    (PolyMeshModel, "triangle_indices");
    (TetraMeshModel, "data"); (TetraMeshModel, "environment_meshes");
    (TetraMeshModel, "triangle_indices"); (TetraMeshModel, "tetrahedron_indices");
    (IsoColorModel, "vertices"); (IsoColorModel, "data"); (IsoColorModel, "parent");
    (IsoSurfaceModel, "vertices"); (IsoSurfaceModel, "data"); (IsoSurfaceModel, "parent");
    (ThresholdModel, "vertices"); (ThresholdModel, "data"); (ThresholdModel, "parent");
    (SceneModel, "background_color") ].

(** X5. A change of an attribute that no listener of the model answers to is
    stored in the model and goes no further: the heap of core objects and the
    log are as before. This is so, on each class, for the attributes of
    [unlistened]: the index arrays and the environment meshes of a mesh, the
    vertices and the parent of an effect, the name and the components of a
    Data, the name of a Component, and, for the model's own listeners, the
    background color of a scene. *)
Theorem change_without_listener_is_stored_only
    (s : State) (self : nat) (m : Model) (key : string) (v : JsValue) :
  models s !! self = Some m ->
  events m = registered (model_class m) ->
  (model_class m, key) ∈ unlistened ->
  change self key v s = Ok tt (stored self key v m s) /\
  heap (stored self key v m s) = heap s /\
  log (stored self key v m s) = log s /\
  attr (set_attribute key v m) key = v.
Proof.
  intros Hm Hev Hin. split; [| split; [reflexivity | split; [reflexivity |]]].
  - rewrite (change_eq _ _ _ _ _ Hm). unfold listeners. rewrite Hev.
    rewrite no_listener_of; [reflexivity |].
    unfold unlistened in Hin. rewrite !elem_of_cons, elem_of_nil in Hin.
    repeat (destruct Hin as [Hin|Hin];
            [injection Hin as -> ->; cbn;
             rewrite ?elem_of_cons, ?elem_of_nil; intuition discriminate |]).
    destruct Hin.
  - unfold attr. cbn [set_attribute attributes]. by rewrite lookup_insert_eq.
Qed.

End Unlistened.

(** ** The children of a scene: edge cases *)

Section SceneEdges.
Context `{Env}.

(** X6. With no children, [updateChildren] still allocates a vector: Math.max
    of no arguments is -Infinity, so the three coordinates are 1 / -Infinity,
    the negative zero. Nothing else happens: no block is scaled, nothing is
    added, and [this.scene] is not even read. *)
Theorem updateChildren_of_no_children (s : State) (self : nat) (m : Model) :
  models s !! self = Some m ->
  attributes m !! "children" = Some (JArr []) ->
  let k := (1 / JsNumber.Math_max [])%float in
  SceneModel_updateChildren self s =
  Ok tt (with_log (fun l => l ++ [New Vector3 [JNum k; JNum k; JNum k] (length (heap s))])
           (with_heap (fun h => h ++ [vector3 k k k]) s)) /\
  JsNumber.Math_max [] = neg_infinity /\
  JsNumber.is_neg_zero k = true.
Proof.
  intros Hm Hch k. split; [| split; reflexivity].
  unfold SceneModel_updateChildren.
  rewrite (bind_Ok _ _ _ _ _ (get_Ok _ _ _ _ Hm)), Hch.
  cbn [default from_option Datatypes.id].
  rewrite (bind_Ok _ _ _ _ _ (array_map_Ok get_prop "block" [] [] s s eq_refl)).
  cbn [boundingSphereRadii elements_of mapM].
  rewrite (bind_Ok _ _ _ _ _ (eq_refl : ret [] s = Ok [] s)). cbv zeta.
  by rewrite (bind_Ok _ _ _ _ _ (new_Vector3_eq _ _ _ _)).
Qed.

(** A child of which [child.block] cannot be read, or is undefined: null,
    undefined, or a model that holds no block. *)
Definition blockless (s : State) (child : JsValue) : Prop :=
  child = JNull \/ child = JUndefined \/
  exists id cm, child = JModel id /\ models s !! id = Some cm /\ props cm !! "block" = None.

Lemma read_boundingSphereRadius_outcome block s :
  (exists radius, read_boundingSphereRadius block s = Ok radius s) \/
  read_boundingSphereRadius block s = Throw TypeError s.
Proof.
  destruct block; cbn [read_boundingSphereRadius]; try (left; by eexists); try (by right).
  unfold bind, get_obj, ret. destruct (heap s !! r) as [o|]; [| by right].
  left. destruct (obj_internal o); by eexists.
Qed.

(** A [map] whose function does not change the state returns, element by
    element, or throws a TypeError, and the state is the same. *)
Lemma mapM_outcome {A B} (f : A -> M B) xs s :
  (forall y, (exists v, f y s = Ok v s) \/ f y s = Throw TypeError s) ->
  (exists vs, mapM f xs s = Ok vs s /\ Forall2 (fun x v => f x s = Ok v s) xs vs) \/
  mapM f xs s = Throw TypeError s.
Proof.
  intros Hf. induction xs as [|x xs IH].
  - left. exists []. split; [reflexivity | constructor].
  - cbn [mapM]. destruct (Hf x) as [(v & Hv)|Hthrow].
    + rewrite (bind_Ok _ _ _ _ _ Hv). destruct IH as [(vs & Hvs & Hall)|Hthrow].
      * left. exists (v :: vs). rewrite (bind_Ok _ _ _ _ _ Hvs).
        split; [reflexivity | by constructor].
      * right. unfold bind. by rewrite Hthrow.
    + right. unfold bind. by rewrite Hthrow.
Qed.

(** X7. [updateChildren] reads every child's block and every block's radius
    before it writes anything. So when one child is null or undefined, or is a
    model that holds no block, it throws a TypeError and the state is as
    before: no vector is made and no child is scaled or added, the children
    listed before the faulty one included. *)
Theorem updateChildren_rejects_a_child_without_block
    (s : State) (self : nat) (m : Model) (children : list JsValue) (child : JsValue) :
  models s !! self = Some m ->
  attributes m !! "children" = Some (JArr children) ->
  child ∈ children ->
  blockless s child ->
  SceneModel_updateChildren self s = Throw TypeError s.
Proof.
  intros Hm Hch Hin Hbad. unfold SceneModel_updateChildren.
  rewrite (bind_Ok _ _ _ _ _ (get_Ok _ _ _ _ Hm)), Hch.
  cbn [default from_option Datatypes.id].
  destruct (mapM_outcome (fun child => get_prop child "block") children s)
    as [(blocks & Hblocks & Hall)|Hthrow];
    [intros y; apply get_prop_outcome, plain_block | |
     unfold bind at 1; by rewrite (array_map_throws _ _ _ _ _ _ Hthrow)].
  rewrite (bind_Ok _ _ _ _ _ (array_map_Ok _ _ _ _ _ _ Hblocks)).
  cbn [boundingSphereRadii].
  destruct Hbad as [->|[->|(id & cm & -> & Hcm & Hnone)]].
  - apply (Forall2_lookup_l _ _ _) with (i := 0) (x := JNull) in Hall as (? & _ & ?);
      [discriminate |].
    exfalso. clear -Hin Hall. induction Hall as [|x v xs vs Hx _ IH].
    + by apply elem_of_nil in Hin.
    + apply elem_of_cons in Hin as [<-|Hin]; [discriminate | by apply IH].
  - exfalso. clear -Hin Hall. induction Hall as [|x v xs vs Hx _ IH].
    + by apply elem_of_nil in Hin.
    + apply elem_of_cons in Hin as [<-|Hin]; [discriminate | by apply IH].
  - assert (Hund : JUndefined ∈ blocks).
    { clear -Hin Hall Hcm Hnone. induction Hall as [|x v xs vs Hx _ IH].
      - by apply elem_of_nil in Hin.
      - apply elem_of_cons in Hin as [<-|Hin]; [| right; by apply IH].
        rewrite (get_prop_field _ _ _ _ Hcm (plain_block _)), Hnone in Hx.
        injection Hx as <-. left. }
    unfold bind at 1.
    by rewrite (mapM_throws read_boundingSphereRadius blocks JUndefined s
                  (fun y => read_boundingSphereRadius_outcome y s) Hund eq_refl).
Qed.

Lemma after_loop_block s sc osc cur scale bs old b o d radius :
  heap s !! sc = Some osc -> obj_internal osc = IScene cur ->
  heap s !! b = Some o -> obj_internal o = IBlock d radius ->
  obj_internal (after_loop sc scale bs old b o) = IBlock d radius.
Proof.
  intros Hosc Hcur Ho Hi. unfold after_loop.
  destruct (decide (b = sc)) as [->|_]; [congruence |].
  by destruct (decide (b ∈ bs)).
Qed.

(** X8. [updateChildren] removes nothing and remembers nothing: run a second
    time on the same children, it adds every block to the scene again, so the
    scene lists each of them twice, and it makes a second vector, which
    replaces the first as the [scale] of every child. *)
Theorem updateChildren_twice_adds_twice
    (s : State) (self : nat) (m : Model) (sc : nat) (osc : Obj) (old : list JsValue)
    (children : list JsValue) (bs : list nat) (radii : list float) :
  models s !! self = Some m ->
  props m !! "scene" = Some (JRef sc) ->
  heap s !! sc = Some osc -> obj_internal osc = IScene old ->
  attributes m !! "children" = Some (JArr children) ->
  child_blocks s children bs ->
  block_radii s bs radii ->
  let k := (1 / JsNumber.Math_max radii)%float in
  exists s1 s2,
    SceneModel_updateChildren self s = Ok tt s1 /\
    SceneModel_updateChildren self s1 = Ok tt s2 /\
    let v1 := length (heap s) in
    let v2 := length (heap s1) in
    v1 < v2 /\
    (exists osc2, heap s2 !! sc = Some osc2 /\
                  obj_internal osc2 = IScene (old ++ map JRef bs ++ map JRef bs)) /\
    (forall b, b ∈ bs ->
       exists o2, heap s2 !! b = Some o2 /\ obj_fields o2 !! "scale" = Some (JRef v2)) /\
    log s2 = log s ++ (New Vector3 [JNum k; JNum k; JNum k] v1 :: loop_events sc (JRef v1) bs)
                   ++ (New Vector3 [JNum k; JNum k; JNum k] v2 :: loop_events sc (JRef v2) bs).
Proof.
  intros Hm Hsc Hosc Hold Hch Hcb Hrad k.
  destruct (SceneModel_updateChildren_Ok _ _ _ _ _ _ _ _ _ Hm Hsc Hosc Hold Hch Hcb Hrad)
    as (s1 & Hrun1 & Hmod1 & _ & _ & _ & Hlog1 & Hvec1 & Hheap1).
  assert (Hm1 : models s1 !! self = Some m) by (by rewrite Hmod1).
  assert (Hosc1 : heap s1 !! sc =
                  Some (with_internal (IScene (old ++ map JRef bs)) osc)).
  { rewrite (Hheap1 _ _ Hosc). unfold after_loop. by rewrite decide_True. }
  assert (Hcb1 : child_blocks s1 children bs).
  { eapply Forall2_impl; [exact Hcb |]. intros child b (id & cm & -> & Hcm & Hb).
    exists id, cm. by rewrite Hmod1. }
  assert (Hrad1 : block_radii s1 bs radii).
  { eapply Forall2_impl; [exact Hrad |]. intros b radius (o & d & Ho & Hi).
    exists (after_loop sc (JRef (length (heap s))) bs old b o), d.
    split; [by apply Hheap1 |]. by apply (after_loop_block s sc osc old). }
  destruct (SceneModel_updateChildren_Ok _ _ _ _ _ _ _ _ _
              Hm1 Hsc Hosc1 eq_refl Hch Hcb1 Hrad1)
    as (s2 & Hrun2 & _ & _ & _ & _ & Hlog2 & _ & Hheap2).
  exists s1, s2. split; [exact Hrun1 |]. split; [exact Hrun2 |]. cbv zeta.
  split; [by apply lookup_lt_Some in Hvec1 |]. split; [| split].
  - eexists. split; [apply (Hheap2 _ _ Hosc1) |].
    unfold after_loop. rewrite decide_True by reflexivity. cbn. by rewrite <- app_assoc.
  - intros b Hb.
    pose proof (block_radii_valid _ _ _ Hrad1) as Hall. rewrite Forall_forall in Hall.
    destruct (Hall _ Hb) as (o1 & Ho1 & d & radius & Hi1).
    eexists. split; [apply (Hheap2 _ _ Ho1) |].
    unfold after_loop. rewrite decide_False by (intros ->; rewrite Hosc1 in Ho1; by injection Ho1 as <-).
    rewrite decide_True by exact Hb. apply lookup_insert_eq.
  - rewrite Hlog2, Hlog1. by rewrite <- app_assoc.
Qed.

Lemma div_nan (x : float) : is_nan x = true -> is_nan (1 / x) = true.
Proof.
  intros Hx.
  assert (Hsf : Prim2SF x = S754_nan).
  { destruct (Prim2SF x) eqn:E; try reflexivity; exfalso;
      assert (Hnn : JsNumber.not_nan x)
        by (apply JsNumberFacts.not_nan_spec; rewrite E; discriminate);
      unfold JsNumber.not_nan in Hnn; congruence. }
  unfold is_nan. rewrite FloatAxioms.eqb_spec, FloatAxioms.div_spec, Hsf.
  unfold SF64div, SFdiv. by destruct (Prim2SF 1).
Qed.

(** X9. A NaN among the children's bounding-sphere radii makes Math.max NaN,
    and the division keeps it: the three coordinates of the scale vector that
    every child receives are NaN, wherever in the list the NaN stands and
    whatever the other radii are. *)
Theorem updateChildren_NaN_radius_gives_NaN_scale
    (s : State) (self : nat) (m : Model) (sc : nat) (osc : Obj) (old : list JsValue)
    (children : list JsValue) (bs : list nat) (radii : list float) :
  models s !! self = Some m ->
  props m !! "scene" = Some (JRef sc) ->
  heap s !! sc = Some osc -> obj_internal osc = IScene old ->
  attributes m !! "children" = Some (JArr children) ->
  child_blocks s children bs ->
  block_radii s bs radii ->
  Exists (fun radius => is_nan radius = true) radii ->
  exists s' k,
    SceneModel_updateChildren self s = Ok tt s' /\
    is_nan k = true /\
    heap s' !! length (heap s) = Some (vector3 k k k) /\
    (forall b, b ∈ bs ->
       exists o, heap s' !! b = Some o /\
                 obj_fields o !! "scale" = Some (JRef (length (heap s)))).
Proof.
  intros Hm Hsc Hosc Hold Hch Hcb Hrad Hnan.
  destruct (SceneModel_updateChildren_Ok _ _ _ _ _ _ _ _ _ Hm Hsc Hosc Hold Hch Hcb Hrad)
    as (s' & Hrun & _ & _ & _ & _ & _ & Hvec & Hheap).
  exists s', (1 / JsNumber.Math_max radii)%float.
  split; [exact Hrun |]. split; [| split; [exact Hvec |]].
  - by apply div_nan, JsNumberFacts.Math_max_nan.
  - intros b Hb.
    pose proof (block_radii_valid _ _ _ Hrad) as Hall. rewrite Forall_forall in Hall.
    destruct (Hall _ Hb) as (o & Ho & d & radius & Hi).
    eexists. split; [apply (Hheap _ _ Ho) |].
    unfold after_loop. rewrite decide_False by (intros ->; congruence).
    rewrite decide_True by exact Hb. apply lookup_insert_eq.
Qed.

(** X10. [initialize] of a SceneModel whose children are block models makes a
    new, empty Scene, keeps it as [this.scene], runs [updateChildren] on it,
    so that the scene lists exactly the children's blocks in the order of the
    attribute, and only then registers the listener of change:children. *)
Theorem SceneModel_initialize_adds_the_children
    (s : State) (self : nat) (m : Model)
    (children : list JsValue) (bs : list nat) (radii : list float) :
  models s !! self = Some m ->
  model_class m = SceneModel ->
  attributes m !! "children" = Some (JArr children) ->
  child_blocks s children bs ->
  block_radii s bs radii ->
  let sc := length (heap s) in
  let v := S sc in
  let k := (1 / JsNumber.Math_max radii)%float in
  exists s',
    initialize self s = Ok tt s' /\
    models s' !! self =
      Some (add_events [("change:children", cb_updateChildren)]
              (set_property "scene" (JRef sc) m)) /\
    (exists osc, heap s' !! sc = Some osc /\ obj_class osc = Scene /\
                 obj_internal osc = IScene (map JRef bs)) /\
    log s' = log s ++ New Scene [] sc :: New Vector3 [JNum k; JNum k; JNum k] v ::
               loop_events sc (JRef v) bs ++
               [Listen self "change:children" cb_updateChildren].
Proof.
  intros Hm Hc Hch Hcb Hrad sc v k. unfold initialize.
  rewrite (bind_Ok _ _ _ _ _ (this_class_Ok _ _ _ Hm)), Hc.
  unfold SceneModel_initialize, WidgetModel_initialize.
  rewrite (bind_Ok _ _ _ _ _ (eq_refl : ret tt s = Ok tt s)).
  unfold bind at 1. unfold new_. fold sc.
  set (s1 := with_log _ _).
  assert (Hm1 : models s1 !! self = Some m) by exact Hm.
  rewrite (bind_Ok _ _ _ _ _ (set_this_prop_Ok _ _ _ _ _ Hm1)).
  set (s2 := with_models _ s1). set (m2 := set_property "scene" (JRef sc) m).
  set (osc := {| obj_class := Scene; obj_args := []; obj_fields := ∅;
                 obj_internal := IScene [] |}).
  assert (Hheap2 : heap s2 = heap s ++ [osc]) by reflexivity.
  assert (Hm2 : models s2 !! self = Some m2) by (by apply (lookup_insert_Some _ _ m)).
  assert (Hosc2 : heap s2 !! sc = Some osc)
    by (rewrite Hheap2; by apply list_lookup_middle).
  assert (Hcb2 : child_blocks s2 children bs).
  { eapply Forall2_impl; [exact Hcb |]. intros child b (id & cm & -> & Hcm & Hb).
    destruct (decide (id = self)) as [->|Hne].
    - exists self, m2. split; [reflexivity |]. split; [exact Hm2 |].
      rewrite Hm in Hcm. injection Hcm as <-.
      unfold m2. cbn [set_property props]. by rewrite lookup_insert_ne.
    - exists id, cm. split; [reflexivity |]. split; [| exact Hb].
      unfold s2, s1. js_red. by rewrite list_lookup_insert_ne. }
  assert (Hrad2 : block_radii s2 bs radii).
  { eapply Forall2_impl; [exact Hrad |]. intros b radius (o & d & Ho & Hi).
    exists o, d. split; [rewrite Hheap2; by apply lookup_app_l_Some | exact Hi]. }
  destruct (SceneModel_updateChildren_Ok s2 self m2 sc osc [] children bs radii
              Hm2 (lookup_insert_eq _ _ _) Hosc2 eq_refl Hch Hcb2 Hrad2)
    as (s3 & Hrun & Hmod & _ & _ & _ & Hlog & _ & Hheap).
  rewrite (bind_Ok _ _ _ _ _ Hrun).
  assert (Hm3 : models s3 !! self = Some m2) by (by rewrite Hmod).
  rewrite (on_Ok _ _ _ _ _ Hm3).
  eexists. split; [reflexivity |]. split; [| split].
  - unfold listening. js_red. by apply (lookup_insert_Some _ _ m2).
  - eexists. unfold listening. js_red. split; [apply (Hheap _ _ Hosc2) |].
    unfold after_loop. rewrite decide_True by reflexivity. by split.
  - unfold listening. js_red. rewrite Hlog. unfold s2, s1. js_red.
    rewrite length_app. cbn [length map fst snd]. rewrite Nat.add_1_r. fold sc v k.
    by rewrite <- !app_assoc.
Qed.

End SceneEdges.

(** ** The view: messages, removal, rendering and the background color *)

Section ViewEdges.
Context `{Env}.

Lemma Renderer_method_Ok s r o i method :
  heap s !! r = Some o -> obj_internal o = IRenderer i ->
  Renderer_method (JRef r) method s = Ok tt (with_log (fun l => l ++ [Call r method []]) s).
Proof. intros Ho Hi. unfold Renderer_method. js_red. by rewrite Ho, Hi. Qed.

Lemma SceneView_resize_Ok s v vw r o i :
  views s !! v = Some vw -> view_props vw !! "renderer" = Some (JRef r) ->
  heap s !! r = Some o -> obj_internal o = IRenderer i ->
  SceneView_resize v s = Ok tt (with_log (fun l => l ++ [Call r "resize" []]) s).
Proof.
  intros Hvw Hr Ho Hi. unfold SceneView_resize.
  rewrite (bind_Ok _ _ _ _ _ (view_prop_Ok _ _ _ "renderer" Hvw)), Hr.
  cbn [default from_option Datatypes.id]. by apply (Renderer_method_Ok _ _ o i).
Qed.

(** X11. [processPhosphorMessage] first hands the message to the library's
    view, which on after-attach triggers the displayed event: [this.displayed]
    is resolved, once, and its reactions are queued. Then it answers the
    messages of type resize and after-show, and no other: for these two it
    calls [resize] of the view's renderer once, initialized or not, and on a
    view that holds no renderer yet the two types throw a TypeError. A message
    of any other type does nothing. *)
Theorem processPhosphorMessage_resizes_on_two_types
    (s : State) (v : nat) (vw : View) (msg_type : string) :
  views s !! v = Some vw ->
  (msg_type <> "resize" -> msg_type <> "after-show" -> msg_type <> "after-attach" ->
     SceneView_processPhosphorMessage v msg_type s = Ok tt s) /\
  (msg_type = "after-attach" ->
     SceneView_processPhosphorMessage v msg_type s = resolve_displayed v s /\
     (resolved (displayed vw) = true -> resolve_displayed v s = Ok tt s) /\
     (resolved (displayed vw) = false ->
        exists s' vw',
          resolve_displayed v s = Ok tt s' /\
          log s' = log s ++ [Displayed v] /\
          jobs s' = jobs s ++ reactions (displayed vw) /\
          views s' !! v = Some vw' /\ resolved (displayed vw') = true /\
          view_props vw' = view_props vw /\
          heap s' = heap s /\ models s' = models s)) /\
  (msg_type = "resize" \/ msg_type = "after-show" ->
     (forall r o i,
        view_props vw !! "renderer" = Some (JRef r) ->
        heap s !! r = Some o -> obj_internal o = IRenderer i ->
        SceneView_processPhosphorMessage v msg_type s =
        Ok tt (with_log (fun l => l ++ [Call r "resize" []]) s)) /\
     (view_props vw !! "renderer" = None ->
        SceneView_processPhosphorMessage v msg_type s = Throw TypeError s)).
Proof.
  intros Hvw. unfold SceneView_processPhosphorMessage, DOMWidgetView_processPhosphorMessage.
  split; [| split].
  - intros H1 H2 H3. rewrite decide_False by exact H3.
    rewrite (bind_Ok _ _ _ _ _ (eq_refl : ret tt s = Ok tt s)).
    rewrite decide_False by (intros [?|?]; contradiction). reflexivity.
  - intros ->. rewrite decide_True by reflexivity.
    rewrite decide_False by (intros [?|?]; discriminate).
    split; [| split].
    + unfold bind at 1. by destruct (resolve_displayed v s) as [[] s'|e s'].
    + intros Hres. unfold resolve_displayed. js_red. by rewrite Hvw, Hres.
    + intros Hres. unfold resolve_displayed. js_red. rewrite Hvw, Hres.
      eexists _, _. split; [reflexivity |]. js_red.
      split; [reflexivity |]. split; [reflexivity |].
      split; [by apply (lookup_insert_Some _ _ vw) |]. by repeat split.
  - intros Ht.
    assert (Hne : msg_type <> "after-attach") by (intros ->; by destruct Ht).
    rewrite decide_False by exact Hne.
    rewrite (bind_Ok _ _ _ _ _ (eq_refl : ret tt s = Ok tt s)).
    rewrite decide_True by exact Ht. split.
    + intros r o i Hr Ho Hi. by apply (SceneView_resize_Ok _ _ vw r o i).
    + intros Hnone. unfold SceneView_resize.
      by rewrite (bind_Ok _ _ _ _ _ (view_prop_Ok _ _ _ "renderer" Hvw)), Hnone.
Qed.

Lemma with_log_nil s : with_log (fun l => l ++ []) s = s.
Proof. apply state_eq; js_red; try reflexivity. apply app_nil_r. Qed.

(** What a resize of the window makes of one view: at most one event. *)
Lemma resize_step u s :
  exists l, final_state (SceneView_resize u s) = with_log (fun lg => lg ++ l) s /\
    forall vw r o i,
      views s !! u = Some vw -> view_props vw !! "renderer" = Some (JRef r) ->
      heap s !! r = Some o -> obj_internal o = IRenderer i ->
      l = [Call r "resize" []].
Proof.
  assert (Hnil : forall res, res = Throw TypeError s \/ res = Ok tt s ->
                   final_state res = with_log (fun lg => lg ++ []) s)
    by (intros res [-> | ->]; by rewrite with_log_nil).
  destruct (views s !! u) as [vw|] eqn:Hvw.
  - unfold SceneView_resize.
    rewrite (bind_Ok _ _ _ _ _ (view_prop_Ok _ _ _ "renderer" Hvw)).
    destruct (view_props vw !! "renderer") as [x|] eqn:Hr;
      [| exists []; split; [apply Hnil; by left | intros; congruence]].
    cbn [default from_option Datatypes.id].
    destruct x as [| |b|n|str|xs|fs|ta|t els|id|r|el];
      try (exists []; split; [apply Hnil; by left | intros; congruence]).
    unfold Renderer_resize, Renderer_method, bind at 1, get_obj.
    destruct (heap s !! r) as [o|] eqn:Ho;
      [| exists []; split; [apply Hnil; by left | intros; congruence]].
    destruct (obj_internal o) as [d radius|blocks|i|] eqn:Hi;
      try (exists []; split;
           [apply Hnil; by left | intros; congruence]).
    exists [Call r "resize" []]. split; [reflexivity |].
    intros; congruence.
  - exists []. split; [| intros; congruence].
    apply Hnil. left. unfold SceneView_resize, view_prop. js_red. by rewrite Hvw.
Qed.

Lemma resize_loop vs : forall s,
  exists l,
    final_state (for_of vs (fun view => catch (SceneView_resize view)) s)
    = with_log (fun lg => lg ++ l) s /\
    forall v vw r o i,
      v ∈ vs -> views s !! v = Some vw -> view_props vw !! "renderer" = Some (JRef r) ->
      heap s !! r = Some o -> obj_internal o = IRenderer i ->
      Call r "resize" [] ∈ l.
Proof.
  induction vs as [|u vs IH]; intros s.
  - exists []. split; [by rewrite with_log_nil |]. intros ? ? ? ? ? Hin.
    by apply elem_of_nil in Hin.
  - destruct (resize_step u s) as (l1 & Hl1 & Hone).
    cbn [for_of]. unfold bind at 1. unfold catch at 1. rewrite Hl1.
    destruct (IH (with_log (fun lg => lg ++ l1) s)) as (l2 & Hl2 & Hall).
    exists (l1 ++ l2). split.
    + rewrite Hl2. apply state_eq; js_red; try reflexivity. by rewrite app_assoc.
    + intros v vw r o i Hin Hvw Hr Ho Hi. apply elem_of_app.
      apply elem_of_cons in Hin as [->|Hin].
      * left. rewrite (Hone _ _ _ _ Hvw Hr Ho Hi). left.
      * right. by apply (Hall v vw r o i).
Qed.

Lemma set_view_prop_Ok s v vw name x :
  views s !! v = Some vw ->
  set_view_prop v name x s =
  Ok tt (with_views (fun vs => <[v := {| view_model := view_model vw;
                                         view_props := <[name := x]> (view_props vw);
                                         classList := classList vw;
                                         displayed := displayed vw |}]> vs) s).
Proof. intros Hvw. unfold set_view_prop. js_red. by rewrite Hvw. Qed.

(** The widget of a view that is disposed of already. *)
Lemma pWidget_dispose_again v k s vw :
  views s !! v = Some vw -> view_props vw !! "pWidget.isDisposed" = Some (JBool true) ->
  pWidget_dispose v k s = Ok tt s.
Proof.
  intros Hvw Hd. unfold pWidget_dispose.
  by rewrite (bind_Ok _ _ _ _ _ (view_prop_Ok _ _ _ "pWidget.isDisposed" Hvw)), Hd.
Qed.

Lemma Renderer_method_cases x method s :
  (exists r, Renderer_method x method s
             = Ok tt (with_log (fun l => l ++ [Call r method []]) s)) \/
  (exists e, Renderer_method x method s = Throw e s).
Proof.
  unfold Renderer_method. destruct x; try (right; by eexists).
  unfold bind, get_obj. destruct (heap s !! r) as [o|]; [| right; by eexists].
  destruct (obj_internal o); try (right; by eexists). left. by eexists.
Qed.

Lemma remove_body_again v k k' s vw :
  views s !! v = Some vw -> view_props vw !! "pWidget.isDisposed" = Some (JBool true) ->
  SceneView_remove_body v (pWidget_dispose v k) s
  = SceneView_remove_body v (pWidget_dispose v k') s.
Proof.
  intros Hvw Hd. unfold SceneView_remove_body, Renderer_dispose.
  rewrite !(bind_Ok _ _ _ _ _ (view_prop_Ok _ _ _ "renderer" Hvw)).
  destruct (Renderer_method_cases (default JUndefined (view_props vw !! "renderer"))
              "dispose" s) as [(r & Hr)|(e & He)].
  - rewrite !(bind_Ok _ _ _ _ _ Hr).
    by rewrite !(pWidget_dispose_again v _ _ vw).
  - unfold bind. by rewrite He.
Qed.

Lemma remove_body_ext v X Y s :
  (forall s' vw', views s' !! v = Some vw' ->
                  view_props vw' !! "pWidget.isDisposed" = Some (JBool true) ->
                  X s' = Y s') ->
  SceneView_remove_body v (pWidget_dispose v X) s
  = SceneView_remove_body v (pWidget_dispose v Y) s.
Proof.
  intros HXY. unfold SceneView_remove_body, Renderer_dispose.
  destruct (views s !! v) as [vw|] eqn:Hvw;
    [| unfold bind, view_prop, bind, get_view; by rewrite Hvw].
  rewrite !(bind_Ok _ _ _ _ _ (view_prop_Ok _ _ _ "renderer" Hvw)).
  destruct (Renderer_method_cases (default JUndefined (view_props vw !! "renderer"))
              "dispose" s) as [(r & Hr)|(e & He)]; [| unfold bind; by rewrite He].
  rewrite !(bind_Ok _ _ _ _ _ Hr). set (s1 := with_log _ s).
  assert (Hvw1 : views s1 !! v = Some vw) by exact Hvw.
  unfold pWidget_dispose.
  rewrite !(bind_Ok _ _ _ _ _ (view_prop_Ok _ _ _ "pWidget.isDisposed" Hvw1)).
  assert (Hset : (set_view_prop v "pWidget.isDisposed" (JBool true) ;; X) s1
                 = (set_view_prop v "pWidget.isDisposed" (JBool true) ;; Y) s1).
  { rewrite !(bind_Ok _ _ _ _ _ (set_view_prop_Ok _ _ _ _ _ Hvw1)).
    eapply HXY; [by apply (lookup_insert_Some _ _ vw) | apply lookup_insert_eq]. }
  destruct (default JUndefined (view_props vw !! "pWidget.isDisposed"))
    as [| |[]|?|?|?|?|?|? ?|?|?|?]; try exact Hset.
  reflexivity.
Qed.

(** [remove] enters itself once and no more: whatever a third entry would
    do, it is not reached. *)
Lemma remove_enters_twice v k s :
  SceneView_remove_body v
    (DOMWidgetView_remove v (SceneView_remove_body v (DOMWidgetView_remove v k))) s
  = SceneView_remove v s.
Proof.
  unfold SceneView_remove, DOMWidgetView_remove. apply remove_body_ext.
  intros s' vw' Hvw' Hd. by apply (remove_body_again v _ _ s' vw').
Qed.

(** X12. [remove] calls [dispose] of the renderer, and [super.remove()]
    disposes of the view's widget, which enters [remove] once more: the first
    removal of a view calls [dispose] of the renderer twice, a later one once.
    None of them unregisters anything: the window keeps the view's resize
    listener and the models keep their listeners. So a resize of the window
    after the removal of a displayed view still calls [resize] of the renderer
    that was disposed of. *)
Theorem remove_keeps_the_resize_listener
    (s : State) (v : nat) (vw : View) (r : nat) (o : Obj) (i : bool) :
  views s !! v = Some vw ->
  view_props vw !! "renderer" = Some (JRef r) ->
  view_props vw !! "pWidget.isDisposed" = None ->
  heap s !! r = Some o -> obj_internal o = IRenderer i ->
  exists s1,
    SceneView_remove v s = Ok tt s1 /\
    log s1 = log s ++ [Call r "dispose" []; Call r "dispose" []] /\
    window_listeners s1 = window_listeners s /\
    models s1 = models s /\
    heap s1 = heap s /\
    SceneView_remove v s1 = Ok tt (with_log (fun l => l ++ [Call r "dispose" []]) s1) /\
    (("resize", v) ∈ window_listeners s ->
       exists l, log (final_state (window_resize s1)) = log s1 ++ l /\
                 Call r "resize" [] ∈ l).
Proof.
  intros Hvw Hr Hd Ho Hi.
  set (vw' := {| view_model := view_model vw;
                 view_props := <["pWidget.isDisposed" := JBool true]> (view_props vw);
                 classList := classList vw; displayed := displayed vw |}).
  assert (Hr' : view_props vw' !! "renderer" = Some (JRef r))
    by (cbn [vw' view_props]; by rewrite lookup_insert_ne).
  assert (Hd' : view_props vw' !! "pWidget.isDisposed" = Some (JBool true))
    by apply lookup_insert_eq.
  assert (Hbody : forall st uw k,
            views st !! v = Some uw -> view_props uw !! "renderer" = Some (JRef r) ->
            heap st !! r = Some o ->
            SceneView_remove_body v k st
            = k (with_log (fun l => l ++ [Call r "dispose" []]) st)).
  { intros st uw k Hu Hur Hst. unfold SceneView_remove_body, Renderer_dispose.
    rewrite (bind_Ok _ _ _ _ _ (view_prop_Ok _ _ _ "renderer" Hu)), Hur.
    cbn [default from_option Datatypes.id].
    by rewrite (bind_Ok _ _ _ _ _ (Renderer_method_Ok _ _ o i _ Hst Hi)). }
  set (s1 := with_log (fun l => l ++ [Call r "dispose" []])
               (with_views (fun vs => <[v := vw']> vs)
                  (with_log (fun l => l ++ [Call r "dispose" []]) s))).
  assert (Hvw1 : views s1 !! v = Some vw') by (by apply (lookup_insert_Some _ _ vw)).
  assert (Hrun : SceneView_remove v s = Ok tt s1).
  { unfold SceneView_remove, DOMWidgetView_remove.
    rewrite (Hbody s vw _ Hvw Hr Ho). set (sa := with_log _ s).
    assert (Hvwa : views sa !! v = Some vw) by exact Hvw.
    unfold pWidget_dispose at 1.
    rewrite (bind_Ok _ _ _ _ _ (view_prop_Ok _ _ _ "pWidget.isDisposed" Hvwa)), Hd.
    cbn [default from_option Datatypes.id].
    rewrite (bind_Ok _ _ _ _ _ (set_view_prop_Ok _ _ _ _ _ Hvwa)).
    fold vw'. set (sb := with_views _ sa).
    assert (Hvwb : views sb !! v = Some vw') by (by apply (lookup_insert_Some _ _ vw)).
    rewrite (Hbody sb vw' _ Hvwb Hr' Ho).
    by apply (pWidget_dispose_again v _ _ vw'). }
  exists s1. split; [exact Hrun |].
  split; [unfold s1; js_red; by rewrite <- app_assoc |].
  split; [reflexivity |]. split; [reflexivity |]. split; [reflexivity |]. split.
  - unfold SceneView_remove, DOMWidgetView_remove.
    rewrite (Hbody s1 vw' _ Hvw1 Hr' Ho).
    by apply (pWidget_dispose_again v _ _ vw').
  - intros Hin. unfold window_resize.
    destruct (resize_loop (filter (fun l => l.1 = "resize") (window_listeners s1)).*2 s1)
      as (l & Hl & Hall).
    exists l. rewrite Hl. split; [reflexivity |].
    apply (Hall v vw' r o i); try assumption.
    apply list_elem_of_fmap. exists ("resize", v). split; [reflexivity |].
    by apply list_elem_of_filter.
Qed.

(** X13. [render] on a view whose model exists never throws. It adds the
    class odysis-scene to the element, constructs one Renderer of the element
    and of [this.model.scene] (undefined when the model holds no scene), keeps
    it as [this.renderer], and leaves the arrow with the [displayed] promise:
    among the reactions while the promise is pending, in the queue of
    microtasks when it is resolved already. Nothing of the renderer is called
    and no listener is registered. *)
Theorem render_constructs_and_waits
    (s : State) (v : nat) (vw : View) (m : Model) :
  views s !! v = Some vw ->
  models s !! view_model vw = Some m ->
  let r := length (heap s) in
  let scene := default JUndefined (props m !! "scene") in
  SceneView_render v s =
  Ok tt {| models := models s;
           views := <[v := {| view_model := view_model vw;
                              view_props := <["renderer" := JRef r]> (view_props vw);
                              classList := classList vw ++ ["odysis-scene"];
                              displayed :=
                                if resolved (displayed vw) then displayed vw
                                else {| resolved := false;
                                        reactions := reactions (displayed vw)
                                                     ++ [job_displayed v] |} |}]> (views s);
           heap := heap s ++ [{| obj_class := Renderer;
                                 obj_args := [JElement v; scene];
                                 obj_fields := ∅; obj_internal := IRenderer false |}];
           window_listeners := window_listeners s;
           jobs := if resolved (displayed vw) then jobs s ++ [job_displayed v] else jobs s;
           log := log s ++ [ClassListAdd v "odysis-scene";
                            New Renderer [JElement v; scene] r] |}.
Proof.
  intros Hvw Hm r scene.
  unfold SceneView_render, classList_add.
  rewrite !bind_bind. unfold bind at 1. unfold get_view. rewrite Hvw.
  rewrite bind_bind. unfold bind at 1. unfold put_view.
  unfold bind at 1. unfold emit.
  set (vw1 := {| view_model := view_model vw; view_props := view_props vw;
                 classList := classList vw ++ ["odysis-scene"];
                 displayed := displayed vw |}).
  set (s1 := with_log _ _).
  assert (Hvw1 : views s1 !! v = Some vw1) by (by apply (lookup_insert_Some _ _ vw)).
  rewrite (bind_Ok _ _ _ _ _ (this_model_Ok _ _ _ Hvw1)).
  assert (Hm1 : models s1 !! view_model vw1 = Some m) by exact Hm.
  rewrite (bind_Ok _ _ _ _ _ (get_prop_field _ _ _ "scene" Hm1 (plain_scene _))).
  fold scene. unfold bind at 1. unfold new_.
  change (length (heap s1)) with r. set (s2 := with_log _ _).
  assert (Hvw2 : views s2 !! v = Some vw1) by exact Hvw1.
  unfold set_view_prop. rewrite !bind_bind. unfold bind at 1. unfold get_view. rewrite Hvw2.
  unfold bind at 1. unfold put_view.
  set (vw3 := {| view_model := view_model vw1;
                 view_props := <["renderer" := JRef r]> (view_props vw1);
                 classList := classList vw1; displayed := displayed vw1 |}).
  set (s3 := with_views _ s2).
  assert (Hvw3 : views s3 !! v = Some vw3) by (by apply (lookup_insert_Some _ _ vw1)).
  unfold displayed_then. unfold bind at 1. unfold get_view. rewrite Hvw3.
  unfold vw3 at 1. cbn [displayed]. unfold vw1 at 1. cbn [displayed].
  destruct (resolved (displayed vw)); unfold put_view; cbv beta; f_equal;
    apply state_eq; unfold s3, s2, s1, vw3, vw1; js_red;
    cbn [displayed view_model view_props classList];
    rewrite ?list_insert_insert_eq, <- ?app_assoc; reflexivity.
Qed.

Lemma Renderer_initialize_Ok s r o i :
  heap s !! r = Some o -> obj_internal o = IRenderer i ->
  Renderer_initialize (JRef r) s =
  Ok tt (with_log (fun l => l ++ [Call r "initialize" []])
           (with_heap (fun h => <[r := with_internal (IRenderer true) o]> h) s)).
Proof. intros Ho Hi. unfold Renderer_initialize. js_red. by rewrite Ho, Hi. Qed.

(** The state after the arrow of [render] has run. *)
Definition after_displayed (v : nat) (vw : View) (m : Model) (r : nat) (o : Obj) (s : State)
  : State :=
  {| models := <[view_model vw :=
                   add_events [("change:background_color", cb_background_color v)] m]>
                 (models s);
     views := views s;
     heap := <[r := with_field "backgroundColor" (attr m "background_color")
                      (with_internal (IRenderer true) o)]> (heap s);
     window_listeners := window_listeners s ++ [("resize", v)];
     jobs := jobs s;
     log := log s ++ [Call r "initialize" [];
                      Assign r "backgroundColor" (attr m "background_color");
                      WindowAddEventListener "resize" v;
                      Listen (view_model vw) "change:background_color"
                        (cb_background_color v)] |}.

Lemma SceneView_render_displayed_Ok s v vw m r o i :
  views s !! v = Some vw ->
  view_props vw !! "renderer" = Some (JRef r) ->
  heap s !! r = Some o -> obj_internal o = IRenderer i ->
  models s !! view_model vw = Some m ->
  SceneView_render_displayed v s = Ok tt (after_displayed v vw m r o s).
Proof.
  intros Hvw Hr Ho Hi Hm. unfold SceneView_render_displayed.
  rewrite (bind_Ok _ _ _ _ _ (view_prop_Ok _ _ _ "renderer" Hvw)), Hr.
  cbn [default from_option Datatypes.id].
  rewrite (bind_Ok _ _ _ _ _ (Renderer_initialize_Ok _ _ _ _ Ho Hi)).
  set (s1 := with_log _ _).
  assert (Hvw1 : views s1 !! v = Some vw) by exact Hvw.
  assert (Hm1 : models s1 !! view_model vw = Some m) by exact Hm.
  rewrite (bind_Ok _ _ _ _ _ (view_prop_Ok _ _ _ "renderer" Hvw1)), Hr.
  cbn [default from_option Datatypes.id].
  rewrite (bind_Ok _ _ _ _ _ (this_model_Ok _ _ _ Hvw1)).
  rewrite (bind_Ok _ _ _ _ _ (get_Ok _ _ _ "background_color" Hm1)).
  fold (attr m "background_color").
  assert (Ho1 : heap s1 !! r = Some (with_internal (IRenderer true) o))
    by (by apply (lookup_insert_Some _ _ o)).
  rewrite (bind_Ok _ _ _ _ _ (assign_Ok _ _ _ _ _ Ho1)).
  set (s2 := with_log _ _).
  unfold SceneView_initEventListeners, window_addEventListener.
  rewrite !bind_bind. unfold bind at 1. unfold bind at 1. unfold emit.
  set (s3 := with_log _ _).
  assert (Hvw3 : views s3 !! v = Some vw) by exact Hvw.
  assert (Hm3 : models s3 !! view_model vw = Some m) by exact Hm.
  rewrite (bind_Ok _ _ _ _ _ (this_model_Ok _ _ _ Hvw3)).
  rewrite (on_Ok _ _ _ _ _ Hm3). f_equal.
  apply state_eq; unfold listening, after_displayed, s3, s2, s1; js_red;
    rewrite ?list_insert_insert_eq, <- ?app_assoc; reflexivity.
Qed.

(** X14. The arrow that [render] leaves with the [displayed] promise, run on
    a view that holds its renderer: it calls [initialize] of the renderer,
    assigns to [backgroundColor] the color that the model holds at that
    moment (not the one of the time of [render]), then registers the resize
    listener on the window and the listener of change:background_color on
    the model, in this order. *)
Theorem displayed_arrow_initializes_then_registers
    (s : State) (v : nat) (vw : View) (m : Model) (r : nat) (o : Obj) (i : bool) :
  views s !! v = Some vw ->
  view_props vw !! "renderer" = Some (JRef r) ->
  heap s !! r = Some o -> obj_internal o = IRenderer i ->
  models s !! view_model vw = Some m ->
  exists s',
    SceneView_render_displayed v s = Ok tt s' /\
    log s' = log s ++ [Call r "initialize" [];
                       Assign r "backgroundColor" (attr m "background_color");
                       WindowAddEventListener "resize" v;
                       Listen (view_model vw) "change:background_color"
                         (cb_background_color v)] /\
    (exists o', heap s' !! r = Some o' /\ obj_internal o' = IRenderer true /\
                obj_fields o' !! "backgroundColor" = Some (attr m "background_color")) /\
    window_listeners s' = window_listeners s ++ [("resize", v)] /\
    (exists m', models s' !! view_model vw = Some m' /\
                events m' = events m ++ [("change:background_color", cb_background_color v)]) /\
    views s' = views s /\ jobs s' = jobs s.
Proof.
  intros Hvw Hr Ho Hi Hm. exists (after_displayed v vw m r o s).
  split; [by apply (SceneView_render_displayed_Ok _ _ _ _ _ _ i) |].
  split; [reflexivity |]. split; [| split; [reflexivity | split; [| by split]]].
  - eexists. split; [by apply (lookup_insert_Some _ _ o) |].
    split; [reflexivity | apply lookup_insert_eq].
  - eexists. split; [by apply (lookup_insert_Some _ _ m) | reflexivity].
Qed.

(** X15. The background color of a scene reaches the renderer through the
    view only. Before the arrow of [render] has run, a change of
    background_color on a model without listeners of it is stored and nothing
    else happens. After the arrow has run, the same change assigns the new
    color to [backgroundColor] of the view's renderer, and that is all. *)
Theorem background_color_reaches_the_renderer_after_display
    (s : State) (v : nat) (vw : View) (m : Model) (r : nat) (o : Obj) (i : bool)
    (c : JsValue) :
  views s !! v = Some vw ->
  view_props vw !! "renderer" = Some (JRef r) ->
  heap s !! r = Some o -> obj_internal o = IRenderer i ->
  models s !! view_model vw = Some m ->
  listeners "change:background_color" m = [] ->
  change (view_model vw) "background_color" c s
    = Ok tt (stored (view_model vw) "background_color" c m s) /\
  exists s1 s2,
    SceneView_render_displayed v s = Ok tt s1 /\
    change (view_model vw) "background_color" c s1 = Ok tt s2 /\
    log s2 = log s1 ++ [Assign r "backgroundColor" c] /\
    (exists o2, heap s2 !! r = Some o2 /\ obj_fields o2 !! "backgroundColor" = Some c).
Proof.
  intros Hvw Hr Ho Hi Hm Hnone. split.
  - rewrite (change_eq _ _ _ _ _ Hm).
    change ("change:" ++ "background_color")%string with "change:background_color".
    by rewrite Hnone.
  - exists (after_displayed v vw m r o s).
    set (m1 := add_events [("change:background_color", cb_background_color v)] m).
    set (s1 := after_displayed v vw m r o s).
    assert (Hm1 : models s1 !! view_model vw = Some m1)
      by (by apply (lookup_insert_Some _ _ m)).
    assert (Hl1 : listeners "change:background_color" m1 = [cb_background_color v]).
    { unfold listeners, m1. cbn [add_events events].
      rewrite filter_app, fmap_app. unfold listeners in Hnone. rewrite Hnone.
      reflexivity. }
    rewrite (change_eq _ _ _ _ _ Hm1).
    change ("change:" ++ "background_color")%string with "change:background_color".
    rewrite Hl1, for_of_one. cbn [run_callback].
    set (s1' := with_models _ s1).
    assert (Hvw1 : views s1' !! v = Some vw) by exact Hvw.
    assert (Hm1' : models s1' !! view_model vw
                   = Some (set_attribute "background_color" c m1))
      by (by apply (lookup_insert_Some _ _ m1)).
    assert (Ho1 : heap s1' !! r
                  = Some (with_field "backgroundColor" (attr m "background_color")
                            (with_internal (IRenderer true) o)))
      by (by apply (lookup_insert_Some _ _ o)).
    rewrite (bind_Ok _ _ _ _ _ (view_prop_Ok _ _ _ "renderer" Hvw1)), Hr.
    cbn [default from_option Datatypes.id].
    rewrite (bind_Ok _ _ _ _ _ (this_model_Ok _ _ _ Hvw1)).
    rewrite (bind_Ok _ _ _ _ _ (get_Ok _ _ _ "background_color" Hm1')).
    cbn [set_attribute attributes]. rewrite lookup_insert_eq.
    cbn [default from_option Datatypes.id].
    rewrite (assign_Ok _ _ _ _ _ Ho1).
    eexists. split; [by apply (SceneView_render_displayed_Ok _ _ _ _ _ _ i) |].
    split; [reflexivity |]. split; [reflexivity |].
    eexists. split; [js_red; by apply (lookup_insert_Some _ _ _ _ Ho1) |].
    apply lookup_insert_eq.
Qed.

End ViewEdges.

(** ** Binary attributes: the window of the DataView, partial elements *)

Section DeserializationEdges.
Context `{Env}.

(** X16. The deserializers read [data.data.buffer] and nothing else of the
    DataView: whatever [byteOffset] and [byteLength] the DataView has on its
    buffer, the typed array starts at the first byte of the buffer and counts
    a quarter of the buffer's bytes, so that its element 0 is made of the
    first four bytes of the buffer, not of the window. *)
Theorem deserialize_reads_the_buffer_not_the_window
    (bufs : Buffers.Store) (buffer off len : nat) (manager : JsValue)
    (bytes : list Byte.byte) (d : Deserializer) (t : ElementType) :
  bufs !! buffer = Some bytes ->
  length bytes mod 4 = 0 ->
  4 <= length bytes ->
  element_type d = Some t ->
  let msg := {| Buffers.data := {| dv_buffer := buffer; dv_byteOffset := off;
                                   dv_byteLength := len |} |} in
  exists a,
    run_deserializer d bufs msg manager = Some (inr a) /\
    ta_type a = t /\ ta_buffer a = buffer /\
    ta_byteOffset a = 0 /\ ta_length a = length bytes / 4 /\
    Buffers.element_bytes bufs a 0 = Some (take 4 bytes).
Proof.
  intros Hb Hlen Hfour Ht msg.
  exists {| ta_type := t; ta_buffer := buffer; ta_byteOffset := 0;
            ta_length := length bytes / 4 |}.
  split; [| repeat (split; [reflexivity |])].
  - destruct d; cbn [element_type] in Ht; try discriminate; injection Ht as <-;
      cbn [run_deserializer]; f_equal;
      unfold deserialize_float32array, deserialize_uint32array, msg;
      cbn [Buffers.data dv_buffer]; by apply new_TypedArray_whole_buffer.
  - unfold Buffers.element_bytes. cbn [ta_length ta_buffer ta_byteOffset].
    rewrite decide_True by (apply Nat.div_str_pos; lia). by rewrite Hb.
Qed.

(** X17. A buffer whose byte length is not a multiple of four cannot be
    viewed as an array of four-byte elements: both deserializers throw a
    RangeError, and so does the entry of every numeric attribute in the
    [serializers] tables, whatever the DataView's own [byteLength] is. *)
Theorem deserialize_rejects_a_partial_element
    (bufs : Buffers.Store) (data : Buffers.ArrayMessage) (manager : JsValue)
    (bytes : list Byte.byte) :
  bufs !! dv_buffer (Buffers.data data) = Some bytes ->
  length bytes mod 4 <> 0 ->
  deserialize_float32array bufs data manager = inl RangeError /\
  deserialize_uint32array bufs data manager = inl RangeError /\
  (forall cls key d, (cls, key, d) ∈ numeric_attributes ->
     serializers cls !! key = Some d /\
     run_deserializer d bufs data manager = Some (inl RangeError)).
Proof.
  intros Hb Hlen.
  destruct (deserialize_odd_length bufs data manager bytes Hb Hlen) as [Hf Hu].
  split; [exact Hf |]. split; [exact Hu |].
  intros cls key d Hin.
  pose proof numeric_attributes_serializers as Htab.
  rewrite Forall_forall in Htab. specialize (Htab _ Hin). cbn [fst snd] in Htab.
  split; [exact Htab |].
  destruct d; cbn [run_deserializer]; [by rewrite Hf | by rewrite Hu |].
  exfalso. unfold numeric_attributes in Hin.
  repeat (apply elem_of_cons in Hin as [Hin|Hin]; [discriminate |]).
  by apply elem_of_nil in Hin.
Qed.

End DeserializationEdges.

(** ** The defaults of the classes *)

Ltac defaults_lookup :=
  unfold defaults, ComponentModel_defaults, DataModel_defaults, TetraMeshModel_defaults,
    PolyMeshModel_defaults, IsoColorModel_defaults, IsoSurfaceModel_defaults,
    ThresholdModel_defaults, EffectModel_defaults, BlockModel_defaults, SceneModel_defaults,
    _OdysisWidgetModel_defaults, _OdysisDOMWidgetModel_defaults, spread;
  cbn [foldl fst snd];
  repeat (rewrite lookup_insert_ne by done);
  apply lookup_insert_eq.

Section Defaults.
Context `{Env}.

(** The static [model_name] of each class. *)
Definition model_name (cls : ModelClass) : string :=
  match cls with
  | ComponentModel => "ComponentModel"
  | DataModel => "DataModel"
  | PolyMeshModel => "PolyMeshModel"
  | TetraMeshModel => "TetraMeshModel"
  | IsoColorModel => "IsoColorModel"
  | IsoSurfaceModel => "IsoSurfaceModel"
  | ThresholdModel => "ThresholdModel"
  | SceneModel => "SceneModel"
  end.

(** X18. In the defaults of a class the entries of the class come over those
    of its ancestors, and all of them over the library's, whatever the
    library's defaults hold: [_model_name] is the name of the class itself,
    not BlockModel or EffectModel; the module name and version are this
    package's; every block class has the vertices, data, environment meshes,
    color #6395b0 and alpha 1 of BlockModel; every effect class has a null
    parent and a null input; the scene names its view SceneView. *)
Theorem defaults_of_the_class_come_last (cls : ModelClass) :
  defaults cls !! "_model_name" = Some (JStr (model_name cls)) /\
  defaults cls !! "_model_module" = Some (JStr MODULE_NAME) /\
  defaults cls !! "_model_module_version" = Some (JStr MODULE_VERSION) /\
  (forall c, (cls, c) ∈ block_classes ->
     defaults cls !! "vertices" = Some (JArr []) /\
     defaults cls !! "data" = Some (JArr []) /\
     defaults cls !! "environment_meshes" = Some (JArr []) /\
     defaults cls !! "default_color" = Some (JStr "#6395b0") /\
     defaults cls !! "default_alpha" = Some (JNum 1)) /\
  (forall c, (cls, c) ∈ effect_classes ->
     defaults cls !! "parent" = Some JNull /\ defaults cls !! "input" = Some JNull) /\
  (cls = SceneModel ->
     defaults cls !! "_view_name" = Some (JStr "SceneView") /\
     defaults cls !! "_view_module" = Some (JStr MODULE_NAME) /\
     defaults cls !! "background_color" = Some (JStr "#fff") /\
     defaults cls !! "children" = Some (JArr [])).
Proof.
  split; [destruct cls; defaults_lookup |].
  split; [destruct cls; defaults_lookup |].
  split; [destruct cls; defaults_lookup |].
  split; [| split].
  - intros c Hc. unfold block_classes in Hc. rewrite !elem_of_cons, elem_of_nil in Hc.
    destruct Hc as [E|[E|[E|[E|[E|[]]]]]]; injection E as -> ->;
      repeat split; defaults_lookup.
  - intros c Hc. apply effect_classes_inv in Hc as [[-> ->]|[[-> ->]|[-> ->]]];
      split; defaults_lookup.
  - intros ->. repeat split; defaults_lookup.
Qed.

End Defaults.

(** ** The construction of meshes and effects *)

Section Construction.
Context `{Env}.

(** X19. [initialize] of an effect model whose [parent] is a model constructs
    the effect on whatever that model holds as [block] at that moment, be it
    undefined: the first argument of the constructor is the parent's block,
    the second the selector, then the parameters of the class. After it the
    default color is assigned and the listeners are registered. *)
Theorem effect_initialize_takes_the_parent_block
    (s : State) (self : nat) (m : Model) (c : CoreClass) (p : nat) (pm : Model) :
  models s !! self = Some m ->
  (model_class m, c) ∈ effect_classes ->
  attr m "parent" = JModel p ->
  models s !! p = Some pm ->
  let r := length (heap s) in
  let args := default JUndefined (props pm !! "block")
              :: forwarded_selector (attr m "input") :: effect_parameters c m in
  initialize self s =
  Ok tt {| models := <[self := add_events (registered (model_class m))
                                 (set_property "block" (JRef r) m)]> (models s);
           views := views s;
           heap := heap s ++ [initialized_block c args m s];
           window_listeners := window_listeners s;
           jobs := jobs s;
           log := log s ++ New c args r :: Assign r "defaultColor" (attr m "default_color")
                    :: map (fun e => Listen self e.1 e.2) (registered (model_class m)) |}.
Proof.
  intros Hm Hc Hp Hpm r args.
  apply (BlockModel_initialize_inv s self m c args Hm).
  - apply effect_classes_inv in Hc as [[-> ->]|[[-> ->]|[-> ->]]]; in_list.
  - apply (effect_createBlock_inv _ _ _ _ _ _ Hm Hc).
    exists (default JUndefined (props pm !! "block")). split; [| by split].
    rewrite Hp. apply (get_prop_field _ _ _ _ Hpm (plain_block _)).
Qed.

(** The elements of an attribute that are models for which [name] is a
    plain field, no accessor, and what each holds as this field. *)
Definition fields_of (s : State) (name : string) (xs ys : list JsValue) : Prop :=
  Forall2 (fun x y => exists id mm, x = JModel id /\ models s !! id = Some mm /\
                                    accessor (model_class mm) name = None /\
                                    y = default JUndefined (props mm !! name)) xs ys.

Lemma map_fields s name xs ys :
  fields_of s name xs ys ->
  mapM (fun x => get_prop x name) xs s = Ok ys s.
Proof.
  induction 1 as [|x y xs ys (id & mm & -> & Hmm & Hacc & ->) _ IH]; [reflexivity |].
  cbn [mapM]. rewrite (bind_Ok _ _ _ _ _ (get_prop_field _ _ _ _ Hmm Hacc)).
  by rewrite (bind_Ok _ _ _ _ _ IH).
Qed.

(** X20. [initialize] of a PolyMesh or TetraMesh model whose [data] is a list
    of models without an accessor [data] (Data models, that is) and whose
    [environment_meshes] is a list of models constructs the mesh of the
    vertices, of the index arrays of the class, of the Data objects that the
    data models hold, in the order of the attribute, and of an options object
    whose [environmentMeshes] are the [obj] of the environment models; then it
    assigns the default color and registers the listeners. *)
Theorem mesh_initialize_collects_data
    (s : State) (self : nat) (m : Model) (dms ds ems es : list JsValue) :
  models s !! self = Some m ->
  model_class m ∈ [PolyMeshModel; TetraMeshModel] ->
  attributes m !! "data" = Some (JArr dms) ->
  fields_of s "data" dms ds ->
  attributes m !! "environment_meshes" = Some (JArr ems) ->
  fields_of s "obj" ems es ->
  let r := length (heap s) in
  let c := mesh_class (model_class m) in
  let args := attr m "vertices" :: mesh_indices m ++
              [JArr ds; JObj [("environmentMeshes", JArr es)]] in
  initialize self s =
  Ok tt {| models := <[self := add_events (registered (model_class m))
                                 (set_property "block" (JRef r) m)]> (models s);
           views := views s;
           heap := heap s ++ [initialized_block c args m s];
           window_listeners := window_listeners s;
           jobs := jobs s;
           log := log s ++ New c args r :: Assign r "defaultColor" (attr m "default_color")
                    :: map (fun e => Listen self e.1 e.2) (registered (model_class m)) |}.
Proof.
  intros Hm Hc Hd Hds He Hes r c args.
  assert (Hdata : BlockModel_data self s = Ok (JArr ds) s).
  { unfold BlockModel_data, BlockModel_data_from.
    rewrite (bind_Ok _ _ _ _ _ (get_Ok _ _ _ "data" Hm)), Hd.
    cbn [default from_option Datatypes.id].
    by apply array_map_Ok, map_fields. }
  assert (Henv : BlockModel_environmentMeshes self s = Ok (JArr es) s).
  { unfold BlockModel_environmentMeshes, BlockModel_environmentMeshes_from.
    rewrite (bind_Ok _ _ _ _ _ (get_Ok _ _ _ "environment_meshes" Hm)), He.
    cbn [default from_option Datatypes.id].
    by apply array_map_Ok, map_fields. }
  apply (BlockModel_initialize_inv s self m c args Hm).
  - unfold c. rewrite !elem_of_cons, elem_of_nil in Hc.
    destruct Hc as [->|[->|[]]]; cbn [mesh_class]; in_list.
  - unfold createBlock. rewrite (bind_Ok _ _ _ _ _ (this_class_Ok _ _ _ Hm)).
    unfold args, c, mesh_indices. rewrite !elem_of_cons, elem_of_nil in Hc.
    destruct Hc as [->|[->|[]]]; cbn [mesh_class app];
      unfold PolyMeshModel_createBlock, TetraMeshModel_createBlock, BlockModel_vertices,
        PolyMeshModel_triangleIndices, TetraMeshModel_tetrahedronIndices;
      rewrite ?(bind_Ok _ _ _ _ _ (get_Ok _ _ _ "vertices" Hm));
      rewrite ?(bind_Ok _ _ _ _ _ (get_Ok _ _ _ "triangle_indices" Hm));
      rewrite ?(bind_Ok _ _ _ _ _ (get_Ok _ _ _ "tetrahedron_indices" Hm));
      rewrite (bind_Ok _ _ _ _ _ Hdata), (bind_Ok _ _ _ _ _ Henv);
      apply new_block_eq.
Qed.




(** What [initialize] of a model may log: anything but a call of
    [initialize] on a renderer, an assignment of a background color, a
    listener on the window, or a listener of a view on a model. *)
Definition model_event (e : Event) : Prop :=
  match e with
  | Call _ method _ => method <> "initialize"
  | Assign _ field _ => field <> "backgroundColor"
  | WindowAddEventListener _ _ => False
  | Listen _ _ cb => is_view_callback cb = false
  | New _ _ _ | ClassListAdd _ _ | Displayed _ => True
  end.

Lemma harmless_model_event e : harmless e -> model_event e.
Proof.
  intros Hh. specialize (Hh []). destruct e as [| | |i n cb| |t v|]; cbn in *; try done.
  - intros ->. by apply elem_of_nil in Hh.
  - intros ->. destruct Hh as (v & sc & Hd & _); [reflexivity |]. by apply elem_of_nil in Hd.
  - destruct cb; try reflexivity. destruct Hh as (r & sc & Hn & _). by apply elem_of_nil in Hn.
  - destruct Hh as (r & sc & Hn & _). by apply elem_of_nil in Hn.
Qed.

(** X22. [initialize] of a model of any class, whether it returns or throws,
    stays on the model's side: the views, the listeners of the window and the
    queue of microtasks are as before; the log only grows, and by no call of a
    renderer's [initialize], no assignment of a background color and no
    listener of a view; every scene of the heap keeps the blocks it had, in
    their order, at the head of its list. *)
Theorem initialize_stays_on_the_models_side (self : nat) (s : State) :
  let s' := final_state (initialize self s) in
  views s' = views s /\
  jobs s' = jobs s /\
  window_listeners s' = window_listeners s /\
  (exists l, log s' = log s ++ l /\ Forall model_event l) /\
  (forall r o cur, heap s !! r = Some o -> obj_internal o = IScene cur ->
     exists o' new, heap s' !! r = Some o' /\ obj_internal o' = IScene (cur ++ new)).
Proof.
  destruct (steps_initialize self s) as [Hv Hj Hw (l & Hl & Hall) _ Hs]. cbv zeta.
  split; [exact Hv |]. split; [exact Hj |]. split; [exact Hw |]. split; [| exact Hs].
  exists l. split; [exact Hl |].
  eapply Forall_impl; [exact Hall | apply harmless_model_event].
Qed.

End Construction.

(** * Examples *)

(** A core for the examples: an effect answers 1 for a name, 3 for a list of
    three names as it arrives, 0 otherwise; every block has radius 1;
    [setInput] stores the selector. *)
Definition sample_inputDimension (c : CoreClass) (args : list JsValue) (h : list Obj)
  : float :=
  match args with
  | _ :: JStr _ :: _ => 1%float
  | _ :: JArr [JArr [_; _; _]] :: _ => 3%float
  | _ => 0%float
  end.

Definition sample_env : Env := {|
  MODULE_NAME := "ipygany";
  MODULE_VERSION := "0.1.0";
  WidgetModel_defaults := ∅;
  DOMWidgetModel_defaults := ∅;
  WidgetModel_serializers := ∅;
  DOMWidgetModel_serializers := ∅;
  core_inputDimension := sample_inputDimension;
  core_boundingSphereRadius := fun _ _ _ => 1%float;
  core_setInput := fun o v => with_field "input" v o;
  call_stack_limit := 1000
|}.

#[local] Existing Instance sample_env.

(** A mesh, an IsoColor on it with no input yet, an IsoSurface on it with a
    named input, a scene of the first two, and a view of the scene. *)
Definition example_actions : list Action :=
  [ act_new_model PolyMeshModel ∅;
    act_new_model IsoColorModel {[ "parent" := JModel 0 ]};
    act_new_model IsoSurfaceModel (<["input" := JStr "u"]> {[ "parent" := JModel 0 ]});
    act_new_model SceneModel {[ "children" := JArr [JModel 0; JModel 1] ]};
    act_create_view 3 ].

Definition example_state : State := Eval vm_compute in run example_actions initial_state.

Lemma example_state_reached : example_state = run example_actions initial_state.
Proof. vm_compute. reflexivity. Qed.

(** The example once its view is displayed. *)
Definition example_displayed : State :=
  Eval vm_compute in run [act_displayed 0] example_state.

(** The log of the example, and of the example once the view is displayed
    and the background color changes. *)
Example example_log :
  log example_state =
  [ New PolyMesh [JArr []; JArr []; JArr []; JObj [("environmentMeshes", JArr [])]] 0;
    Assign 0 "defaultColor" (JStr "#6395b0");
    Listen 0 "change:default_color" cb_default_color;
    Listen 0 "change:default_alpha" cb_default_alpha;
    Listen 0 "change:vertices" cb_vertices;
    New IsoColor [JRef 0; JArr [JNull]; JNum 0; JNum 0] 1;
    Assign 1 "defaultColor" (JStr "#6395b0");
    Listen 1 "change:default_color" cb_default_color;
    Listen 1 "change:default_alpha" cb_default_alpha;
    Listen 1 "change:input" cb_updateInput;
    Listen 1 "change:min" cb_IsoColor_min;
    Listen 1 "change:max" cb_IsoColor_max;
    New IsoSurface [JRef 0; JStr "u"; JNum 0] 2;
    Assign 2 "defaultColor" (JStr "#6395b0");
    Listen 2 "change:default_color" cb_default_color;
    Listen 2 "change:default_alpha" cb_default_alpha;
    Listen 2 "change:input" cb_updateInput;
    Listen 2 "change:value" cb_value;
    New Scene [] 3;
    New Vector3 [JNum 1; JNum 1; JNum 1] 4;
    Assign 0 "scale" (JRef 4); Call 3 "addChild" [JRef 0];
    Assign 1 "scale" (JRef 4); Call 3 "addChild" [JRef 1];
    Listen 3 "change:children" cb_updateChildren;
    ClassListAdd 0 "odysis-scene";
    New Renderer [JElement 0; JRef 3] 5 ].
Proof. reflexivity. Qed.

Example example_displayed_log :
  log (run [act_change 3 "background_color" (JStr "#000");
            act_displayed 0;
            act_change 3 "background_color" (JStr "#111")] example_state) =
  log example_state ++
  [ Displayed 0;
    Call 5 "initialize" [];
    Assign 5 "backgroundColor" (JStr "#000");
    WindowAddEventListener "resize" 0;
    Listen 3 "change:background_color" (cb_background_color 0);
    Assign 5 "backgroundColor" (JStr "#111") ].
Proof. vm_compute. reflexivity. Qed.

(** ** The theorems at work on the examples *)

(** Three meshes of radii 2, 4 and 1 in a scene that holds nothing yet. *)
Definition block_of_radius (radius : float) : Obj :=
  {| obj_class := PolyMesh; obj_args := []; obj_fields := ∅;
     obj_internal := IBlock 0 radius |}.

Definition mesh_model_of (b : nat) : Model :=
  {| model_class := PolyMeshModel; attributes := ∅;
     events := registered PolyMeshModel; props := {[ "block" := JRef b ]} |}.

Definition three_meshes : State :=
  {| models := [ mesh_model_of 0; mesh_model_of 1; mesh_model_of 2;
                 {| model_class := SceneModel;
                    attributes := {[ "children" := JArr [JModel 0; JModel 1; JModel 2] ]};
                    events := registered SceneModel;
                    props := {[ "scene" := JRef 3 ]} |} ];
     views := [];
     heap := [ block_of_radius 2; block_of_radius 4; block_of_radius 1;
               {| obj_class := Scene; obj_args := []; obj_fields := ∅;
                  obj_internal := IScene [] |} ];
     window_listeners := []; jobs := []; log := [] |}.

Lemma three_meshes_children : child_blocks three_meshes [JModel 0; JModel 1; JModel 2] [0; 1; 2].
Proof.
  repeat (constructor; [eexists _, _; split; [reflexivity | split; reflexivity] |]).
  constructor.
Defined.

Lemma three_meshes_radii : block_radii three_meshes [0; 1; 2] [2; 4; 1]%float.
Proof.
  repeat (constructor; [eexists _, _; split; reflexivity |]). constructor.
Defined.

(** Radii 2, 4 and 1: every child gets the vector (0.25, 0.25, 0.25). *)
Lemma scale_of_radii_2_4_1 :
  exists s',
    SceneModel_updateChildren 3 three_meshes = Ok tt s' /\
    heap s' !! 4 = Some (vector3 0.25 0.25 0.25) /\
    (forall b, b ∈ [0; 1; 2] ->
       exists o, heap s' !! b = Some o /\ obj_fields o !! "scale" = Some (JRef 4)) /\
    log s' = [ New Vector3 [JNum 0.25; JNum 0.25; JNum 0.25] 4;
               Assign 0 "scale" (JRef 4); Call 3 "addChild" [JRef 0];
               Assign 1 "scale" (JRef 4); Call 3 "addChild" [JRef 1];
               Assign 2 "scale" (JRef 4); Call 3 "addChild" [JRef 2] ].
Proof.
  destruct (updateChildren_assigns_one_scale_to_every_child three_meshes 3 _ 3 _ []
              [JModel 0; JModel 1; JModel 2] [0; 1; 2] [2; 4; 1]%float
              eq_refl eq_refl eq_refl eq_refl eq_refl ltac:(discriminate)
              three_meshes_children three_meshes_radii)
    as (s' & Hrun & Hvec & Hblocks & Hlog & _).
  exists s'. split; [exact Hrun |]. split; [exact Hvec |]. split; [| exact Hlog].
  intros b Hb. destruct (Hblocks b Hb) as (o & _ & Ho & Hs). eauto.
Defined.

(** The IsoColor of the example has no input bound: a change of [input]
    reaches neither the heap nor the log. *)
Lemma unbound_IsoColor_ignores_input :
  exists s', change 1 "input" (JStr "u") example_state = Ok tt s' /\
             heap s' = heap example_state /\ log s' = log example_state.
Proof.
  edestruct (unbound_effect_ignores_input_change example_state 1)
    with (c := IsoColor) (r := 1) (v := JStr "u")
    as (s' & Hrun & Hzero & _);
    [reflexivity | in_list | reflexivity | reflexivity | reflexivity | reflexivity |].
  destruct (Hzero eq_refl) as (_ & Hheap & Hlog & _).
  exists s'. auto.
Defined.

(** A change of [min] on the IsoColor of the example. *)
Lemma IsoColor_min_change :
  exists s', change 1 "min" (JNum 3) example_state = Ok tt s' /\
             log s' = log example_state ++ [Assign 1 "min" (JNum 3)].
Proof.
  edestruct (min_max_change_assigns_the_field_only example_state 1)
    with (r := 1) (key := "min") (v := JNum 3)
    as (s' & Hrun & Hlog & _);
    [reflexivity | in_list | in_list | reflexivity | reflexivity | reflexivity |].
  exists s'. auto.
Defined.

(** The scene of the example holds the blocks 0 and 1; it holds them still,
    first and in this order, after another run of [updateChildren]. *)
Lemma scene_keeps_children :
  exists o' new,
    heap (final_state (SceneModel_updateChildren 3 example_state)) !! 3 = Some o' /\
    obj_internal o' = IScene ([JRef 0; JRef 1] ++ new).
Proof.
  exact (proj1 (updateChildren_keeps_previous_children example_state 3 3 _
                  [JRef 0; JRef 1] eq_refl eq_refl)).
Defined.

(** Every property that the spec names has a change callback on some class. *)
Definition every_named_property_has_a_callback : Prop :=
  forall key, key ∈ spec_mutable_properties ->
    exists cls, ("change:" ++ key)%string ∈ (registered cls).*1.

(** [data] is named and has none: on the mesh of the example, built by
    [initialize], no listener answers to change:data, and a change of [data]
    leaves the heap of core objects and the log as they were. *)
Lemma data_change_has_no_callback :
  ~ every_named_property_has_a_callback /\
  (exists m, models example_state !! 0 = Some m /\ model_class m = PolyMeshModel /\
             events m = registered PolyMeshModel /\ listeners "change:data" m = []) /\
  heap (final_state (change 0 "data" (JArr [JModel 7]) example_state)) = heap example_state /\
  log (final_state (change 0 "data" (JArr [JModel 7]) example_state)) = log example_state.
Proof.
  split; [| split; [| split]].
  - intros Hall. destruct (Hall "data") as [cls Hin]; [unfold spec_mutable_properties; in_list |].
    destruct cls; cbn in Hin; rewrite ?elem_of_cons, ?elem_of_nil in Hin;
      intuition discriminate.
  - eexists. repeat split; reflexivity.
  - vm_compute. reflexivity.
  - vm_compute. reflexivity.
Qed.

(** The scene and the mesh of the example once its view is displayed. *)
Definition displayed_scene : Model :=
  Eval vm_compute in
    default {| model_class := SceneModel; attributes := ∅; events := []; props := ∅ |}
      (models example_displayed !! 3).

Definition displayed_mesh : Model :=
  Eval vm_compute in
    default {| model_class := PolyMeshModel; attributes := ∅; events := []; props := ∅ |}
      (models example_displayed !! 0).

(** The view's listener for [change:background_color] has joined the scene's
    own, and a change of [children] still runs [updateChildren]. On the mesh,
    a change of [data] is stored in the model and goes no further. *)
Lemma displayed_scene_commits_children :
  models example_displayed !! 3 = Some displayed_scene /\
  events displayed_scene =
    registered SceneModel ++ [("change:background_color", cb_background_color 0)] /\
  change 3 "children" (JArr [JModel 2]) example_displayed =
    SceneModel_updateChildren 3
      (stored 3 "children" (JArr [JModel 2]) displayed_scene example_displayed) /\
  exists s', change 0 "data" (JArr [JModel 7]) example_displayed = Ok tt s' /\
             heap s' = heap example_displayed /\ log s' = log example_displayed.
Proof.
  assert (Hscene : models example_displayed !! 3 = Some displayed_scene) by reflexivity.
  assert (Hmesh : models example_displayed !! 0 = Some displayed_mesh) by reflexivity.
  assert (Hown3 : own_events displayed_scene = registered (model_class displayed_scene))
    by reflexivity.
  assert (Hown0 : own_events displayed_mesh = registered (model_class displayed_mesh))
    by reflexivity.
  destruct (change_callbacks_commit_all_but_data example_displayed 3 displayed_scene
              (JArr [JModel 2]) Hscene Hown3) as (_ & _ & Hchildren & _).
  destruct (change_callbacks_commit_all_but_data example_displayed 0 displayed_mesh
              (JArr [JModel 7]) Hmesh Hown0)
    as (_ & _ & _ & _ & (_ & Hrun & Hheap & Hlog) & _).
  split; [exact Hscene |]. split; [reflexivity |]. split; [exact (Hchildren eq_refl) |].
  eexists. split; [exact Hrun | split; [exact Hheap | exact Hlog]].
Defined.

(** Eight bytes, seen as two elements. *)
Definition eight_bytes : Buffers.Store :=
  [ [Byte.x00; Byte.x00; Byte.x80; Byte.x3f; Byte.x02; Byte.x00; Byte.x00; Byte.x00] ].

Lemma eight_bytes_are_two_elements :
  let data := {| Buffers.data := {| dv_buffer := 0; dv_byteOffset := 0; dv_byteLength := 8 |} |} in
  deserialize_float32array eight_bytes data JNull =
    inr {| ta_type := Float32; ta_buffer := 0; ta_byteOffset := 0; ta_length := 2 |} /\
  deserialize_uint32array eight_bytes data JNull =
    inr {| ta_type := Uint32; ta_buffer := 0; ta_byteOffset := 0; ta_length := 2 |} /\
  Buffers.get_uint32 eight_bytes
    {| ta_type := Uint32; ta_buffer := 0; ta_byteOffset := 0; ta_length := 2 |} 1 = Some 2%Z.
Proof.
  intros data.
  destruct (deserialize_is_view_on_received_buffer eight_bytes data JNull _ eq_refl eq_refl)
    as (Hf & Hu & _).
  split; [exact Hf |]. split; [exact Hu | reflexivity].
Defined.

(** A TetraMesh model that the host has made and not yet initialized. *)
Definition tetra_attributes : gmap string JsValue :=
  <["vertices" := JTyped {| ta_type := Float32; ta_buffer := 0; ta_byteOffset := 0;
                            ta_length := 12 |}]>
  (<["triangle_indices" := JTyped {| ta_type := Uint32; ta_buffer := 1; ta_byteOffset := 0;
                                     ta_length := 12 |}]>
  (<["tetrahedron_indices" := JTyped {| ta_type := Uint32; ta_buffer := 2; ta_byteOffset := 0;
                                        ta_length := 4 |}]> ∅)).

Definition fresh_tetra : State :=
  with_models (fun _ => [ {| model_class := TetraMeshModel;
                             attributes := tetra_attributes ∪ defaults TetraMeshModel;
                             events := []; props := ∅ |} ]) initial_state.

Lemma tetra_constructed_with_both :
  exists s1,
    createBlock 0 fresh_tetra = Ok (JRef 0) s1 /\
    log s1 =
    [ New TetraMesh
        [ JTyped {| ta_type := Float32; ta_buffer := 0; ta_byteOffset := 0; ta_length := 12 |};
          JTyped {| ta_type := Uint32; ta_buffer := 1; ta_byteOffset := 0; ta_length := 12 |};
          JTyped {| ta_type := Uint32; ta_buffer := 2; ta_byteOffset := 0; ta_length := 4 |};
          JArr []; JObj [("environmentMeshes", JArr [])] ] 0 ].
Proof.
  eexists. split.
  - apply (proj2 (TetraMesh_constructed_from_both_index_attributes fresh_tetra 0 _ _ _
                    eq_refl eq_refl)).
    exists (JArr []), (JArr []). split; [reflexivity |]. split; [reflexivity |].
    split; reflexivity.
  - reflexivity.
Defined.

(** The selectors of the example's effects: no input is [[null]], a name is
    the name. *)
Lemma example_selectors :
  this_input 1 example_state = Ok (JArr [JNull]) example_state /\
  this_input 2 example_state = Ok (JStr "u") example_state.
Proof.
  split.
  - refine (proj1 (effect_input_is_string_or_wrapped example_state 1 _ IsoColor
                     eq_refl _ eq_refl)). in_list.
  - refine (proj1 (effect_input_is_string_or_wrapped example_state 2 _ IsoSurface
                     eq_refl _ eq_refl)). in_list.
Defined.

(** [initialize] of the TetraMesh model: the color is assigned, the alpha
    waits for its change. *)
Lemma tetra_initialize :
  exists s2,
    initialize 0 fresh_tetra = Ok tt s2 /\
    forall v, exists s3,
      change 0 "default_alpha" v s2 = Ok tt s3 /\
      log s3 = log s2 ++ [Assign 0 "defaultAlpha" v].
Proof.
  edestruct (initialize_assigns_default_color_not_alpha fresh_tetra 0)
    as (c & args & s2 & _ & Hinit & _ & _ & _ & _ & _ & Hlater);
    [reflexivity | reflexivity | reflexivity |].
  exists s2. split; [exact Hinit |].
  intros v. destruct (Hlater v) as (s3 & Hrun & Hlog & _). eauto.
Defined.

(** ** More of the code at work on the examples *)

(** A Component model that the host has made of a name, not yet initialized. *)
Definition fresh_component : State :=
  with_models (fun _ => [ {| model_class := ComponentModel;
                             attributes := {[ "name" := JStr "u" ]} ∪ defaults ComponentModel;
                             events := []; props := ∅ |} ]) initial_state.

Lemma component_of_a_name :
  log (final_state (initialize 0 fresh_component)) =
  [ New Component [JStr "u"; JArr []] 0; Listen 0 "change:array" cb_array ].
Proof.
  pose proof (ComponentModel_initialize_total fresh_component 0 _ eq_refl eq_refl) as Hrun.
  cbv zeta in Hrun. rewrite Hrun. reflexivity.
Defined.

(** An initialized Component model, and a Data model of it that is not yet
    initialized. *)
Definition fresh_data (components : JsValue) : State :=
  {| models := [ {| model_class := ComponentModel; attributes := ∅;
                    events := registered ComponentModel;
                    props := {[ "component" := JRef 0 ]} |};
                 {| model_class := DataModel;
                    attributes := <["components" := components]> {[ "name" := JStr "field" ]};
                    events := []; props := ∅ |} ];
     views := [];
     heap := [ {| obj_class := Component; obj_args := [JStr "u"; JArr []];
                  obj_fields := ∅; obj_internal := IPlain |} ];
     window_listeners := []; jobs := []; log := [] |}.

Lemma data_of_one_component :
  log (final_state (initialize 1 (fresh_data (JArr [JModel 0])))) =
  [ New Data [JStr "field"; JArr [JRef 0]] 1 ].
Proof.
  assert (Hcs : components_of (fresh_data (JArr [JModel 0])) [JModel 0] [JRef 0]).
  { constructor; [| constructor]. eexists _, _. split; [reflexivity |]. split; reflexivity. }
  pose proof (DataModel_initialize_collects_components (fresh_data (JArr [JModel 0])) 1 _
                [JModel 0] [JRef 0] eq_refl eq_refl eq_refl Hcs) as Hrun.
  cbv zeta in Hrun. rewrite Hrun. reflexivity.
Defined.

Lemma data_of_null_components :
  initialize 1 (fresh_data JNull) = Throw TypeError (fresh_data JNull) /\
  initialize 1 (fresh_data (JArr [JModel 0; JNull]))
    = Throw TypeError (fresh_data (JArr [JModel 0; JNull])).
Proof.
  split.
  - apply (DataModel_initialize_rejects_bad_components (fresh_data JNull) 1 _
             eq_refl eq_refl).
    left. exact I.
  - apply (DataModel_initialize_rejects_bad_components
             (fresh_data (JArr [JModel 0; JNull])) 1 _ eq_refl eq_refl).
    right. exists [JModel 0; JNull], JNull. split; [reflexivity |].
    split; [in_list | by left].
Defined.

(** An IsoColor model that the host has made without a parent. *)
Definition orphan_model : Model :=
  {| model_class := IsoColorModel; attributes := defaults IsoColorModel;
     events := []; props := ∅ |}.

Definition orphan_effect : State := with_models (fun _ => [orphan_model]) initial_state.

Lemma orphan_effect_throws :
  initialize 0 orphan_effect = Throw TypeError orphan_effect.
Proof.
  assert (Hc : (model_class orphan_model, IsoColor) ∈ effect_classes) by in_list.
  assert (Hp : attr orphan_model "parent" = JNull \/ attr orphan_model "parent" = JUndefined)
    by (left; vm_compute; reflexivity).
  exact (proj1 (effect_without_parent_cannot_initialize orphan_effect 0 orphan_model IsoColor
                  eq_refl Hc Hp)).
Defined.

(** The IsoColor of the example does not listen to its vertices. *)
Lemma effect_vertices_are_stored_only :
  exists s', change 1 "vertices" (JArr [JNum 1]) example_state = Ok tt s' /\
             heap s' = heap example_state /\ log s' = log example_state.
Proof.
  edestruct (change_without_listener_is_stored_only example_state 1)
    with (key := "vertices") (v := JArr [JNum 1])
    as (Hrun & Hheap & Hlog & _);
    [reflexivity | reflexivity | in_list |].
  eexists. split; [exact Hrun | split; [exact Hheap | exact Hlog]].
Defined.

(** A scene without children. *)
Definition empty_scene : State :=
  {| models := [ {| model_class := SceneModel;
                    attributes := {[ "children" := JArr [] ]};
                    events := registered SceneModel;
                    props := {[ "scene" := JRef 0 ]} |} ];
     views := [];
     heap := [ {| obj_class := Scene; obj_args := []; obj_fields := ∅;
                  obj_internal := IScene [] |} ];
     window_listeners := []; jobs := []; log := [] |}.

Lemma empty_scene_gets_a_vector :
  log (final_state (SceneModel_updateChildren 0 empty_scene)) =
  [ New Vector3 [JNum (-0); JNum (-0); JNum (-0)] 1 ].
Proof.
  destruct (updateChildren_of_no_children empty_scene 0 _ eq_refl eq_refl) as (Hrun & _).
  rewrite Hrun. reflexivity.
Defined.

(** A scene of a mesh and of a Data model, which holds no block. *)
Definition scene_of_a_data_model : State :=
  {| models := [ mesh_model_of 0;
                 {| model_class := DataModel; attributes := ∅; events := [];
                    props := {[ "data" := JRef 1 ]} |};
                 {| model_class := SceneModel;
                    attributes := {[ "children" := JArr [JModel 0; JModel 1] ]};
                    events := registered SceneModel;
                    props := {[ "scene" := JRef 2 ]} |} ];
     views := [];
     heap := [ block_of_radius 2;
               {| obj_class := Data; obj_args := []; obj_fields := ∅;
                  obj_internal := IPlain |};
               {| obj_class := Scene; obj_args := []; obj_fields := ∅;
                  obj_internal := IScene [] |} ];
     window_listeners := []; jobs := []; log := [] |}.

Lemma data_model_is_no_child :
  SceneModel_updateChildren 2 scene_of_a_data_model
  = Throw TypeError scene_of_a_data_model.
Proof.
  apply (updateChildren_rejects_a_child_without_block scene_of_a_data_model 2 _
           [JModel 0; JModel 1] (JModel 1) eq_refl eq_refl).
  - in_list.
  - right. right. eexists _, _. split; [reflexivity |]. split; reflexivity.
Defined.

(** The three meshes, added twice. *)
Lemma three_meshes_twice :
  exists s1 s2 osc2,
    SceneModel_updateChildren 3 three_meshes = Ok tt s1 /\
    SceneModel_updateChildren 3 s1 = Ok tt s2 /\
    heap s2 !! 3 = Some osc2 /\
    obj_internal osc2 = IScene [JRef 0; JRef 1; JRef 2; JRef 0; JRef 1; JRef 2].
Proof.
  destruct (updateChildren_twice_adds_twice three_meshes 3 _ 3 _ []
              [JModel 0; JModel 1; JModel 2] [0; 1; 2] [2; 4; 1]%float
              eq_refl eq_refl eq_refl eq_refl eq_refl
              three_meshes_children three_meshes_radii)
    as (s1 & s2 & Hrun1 & Hrun2 & _ & (osc2 & Hosc2 & Hint) & _).
  exists s1, s2, osc2. auto.
Defined.

(** A mesh of radius 2 and a mesh whose radius is NaN. *)
Definition mesh_without_radius : State :=
  {| models := [ mesh_model_of 0; mesh_model_of 1;
                 {| model_class := SceneModel;
                    attributes := {[ "children" := JArr [JModel 0; JModel 1] ]};
                    events := registered SceneModel;
                    props := {[ "scene" := JRef 2 ]} |} ];
     views := [];
     heap := [ block_of_radius 2; block_of_radius nan;
               {| obj_class := Scene; obj_args := []; obj_fields := ∅;
                  obj_internal := IScene [] |} ];
     window_listeners := []; jobs := []; log := [] |}.

Lemma mesh_without_radius_children :
  child_blocks mesh_without_radius [JModel 0; JModel 1] [0; 1].
Proof.
  repeat (constructor; [eexists _, _; split; [reflexivity | split; reflexivity] |]).
  constructor.
Defined.

Lemma mesh_without_radius_radii : block_radii mesh_without_radius [0; 1] [2; nan]%float.
Proof.
  repeat (constructor; [eexists _, _; split; reflexivity |]). constructor.
Defined.

Lemma NaN_scale_for_both :
  exists s' k,
    SceneModel_updateChildren 2 mesh_without_radius = Ok tt s' /\
    is_nan k = true /\
    heap s' !! 3 = Some (vector3 k k k).
Proof.
  assert (Hnan : Exists (fun radius => is_nan radius = true) [2; nan]%float)
    by (apply Exists_cons_tl, Exists_cons_hd; reflexivity).
  destruct (updateChildren_NaN_radius_gives_NaN_scale mesh_without_radius 2 _ 2 _ []
              [JModel 0; JModel 1] [0; 1] [2; nan]%float
              eq_refl eq_refl eq_refl eq_refl eq_refl
              mesh_without_radius_children mesh_without_radius_radii Hnan)
    as (s' & k & Hrun & Hk & Hvec & _).
  exists s', k. auto.
Defined.

(** Two meshes and a scene model of them that is not yet initialized. *)
Definition fresh_scene : State :=
  {| models := [ mesh_model_of 0; mesh_model_of 1;
                 {| model_class := SceneModel;
                    attributes := {[ "children" := JArr [JModel 1; JModel 0] ]}
                                  ∪ defaults SceneModel;
                    events := []; props := ∅ |} ];
     views := [];
     heap := [ block_of_radius 2; block_of_radius 4 ];
     window_listeners := []; jobs := []; log := [] |}.

Lemma fresh_scene_children : child_blocks fresh_scene [JModel 1; JModel 0] [1; 0].
Proof.
  repeat (constructor; [eexists _, _; split; [reflexivity | split; reflexivity] |]).
  constructor.
Defined.

Lemma fresh_scene_radii : block_radii fresh_scene [1; 0] [4; 2]%float.
Proof.
  repeat (constructor; [eexists _, _; split; reflexivity |]). constructor.
Defined.

Lemma fresh_scene_initialized :
  exists s',
    initialize 2 fresh_scene = Ok tt s' /\
    log s' = [ New Scene [] 2;
               New Vector3 [JNum 0.25; JNum 0.25; JNum 0.25] 3;
               Assign 1 "scale" (JRef 3); Call 2 "addChild" [JRef 1];
               Assign 0 "scale" (JRef 3); Call 2 "addChild" [JRef 0];
               Listen 2 "change:children" cb_updateChildren ].
Proof.
  destruct (SceneModel_initialize_adds_the_children fresh_scene 2 _
              [JModel 1; JModel 0] [1; 0] [4; 2]%float
              eq_refl eq_refl eq_refl fresh_scene_children fresh_scene_radii)
    as (s' & Hrun & _ & _ & Hlog).
  exists s'. split; [exact Hrun | exact Hlog].
Defined.

(** The view of the example answers after-show, before it is displayed even,
    does not answer before-attach, and is displayed on after-attach. *)
Lemma view_answers_after_show :
  SceneView_processPhosphorMessage 0 "after-show" example_state
    = Ok tt (with_log (fun l => l ++ [Call 5 "resize" []]) example_state) /\
  SceneView_processPhosphorMessage 0 "before-attach" example_state = Ok tt example_state /\
  log (final_state (SceneView_processPhosphorMessage 0 "after-attach" example_state))
    = log example_state ++ [Displayed 0].
Proof.
  split; [| split].
  - destruct (processPhosphorMessage_resizes_on_two_types example_state 0 _ "after-show"
                eq_refl) as (_ & _ & Hyes).
    destruct (Hyes (or_intror eq_refl)) as [Hresize _].
    apply (Hresize 5 _ false eq_refl eq_refl eq_refl).
  - destruct (processPhosphorMessage_resizes_on_two_types example_state 0 _ "before-attach"
                eq_refl) as (Hno & _).
    apply Hno; discriminate.
  - destruct (processPhosphorMessage_resizes_on_two_types example_state 0 _ "after-attach"
                eq_refl) as (_ & Hattach & _).
    destruct (Hattach eq_refl) as (Heq & _ & Hpending).
    destruct (Hpending eq_refl) as (s' & vw' & Hrun & Hlog & _).
    rewrite Heq, Hrun. exact Hlog.
Defined.

Lemma removed_view_still_resizes :
  exists s1 l,
    SceneView_remove 0 example_displayed = Ok tt s1 /\
    log s1 = log example_displayed ++ [Call 5 "dispose" []; Call 5 "dispose" []] /\
    SceneView_remove 0 s1 = Ok tt (with_log (fun l => l ++ [Call 5 "dispose" []]) s1) /\
    log (final_state (window_resize s1)) = log s1 ++ l /\
    Call 5 "resize" [] ∈ l.
Proof.
  destruct (remove_keeps_the_resize_listener example_displayed 0 _ 5 _ true
              eq_refl eq_refl eq_refl eq_refl eq_refl)
    as (s1 & Hrun & Hlog & _ & _ & _ & Hagain & Hlater).
  destruct Hlater as (l & Hl & Hin); [in_list |].
  exists s1, l. auto.
Defined.

(** The models of the example and a view of its scene that is not yet
    rendered. *)
Definition example_models : State :=
  Eval vm_compute in run (take 4 example_actions) initial_state.

Definition unrendered : State :=
  with_views (fun _ => [ {| view_model := 3; view_props := ∅; classList := [];
                            displayed := {| resolved := false; reactions := [] |} |} ])
    example_models.

Lemma render_of_the_example :
  log (final_state (SceneView_render 0 unrendered)) =
  log unrendered ++ [ ClassListAdd 0 "odysis-scene"; New Renderer [JElement 0; JRef 3] 5 ] /\
  jobs (final_state (SceneView_render 0 unrendered)) = [].
Proof.
  pose proof (render_constructs_and_waits unrendered 0 _ _ eq_refl eq_refl) as Hrun.
  cbv zeta in Hrun. rewrite Hrun. split; reflexivity.
Defined.

Lemma displayed_arrow_of_the_example :
  exists s',
    SceneView_render_displayed 0 example_state = Ok tt s' /\
    log s' = log example_state ++
             [ Call 5 "initialize" [];
               Assign 5 "backgroundColor" (JStr "#fff");
               WindowAddEventListener "resize" 0;
               Listen 3 "change:background_color" (cb_background_color 0) ].
Proof.
  destruct (displayed_arrow_initializes_then_registers example_state 0 _ _ 5 _ false
              eq_refl eq_refl eq_refl eq_refl eq_refl)
    as (s' & Hrun & Hlog & _).
  exists s'. split; [exact Hrun | exact Hlog].
Defined.

Lemma background_before_and_after :
  log (final_state (change 3 "background_color" (JStr "#000") example_state))
    = log example_state /\
  exists s1 s2,
    SceneView_render_displayed 0 example_state = Ok tt s1 /\
    change 3 "background_color" (JStr "#000") s1 = Ok tt s2 /\
    log s2 = log s1 ++ [Assign 5 "backgroundColor" (JStr "#000")].
Proof.
  destruct (background_color_reaches_the_renderer_after_display example_state 0 _ _ 5 _ false
              (JStr "#000") eq_refl eq_refl eq_refl eq_refl eq_refl eq_refl)
    as (Hbefore & s1 & s2 & Hrun1 & Hrun2 & Hlog & _).
  split.
  - change (view_model _) with 3 in Hbefore. rewrite Hbefore. reflexivity.
  - exists s1, s2. auto.
Defined.

(** A window of four bytes at offset 4 on the eight bytes: the array is of
    the eight bytes, and its element 0 is the first four of them. *)
Lemma window_is_ignored :
  exists a,
    deserialize_uint32array eight_bytes
      {| Buffers.data := {| dv_buffer := 0; dv_byteOffset := 4; dv_byteLength := 4 |} |}
      JNull = inr a /\
    ta_length a = 2 /\
    Buffers.element_bytes eight_bytes a 0 = Some [Byte.x00; Byte.x00; Byte.x80; Byte.x3f].
Proof.
  destruct (deserialize_reads_the_buffer_not_the_window eight_bytes 0 4 4 JNull _
              Deserialize_uint32array Uint32 eq_refl eq_refl ltac:(simpl; lia) eq_refl)
    as (a & Hrun & _ & _ & _ & Hlen & Hfirst).
  exists a. cbn [run_deserializer] in Hrun.
  split; [congruence |]. split; [exact Hlen | exact Hfirst].
Defined.

(** Six bytes are one element and a half. *)
Definition six_bytes : Buffers.Store :=
  [ [Byte.x00; Byte.x00; Byte.x80; Byte.x3f; Byte.x02; Byte.x00] ].

Lemma six_bytes_are_no_array :
  deserialize_float32array six_bytes
    {| Buffers.data := {| dv_buffer := 0; dv_byteOffset := 0; dv_byteLength := 4 |} |} JNull
  = inl RangeError.
Proof.
  refine (proj1 (deserialize_rejects_a_partial_element six_bytes
                   {| Buffers.data := {| dv_buffer := 0; dv_byteOffset := 0;
                                         dv_byteLength := 4 |} |}
                   JNull _ eq_refl _)).
  simpl. lia.
Defined.

(** A Threshold on the IsoColor of the example, not yet initialized. *)
Definition fresh_threshold : State :=
  with_models (fun ms => ms ++ [ {| model_class := ThresholdModel;
                                    attributes := {[ "parent" := JModel 1 ]}
                                                  ∪ defaults ThresholdModel;
                                    events := []; props := ∅ |} ]) example_state.

Lemma threshold_on_the_IsoColor :
  log (final_state (initialize 4 fresh_threshold)) =
  log example_state ++
  [ New Threshold [JRef 1; JArr [JNull]; JNum 0; JNum 0] 6;
    Assign 6 "defaultColor" (JStr "#6395b0");
    Listen 4 "change:default_color" cb_default_color;
    Listen 4 "change:default_alpha" cb_default_alpha;
    Listen 4 "change:input" cb_updateInput;
    Listen 4 "change:min" cb_Threshold_min;
    Listen 4 "change:max" cb_Threshold_max ].
Proof.
  assert (Hc : (ThresholdModel, Threshold) ∈ effect_classes) by in_list.
  pose proof (effect_initialize_takes_the_parent_block fresh_threshold 4 _ Threshold 1 _
                eq_refl Hc eq_refl eq_refl) as Hrun.
  cbv zeta in Hrun. rewrite Hrun. reflexivity.
Defined.

(** An initialized Data model and a PolyMesh model of it that is not yet
    initialized. *)
Definition fresh_mesh (data : JsValue) : State :=
  {| models := [ {| model_class := DataModel; attributes := ∅; events := [];
                    props := {[ "data" := JRef 0 ]} |};
                 {| model_class := PolyMeshModel;
                    attributes := {[ "data" := data ]} ∪ defaults PolyMeshModel;
                    events := []; props := ∅ |} ];
     views := [];
     heap := [ {| obj_class := Data; obj_args := [JStr "field"; JArr []];
                  obj_fields := ∅; obj_internal := IPlain |} ];
     window_listeners := []; jobs := []; log := [] |}.

Lemma mesh_of_one_data :
  log (final_state (initialize 1 (fresh_mesh (JArr [JModel 0])))) =
  [ New PolyMesh [JArr []; JArr []; JArr [JRef 0]; JObj [("environmentMeshes", JArr [])]] 1;
    Assign 1 "defaultColor" (JStr "#6395b0");
    Listen 1 "change:default_color" cb_default_color;
    Listen 1 "change:default_alpha" cb_default_alpha;
    Listen 1 "change:vertices" cb_vertices ].
Proof.
  assert (Hds : fields_of (fresh_mesh (JArr [JModel 0])) "data" [JModel 0] [JRef 0]).
  { constructor; [| constructor]. eexists _, _. split; [reflexivity |].
    split; [reflexivity |]. split; reflexivity. }
  assert (Hes : fields_of (fresh_mesh (JArr [JModel 0])) "obj" [] []) by constructor.
  assert (Hc : PolyMeshModel ∈ [PolyMeshModel; TetraMeshModel]) by in_list.
  pose proof (mesh_initialize_collects_data (fresh_mesh (JArr [JModel 0])) 1 _
                [JModel 0] [JRef 0] [] [] eq_refl Hc eq_refl Hds eq_refl Hes) as Hrun.
  cbv zeta in Hrun. rewrite Hrun. reflexivity.
Defined.


(** A mesh whose [data] lists the mesh itself before a null: the getter of
    [data] enters itself until the stack is full. *)
Example mesh_of_itself :
  initialize 1 (fresh_mesh (JArr [JModel 1; JNull])) =
  Throw RangeError (fresh_mesh (JArr [JModel 1; JNull])).
Proof. vm_compute. reflexivity. Qed.
